(** * Aspect-ratio batch samplers (examples/text_to_image/utils.py)

    A shallow embedding of [get_closest_ratio], [AspectRatioBatchSampler] and
    [BalancedAspectRatioBatchSampler], followed by the properties proved about
    them.

    Modelling conventions.
    - The resolution of a ratio to a key is embedded in [Doubles] over binary64
      floats, with the IEEE 754 subtraction, division, [abs] and comparisons
      the code runs. Inside the samplers, where only the key an index resolves
      to matters, a ratio is an exact canonical rational ([Qc]).
    - A Python [dict] is an association list in insertion order; lookup takes
      the first entry whose key is equal, assignment to an existing key keeps
      its position, assignment to a new key appends.
    - A generator is run to completion: the result is the list of batches it
      yields, in order, the instance state it leaves behind, and how it stopped.
    - An exception is a value of [exn]; a loop that cannot terminate is reported
      as [Diverged] by a fuel-bounded loop.
    - [random.choice] and [random.shuffle] read their randomness from an
      explicit [Draw] supplied for every iteration of the trailing loop. *)

From Stdlib Require Import String Ascii ZArith QArith Qabs Qcanon Qcabs.
From Stdlib Require Import Lia Bool Arith List Permutation.
From Stdlib Require Floats.
Import PrimFloat.
Import ListNotations.
#[local] Open Scope nat_scope.

(** ** The Python runtime pieces the module uses *)

Module Py.

Inductive exn : Type :=
  | ValueError
  | KeyError
  | IndexError
  | ZeroDivisionError
  | AssertionError.

Inductive result (A : Type) : Type :=
  | Ok (a : A)
  | Raise (e : exn).
Arguments Ok {A} a.
Arguments Raise {A} e.

(** The ratios and the values of the keys inside the samplers: exact
    rationals. The arithmetic of the resolution in double precision is in
    [Doubles]. *)
Definition pyfloat : Type := Qc.

(** [a < b] and [a == b] on floats. *)
Definition flt_lt (a b : pyfloat) : bool :=
  match (this a ?= this b)%Q with Lt => true | _ => false end.

Definition flt_eq (a b : pyfloat) : bool := Qeq_bool (this a) (this b).

(** [min(l, key=key)]: the first element is the candidate; a later element
    replaces it only when its key is strictly smaller. *)
Fixpoint min_loop {A : Type} (key : A -> pyfloat) (best : A) (rest : list A) : A :=
  match rest with
  | [] => best
  | x :: rest' =>
      min_loop key (if flt_lt (key x) (key best) then x else best) rest'
  end.

Definition py_min {A : Type} (key : A -> pyfloat) (l : list A) : result A :=
  match l with
  | [] => Raise ValueError
  | x :: rest => Ok (min_loop key x rest)
  end.

Section Dict.
Context {K V : Type} (eqb : K -> K -> bool).

(** [d[k]], [None] standing for the KeyError. *)
Fixpoint dict_get (k : K) (d : list (K * V)) : option V :=
  match d with
  | [] => None
  | (k', v) :: d' => if eqb k k' then Some v else dict_get k d'
  end.

(** [d[k] = v]. *)
Fixpoint dict_set (k : K) (v : V) (d : list (K * V)) : list (K * V) :=
  match d with
  | [] => [(k, v)]
  | (k', v') :: d' =>
      if eqb k k' then (k', v) :: d' else (k', v') :: dict_set k v d'
  end.

Definition dict_keys (d : list (K * V)) : list K := map fst d.
Definition dict_values (d : list (K * V)) : list V := map snd d.

(** [{k: v0 for k in ks}]. *)
Definition dict_fromkeys (ks : list K) (v0 : V) : list (K * V) :=
  fold_left (fun d k => dict_set k v0 d) ks [].

(** [x in l] for a list [l]. *)
Definition contains (x : K) (l : list K) : bool := existsb (eqb x) l.

(** [l.remove(x)]: drops the first occurrence. *)
Fixpoint list_remove (x : K) (l : list K) : list K :=
  match l with
  | [] => []
  | y :: l' => if eqb x y then l' else y :: list_remove x l'
  end.
End Dict.

(** How a run of a generator stopped. *)
Inductive status : Type :=
  | Finished
  | Raised (e : exn)
  | Diverged.

Record run (S : Type) : Type := mkRun {
  emitted : list (list nat);
  final : S;
  stopped : status
}.
Arguments mkRun {S} _ _ _.
Arguments emitted {S} _.
Arguments final {S} _.
Arguments stopped {S} _.

(** One iteration of a loop body: the batch it yields, if any, the state it
    leaves, and the exception that ended it, if any. *)
Record step_result (S : Type) : Type := mkStep {
  out : option (list nat);
  next : S;
  err : option exn
}.
Arguments mkStep {S} _ _ _.
Arguments out {S} _.
Arguments next {S} _.
Arguments err {S} _.

Definition yielded (o : option (list nat)) : list (list nat) :=
  match o with
  | Some b => [b]
  | None => []
  end.

Definition fl (n : Z) : pyfloat := Q2Qc (n # 1).

(** The exact value of a plain decimal literal such as ["0.25"], which stands
    for [float] on the keys of the tables of the sampler examples. *)
Definition digit (c : ascii) : option Z :=
  let n := nat_of_ascii c in
  if (48 <=? n) && (n <=? 57) then Some (Z.of_nat (n - 48)) else None.

Fixpoint parse_decimal (s : string) (seen_dot : bool) (num : Z) (scale : positive)
  : option Q :=
  match s with
  | EmptyString => Some (num # scale)
  | String c s' =>
      if Ascii.eqb c "."%char then
        if seen_dot then None else parse_decimal s' true num scale
      else
        match digit c with
        | None => None
        | Some d =>
            parse_decimal s' seen_dot (10 * num + d)%Z
              (if seen_dot then (10 * scale)%positive else scale)
        end
  end.

Definition decimal (s : string) : pyfloat :=
  match parse_decimal s false 0%Z 1%positive with
  | Some q => Q2Qc q
  | None => Q2Qc 0
  end.

End Py.

Import Py.

(** ** The nearest-key resolution inlined in the samplers *)

Section Resolver.
(** [float] applied to a key of the table. *)
Variable float : string -> pyfloat.

(** [min(ratios.keys(), key=lambda ratio: abs(float(ratio) - aspect_ratio))] *)
Definition closest_ratio (keys : list string) (aspect_ratio : pyfloat)
  : result string :=
  py_min (fun ratio => Qcabs (float ratio - aspect_ratio)) keys.

End Resolver.

Definition ASPECT_RATIO_512 : list (string * list pyfloat) :=
  [ ("0.25", [fl 256; fl 1024]); ("0.26", [fl 256; fl 992]);
    ("0.27", [fl 256; fl 960]); ("0.28", [fl 256; fl 928]);
    ("0.32", [fl 288; fl 896]); ("0.33", [fl 288; fl 864]);
    ("0.35", [fl 288; fl 832]); ("0.4", [fl 320; fl 800]);
    ("0.42", [fl 320; fl 768]); ("0.48", [fl 352; fl 736]);
    ("0.5", [fl 352; fl 704]); ("0.52", [fl 352; fl 672]);
    ("0.57", [fl 384; fl 672]); ("0.6", [fl 384; fl 640]);
    ("0.68", [fl 416; fl 608]); ("0.72", [fl 416; fl 576]);
    ("0.78", [fl 448; fl 576]); ("0.82", [fl 448; fl 544]);
    ("0.88", [fl 480; fl 544]); ("0.94", [fl 480; fl 512]);
    ("1.0", [fl 512; fl 512]); ("1.07", [fl 512; fl 480]);
    ("1.13", [fl 544; fl 480]); ("1.21", [fl 544; fl 448]);
    ("1.29", [fl 576; fl 448]); ("1.38", [fl 576; fl 416]);
    ("1.46", [fl 608; fl 416]); ("1.67", [fl 640; fl 384]);
    ("1.75", [fl 672; fl 384]); ("2.0", [fl 704; fl 352]);
    ("2.09", [fl 736; fl 352]); ("2.4", [fl 768; fl 320]);
    ("2.5", [fl 800; fl 320]); ("2.89", [fl 832; fl 288]);
    ("3.0", [fl 864; fl 288]); ("3.11", [fl 896; fl 288]);
    ("3.62", [fl 928; fl 256]); ("3.75", [fl 960; fl 256]);
    ("3.88", [fl 992; fl 256]); ("4.0", [fl 1024; fl 256]) ]%string.

(** ** [AspectRatioBatchSampler] *)

Module AspectRatioBatchSampler.

(** The instance attributes [__iter__] reads or writes. [sampler] is the
    sequence of indices the base sampler produces in a pass, [ratios] is
    [dataset['ratio']]. [config] and [valid_num] are stored or ignored by the
    constructor and never read, so they are left out. *)
Record t : Type := mk {
  sampler : list nat;
  ratios : nat -> pyfloat;
  batch_size : nat;
  aspect_ratios : list (string * list pyfloat);
  drop_last : bool;
  _aspect_ratio_buckets : list (string * list nat);
  current_available_bucket_keys : list string
}.

Definition with_buckets (self : t) (b : list (string * list nat)) : t :=
  mk (sampler self) (ratios self) (batch_size self) (aspect_ratios self)
     (drop_last self) b (current_available_bucket_keys self).

(** The instance when its base sampler produces [idxs] in the next pass. *)
Definition with_sampler (self : t) (idxs : list nat) : t :=
  mk idxs (ratios self) (batch_size self) (aspect_ratios self)
     (drop_last self) (_aspect_ratio_buckets self)
     (current_available_bucket_keys self).

(** The constructor; the [isinstance] tests are discharged by the types, the
    validated [batch_size] is stored as a natural number. *)
Definition __init__ (sampler_ : list nat) (ratios_ : nat -> pyfloat)
    (batch_size_ : Z) (aspect_ratios_ : list (string * list pyfloat))
    (drop_last_ : bool) : result t :=
  if (batch_size_ <=? 0)%Z then Raise ValueError
  else
    Ok (mk sampler_ ratios_ (Z.to_nat batch_size_) aspect_ratios_ drop_last_
          (dict_fromkeys String.eqb (dict_keys aspect_ratios_) [])
          (dict_keys aspect_ratios_)).

Section Iter.
Variable float : string -> pyfloat.

(** The body of [for idx in self.sampler]. *)
Definition step (self : t) (idx : nat) : step_result t :=
  let ratio := ratios self idx in
  match closest_ratio float (dict_keys (aspect_ratios self)) ratio with
  | Raise e => mkStep None self (Some e)
  | Ok closest =>
      if negb (contains String.eqb closest (current_available_bucket_keys self))
      then mkStep None self None
      else
        match dict_get String.eqb closest (_aspect_ratio_buckets self) with
        | None => mkStep None self (Some KeyError)
        | Some bucket0 =>
            let bucket := bucket0 ++ [idx] in
            if length bucket =? batch_size self then
              mkStep (Some bucket)
                (with_buckets self
                   (dict_set String.eqb closest [] (_aspect_ratio_buckets self)))
                None
            else
              mkStep None
                (with_buckets self
                   (dict_set String.eqb closest bucket (_aspect_ratio_buckets self)))
                None
        end
  end.

Fixpoint streaming (self : t) (idxs : list nat) : run t :=
  match idxs with
  | [] => mkRun [] self Finished
  | idx :: rest =>
      let r := step self idx in
      match err r with
      | Some e => mkRun (yielded (out r)) (next r) (Raised e)
      | None =>
          let r' := streaming (next r) rest in
          mkRun (yielded (out r) ++ emitted r') (final r') (stopped r')
      end
  end.

(** The [while len(bucket) > 0] loop on the local variable [bucket]; the
    second component is [false] when the fuel ran out before the loop ended. *)
Fixpoint drain_bucket (fuel : nat) (bs : nat) (dl : bool) (bucket : list nat)
  : list (list nat) * bool :=
  match fuel with
  | 0 => ([], false)
  | S fuel' =>
      if 0 <? length bucket then
        if length bucket <=? bs then
          (if negb dl then [bucket] else [], true)
        else
          let (more, ok) := drain_bucket fuel' bs dl (skipn bs bucket) in
          (firstn bs bucket :: more, ok)
      else ([], true)
  end.

(** [for bucket in self._aspect_ratio_buckets.values()]. The loop only
    rebinds its local variable: the stored buckets are not written. *)
Fixpoint drain (bs : nat) (dl : bool) (buckets : list (list nat))
  : list (list nat) * bool :=
  match buckets with
  | [] => ([], true)
  | bucket :: rest =>
      let (here, ok) := drain_bucket (S (length bucket)) bs dl bucket in
      if ok then
        let (more, ok') := drain bs dl rest in (here ++ more, ok')
      else (here, false)
  end.

Definition __iter__ (self : t) : run t :=
  let r := streaming self (sampler self) in
  match stopped r with
  | Finished =>
      let (rest, ok) :=
        drain (batch_size self) (drop_last self)
          (dict_values (_aspect_ratio_buckets (final r))) in
      mkRun (emitted r ++ rest) (final r) (if ok then Finished else Diverged)
  | _ => r
  end.
End Iter.

(** The drain as the specification words it: a [batch_size] prefix is removed
    and emitted while at least [batch_size] items remain, then the remainder,
    when there is one, is emitted unless [drop_last]. *)
Fixpoint spec_drain_bucket (fuel : nat) (bs : nat) (dl : bool) (bucket : list nat)
  : list (list nat) :=
  match fuel with
  | 0 => []
  | S fuel' =>
      if bs <=? length bucket then
        firstn bs bucket :: spec_drain_bucket fuel' bs dl (skipn bs bucket)
      else if (0 <? length bucket) && negb dl then [bucket]
      else []
  end.

Definition spec_drain (bs : nat) (dl : bool) (buckets : list (list nat))
  : list (list nat) :=
  flat_map (fun bucket => spec_drain_bucket (S (length bucket)) bs dl bucket) buckets.

(** What the drain loop emits from one bucket, in closed form: from a bucket of
    [n > 0] items, one [batch_size] prefix for as long as more than
    [batch_size] items remain, [(n - 1) / batch_size] in all, and then the
    remainder, of 1 to [batch_size] items, unless [drop_last]. *)
Definition drained (bs : nat) (dl : bool) (bucket : list nat)
  : list (list nat) :=
  match bucket with
  | [] => []
  | _ :: _ =>
      let full := (length bucket - 1) / bs in
      map (fun i => firstn bs (skipn (i * bs) bucket)) (seq 0 full)
      ++ (if dl then [] else [skipn (full * bs) bucket])
  end.

End AspectRatioBatchSampler.

(** The tables and streams of the worked examples. *)
Module Scenario.
Import AspectRatioBatchSampler.

Definition table3 : list (string * list pyfloat) :=
  [ ("0.5", [fl 352; fl 704]); ("1.0", [fl 512; fl 512]);
    ("2.0", [fl 704; fl 352]) ]%string.

(** [0.52, 0.49, 1.05, 2.1, 0.5] *)
Definition ratios5 (idx : nat) : pyfloat :=
  nth idx [Q2Qc (52 # 100); Q2Qc (49 # 100); Q2Qc (105 # 100);
           Q2Qc (21 # 10); Q2Qc (1 # 2)] (Q2Qc 1).

Definition fresh5 : result t := __init__ [0; 1; 2; 3; 4] ratios5 2 table3 false.

(** The instance [fresh5] constructs. *)
Definition instance5 : t :=
  mk [0; 1; 2; 3; 4] ratios5 2 table3 false
     [("0.5", []); ("1.0", []); ("2.0", [])]%string
     ["0.5"; "1.0"; "2.0"]%string.
End Scenario.

(** ** [BalancedAspectRatioBatchSampler] *)

Module BalancedAspectRatioBatchSampler.

(** [self.dataset.get_data_info(idx)] *)
Record DataInfo : Type := mkInfo {
  height : pyfloat;
  width : pyfloat
}.

(** What one iteration of the trailing loop draws: the position [random.choice]
    picks (taken modulo the length of the sequence) and the rearrangement
    [random.shuffle] applies. *)
Record Draw : Type := mkDraw {
  pick : nat;
  shuffle : list nat -> list nat
}.

(** The keys of [ratio_nums], of the buckets, of the counters and of the
    snapshots are floats. *)
Record t : Type := mk {
  sampler : list nat;
  get_data_info : nat -> DataInfo;
  batch_size : nat;
  aspect_ratios : list (string * list pyfloat);
  drop_last : bool;
  ratio_nums_gt : list (pyfloat * Z);
  _aspect_ratio_buckets : list (pyfloat * list nat);
  original_buckets : list (pyfloat * list nat);
  current_available_bucket_keys : list pyfloat;
  all_available_keys : list pyfloat;
  exhausted_bucket_keys : list pyfloat;
  total_batches : nat;
  _aspect_ratio_count : list (pyfloat * Z)
}.

Definition with_buckets (self : t) (b : list (pyfloat * list nat)) : t :=
  mk (sampler self) (get_data_info self) (batch_size self) (aspect_ratios self)
     (drop_last self) (ratio_nums_gt self) b (original_buckets self)
     (current_available_bucket_keys self) (all_available_keys self)
     (exhausted_bucket_keys self) (total_batches self) (_aspect_ratio_count self).

Definition with_original (self : t) (o : list (pyfloat * list nat)) : t :=
  mk (sampler self) (get_data_info self) (batch_size self) (aspect_ratios self)
     (drop_last self) (ratio_nums_gt self) (_aspect_ratio_buckets self) o
     (current_available_bucket_keys self) (all_available_keys self)
     (exhausted_bucket_keys self) (total_batches self) (_aspect_ratio_count self).

Definition with_count (self : t) (c : list (pyfloat * Z)) : t :=
  mk (sampler self) (get_data_info self) (batch_size self) (aspect_ratios self)
     (drop_last self) (ratio_nums_gt self) (_aspect_ratio_buckets self)
     (original_buckets self)
     (current_available_bucket_keys self) (all_available_keys self)
     (exhausted_bucket_keys self) (total_batches self) c.

Definition with_rounds (self : t) (available exhausted : list pyfloat) : t :=
  mk (sampler self) (get_data_info self) (batch_size self) (aspect_ratios self)
     (drop_last self) (ratio_nums_gt self) (_aspect_ratio_buckets self)
     (original_buckets self)
     available (all_available_keys self)
     exhausted (total_batches self) (_aspect_ratio_count self).

(** [random.choice(seq)] *)
Definition choice {A : Type} (d : Draw) (seq : list A) : result A :=
  match seq with
  | [] => Raise IndexError
  | _ :: _ =>
      match nth_error seq (pick d mod length seq) with
      | Some x => Ok x
      | None => Raise IndexError
      end
  end.

Section Class.
Variable float : string -> pyfloat.

(** [super().__init__] validates [batch_size]; [ratio_nums] is the keyword
    argument, [None] when it is not passed. *)
Definition __init__ (sampler_ : list nat) (get_data_info_ : nat -> DataInfo)
    (batch_size_ : Z) (aspect_ratios_ : list (string * list pyfloat))
    (drop_last_ : bool) (ratio_nums : option (list (pyfloat * Z)))
  : result t :=
  if (batch_size_ <=? 0)%Z then Raise ValueError
  else
    match ratio_nums with
    | None => Raise AssertionError
    | Some [] => Raise AssertionError
    | Some nums =>
        let keys :=
          map fst (filter (fun kv => (3000 <=? snd kv)%Z) nums) in
        Ok (mk sampler_ get_data_info_ (Z.to_nat batch_size_) aspect_ratios_
              drop_last_ nums
              (dict_fromkeys flt_eq (map float (dict_keys aspect_ratios_)) [])
              (dict_fromkeys flt_eq keys [])
              keys keys []
              (length sampler_ / Z.to_nat batch_size_)
              (dict_fromkeys flt_eq keys 0%Z))
    end.

(** Lines 119-122: the capture of [idx] under the quota of its key. The
    counter is written before the two appends. *)
Definition capture (self : t) (closest_ratio : pyfloat) (idx : nat)
  : t * option exn :=
  match dict_get flt_eq closest_ratio (_aspect_ratio_count self) with
  | None => (self, Some KeyError)
  | Some count =>
      match dict_get flt_eq closest_ratio (ratio_nums_gt self) with
      | None => (self, Some KeyError)
      | Some quota =>
          if (count <? quota)%Z then
            let self1 :=
              with_count self
                (dict_set flt_eq closest_ratio (count + 1)%Z
                   (_aspect_ratio_count self)) in
            match dict_get flt_eq closest_ratio (_aspect_ratio_buckets self1) with
            | None => (self1, Some KeyError)
            | Some bucket =>
                let self2 :=
                  with_buckets self1
                    (dict_set flt_eq closest_ratio (bucket ++ [idx])
                       (_aspect_ratio_buckets self1)) in
                match dict_get flt_eq closest_ratio (original_buckets self2) with
                | None => (self2, Some KeyError)
                | Some orig =>
                    (with_original self2
                       (dict_set flt_eq closest_ratio (orig ++ [idx])
                          (original_buckets self2)), None)
                end
            end
          else (self, None)
      end
  end.

(** Lines 123-124. *)
Definition swap_rounds (self : t) : t :=
  match current_available_bucket_keys self with
  | [] => with_rounds self (exhausted_bucket_keys self) []
  | _ :: _ => self
  end.

(** Lines 126-135. *)
Definition emit (self : t) (closest_ratio : pyfloat) : step_result t :=
  if negb (contains flt_eq closest_ratio (current_available_bucket_keys self))
  then mkStep None self None
  else
    let key := closest_ratio in
    match dict_get flt_eq key (_aspect_ratio_buckets self) with
    | None => mkStep None self (Some KeyError)
    | Some bucket =>
        if length bucket =? batch_size self then
          let self1 :=
            with_buckets self
              (dict_set flt_eq key (skipn (batch_size self) bucket)
                 (_aspect_ratio_buckets self)) in
          mkStep (Some (firstn (batch_size self) bucket))
            (with_rounds self1
               (list_remove flt_eq key (current_available_bucket_keys self1))
               (exhausted_bucket_keys self1 ++ [key]))
            None
        else mkStep None self None
    end.

(** The resolved key of an index, as a float (lines 113-116). *)
Definition resolve (self : t) (idx : nat) : result pyfloat :=
  let data_info := get_data_info self idx in
  if flt_eq (width data_info) (Q2Qc 0) then Raise ZeroDivisionError
  else
    let ratio := (height data_info / width data_info)%Qc in
    match closest_ratio float (dict_keys (aspect_ratios self)) ratio with
    | Raise e => Raise e
    | Ok r => Ok (float r)
    end.

(** The body of [for idx in self.sampler]. *)
Definition step (self : t) (idx : nat) : step_result t :=
  match resolve self idx with
  | Raise e => mkStep None self (Some e)
  | Ok closest_ratio =>
      if negb (contains flt_eq closest_ratio (all_available_keys self))
      then mkStep None self None
      else
        match capture self closest_ratio idx with
        | (self1, Some e) => mkStep None self1 (Some e)
        | (self1, None) => emit (swap_rounds self1) closest_ratio
        end
  end.

(** The first loop; the second component of the state is the counter [i]. *)
Fixpoint streaming (self : t) (i : nat) (idxs : list nat) : run (t * nat) :=
  match idxs with
  | [] => mkRun [] (self, i) Finished
  | idx :: rest =>
      let r := step self idx in
      let i' := match out r with Some _ => S i | None => i end in
      match err r with
      | Some e => mkRun (yielded (out r)) (next r, i') (Raised e)
      | None =>
          let r' := streaming (next r) i' rest in
          mkRun (yielded (out r) ++ emitted r') (final r') (stopped r')
      end
  end.

(** Lines 146-147 and 149-150. *)
Definition refill (self : t) (key : pyfloat) (d : Draw) : t * option exn :=
  match dict_get flt_eq key (original_buckets self) with
  | None => (self, Some KeyError)
  | Some orig =>
      (with_buckets self
         (dict_set flt_eq key (shuffle d orig) (_aspect_ratio_buckets self)),
       None)
  end.

(** The body of [for _ in range(self.total_batches - i)]. *)
Definition trailing_step (self : t) (d : Draw) : step_result t :=
  match choice d (all_available_keys self) with
  | Raise e => mkStep None self (Some e)
  | Ok key =>
      match dict_get flt_eq key (_aspect_ratio_buckets self) with
      | None => mkStep None self (Some KeyError)
      | Some bucket =>
          if batch_size self <=? length bucket then
            let rest := skipn (batch_size self) bucket in
            let self1 :=
              with_buckets self
                (dict_set flt_eq key rest (_aspect_ratio_buckets self)) in
            match rest with
            | [] =>
                let (self2, e) := refill self1 key d in
                mkStep (Some (firstn (batch_size self) bucket)) self2 e
            | _ :: _ =>
                mkStep (Some (firstn (batch_size self) bucket)) self1 None
            end
          else
            let (self2, e) := refill self key d in mkStep None self2 e
      end
  end.

(** [n] iterations of the trailing loop, the [k]-th one (counted from [it])
    using the draw [rnd k]. *)
Fixpoint trailing (rnd : nat -> Draw) (n : nat) (it : nat) (self : t) : run t :=
  match n with
  | 0 => mkRun [] self Finished
  | S n' =>
      let r := trailing_step self (rnd it) in
      match err r with
      | Some e => mkRun (yielded (out r)) (next r) (Raised e)
      | None =>
          let r' := trailing rnd n' (S it) (next r) in
          mkRun (yielded (out r) ++ emitted r') (final r') (stopped r')
      end
  end.

Definition __iter__ (rnd : nat -> Draw) (self : t) : run t :=
  let r := streaming self 0 (sampler self) in
  let i := snd (final r) in
  match stopped r with
  | Finished =>
      let r' := trailing rnd (total_batches self - i) 0 (fst (final r)) in
      mkRun (emitted r ++ emitted r') (final r') (stopped r')
  | st => mkRun (emitted r) (fst (final r)) st
  end.
End Class.

End BalancedAspectRatioBatchSampler.

(** ** The nearest-key resolution in double precision *)

Module Doubles.

(** A Python [float] is a binary64 number: [-], [/], [abs], [<] and [==] are
    the IEEE 754 operations, rounding to nearest, ties to even. *)
Definition double : Type := PrimFloat.float.

(** [min(l, key=key)]: the key of every element is computed once, in order;
    the first element is the candidate, and a later element replaces it only
    when its key is strictly smaller. An exception raised by [key] ends the
    call. *)
Fixpoint min_loop {A : Type} (key : A -> result double) (best : A)
    (best_key : double) (rest : list A) : result A :=
  match rest with
  | [] => Ok best
  | x :: rest' =>
      match key x with
      | Raise e => Raise e
      | Ok x_key =>
          if (x_key <? best_key)%float then min_loop key x x_key rest'
          else min_loop key best best_key rest'
      end
  end.

Definition py_min {A : Type} (key : A -> result double) (l : list A) : result A :=
  match l with
  | [] => Raise ValueError
  | x :: rest =>
      match key x with
      | Raise e => Raise e
      | Ok x_key => min_loop key x x_key rest
      end
  end.

Section Resolver.
(** [float] applied to a key of the table: the double nearest to the literal,
    or the exception [float] raises on it. *)
Variable float : string -> result double.

(** [lambda ratio: abs(float(ratio) - aspect_ratio)] *)
Definition distance (aspect_ratio : double) (ratio : string) : result double :=
  match float ratio with
  | Raise e => Raise e
  | Ok f => Ok (abs (f - aspect_ratio))%float
  end.

(** [min(ratios.keys(), key=lambda ratio: abs(float(ratio) - aspect_ratio))] *)
Definition closest_ratio (keys : list string) (aspect_ratio : double)
  : result string :=
  py_min (distance aspect_ratio) keys.

(** [get_closest_ratio(height, width, ratios)] on float arguments; the
    division raises on a zero of either sign. *)
Definition get_closest_ratio {V : Type} (height width : double)
    (ratios : list (string * V)) : result (V * double) :=
  if (width =? 0)%float then Raise ZeroDivisionError
  else
    let aspect_ratio := (height / width)%float in
    match closest_ratio (dict_keys ratios) aspect_ratio with
    | Raise e => Raise e
    | Ok closest =>
        match dict_get String.eqb closest ratios with
        | None => Raise KeyError
        | Some dims =>
            match float closest with
            | Raise e => Raise e
            | Ok f => Ok (dims, f)
            end
        end
    end.

(** [float] accepts the key. *)
Definition accepted (ratio : string) : bool :=
  match float ratio with
  | Ok _ => true
  | Raise _ => false
  end.
End Resolver.

(** [float] on the literals listed in [values], each given with the double it
    reads as. *)
Definition float_on (values : list (string * double)) (s : string)
  : result double :=
  match dict_get String.eqb s values with
  | Some f => Ok f
  | None => Raise ValueError
  end.

(** The rational number a finite double stands for. *)
Definition exact (x : double) : option Q :=
  match FloatOps.Prim2SF x with
  | SpecFloat.S754_zero _ => Some 0%Q
  | SpecFloat.S754_finite s m e =>
      let n := if s then Z.neg m else Z.pos m in
      Some (Qred match e with
                 | Z0 => inject_Z n
                 | Z.pos p => inject_Z (n * Z.pow_pos 2 p)
                 | Z.neg p => (n # Pos.pow 2 p)%Q
                 end)
  | _ => None
  end.

(** The order of the doubles that are not NaN: a double is ranked by its sign
    class, then by its exponent, then by its mantissa. *)
Definition rank (x : SpecFloat.spec_float) : option (Z * Z * Z) :=
  match x with
  | SpecFloat.S754_nan => None
  | SpecFloat.S754_zero _ => Some (0, 0, 0)%Z
  | SpecFloat.S754_infinity s => Some (if s then (-2)%Z else 2%Z, 0%Z, 0%Z)
  | SpecFloat.S754_finite s m e =>
      Some (if s then ((-1)%Z, (- e)%Z, Z.neg m) else (1%Z, e, Z.pos m))
  end.

Definition rank_lt (a b : Z * Z * Z) : Prop :=
  let '(a1, a2, a3) := a in
  let '(b1, b2, b3) := b in
  (a1 < b1 \/ a1 = b1 /\ (a2 < b2 \/ a2 = b2 /\ a3 < b3))%Z.

(** [key] is the first of [keys] among those whose distance to [value], as
    [distance] computes it, is smallest: no key has a smaller one, and no key
    listed before [key] has one that is smaller or equal. *)
Definition first_nearest (float : string -> result double) (value : double)
    (keys : list string) (key : string) : Prop :=
  exists pre post d,
    keys = pre ++ key :: post
    /\ distance float value key = Ok d
    /\ (forall k dk, In k keys -> distance float value k = Ok dk ->
          (dk <? d)%float = false)
    /\ (forall k dk, In k pre -> distance float value k = Ok dk ->
          (dk <=? d)%float = false).

#[local] Open Scope string_scope.
#[local] Open Scope float_scope.

(** [float] on the keys of [ASPECT_RATIO_512]. *)
#[warnings="-inexact-float"]
Definition float_512 : string -> result double :=
  float_on
    [ ("0.25", 0.25); ("0.26", 0.26); ("0.27", 0.27); ("0.28", 0.28)
    ; ("0.32", 0.32); ("0.33", 0.33); ("0.35", 0.35); ("0.4", 0.4)
    ; ("0.42", 0.42); ("0.48", 0.48); ("0.5", 0.5); ("0.52", 0.52)
    ; ("0.57", 0.57); ("0.6", 0.6); ("0.68", 0.68); ("0.72", 0.72)
    ; ("0.78", 0.78); ("0.82", 0.82); ("0.88", 0.88); ("0.94", 0.94)
    ; ("1.0", 1.0); ("1.07", 1.07); ("1.13", 1.13); ("1.21", 1.21)
    ; ("1.29", 1.29); ("1.38", 1.38); ("1.46", 1.46); ("1.67", 1.67)
    ; ("1.75", 1.75); ("2.0", 2.0); ("2.09", 2.09); ("2.4", 2.4); ("2.5", 2.5)
    ; ("2.89", 2.89); ("3.0", 3.0); ("3.11", 3.11); ("3.62", 3.62)
    ; ("3.75", 3.75); ("3.88", 3.88); ("4.0", 4.0) ].

End Doubles.

(** The instances of the worked examples of the balanced sampler. *)
Module BalancedScenario.
Import BalancedAspectRatioBatchSampler.

Definition table2 : list (string * list pyfloat) :=
  [ ("0.5", [fl 352; fl 704]); ("1.0", [fl 512; fl 512]) ]%string.

Definition half : pyfloat := Q2Qc (1 # 2).
Definition one : pyfloat := Q2Qc 1.

(** Images of ratio 0.5 ([tall]) and 1.0 ([square]). *)
Definition tall : DataInfo := mkInfo (fl 256) (fl 512).
Definition square : DataInfo := mkInfo (fl 512) (fl 512).

Definition infos (l : list DataInfo) (idx : nat) : DataInfo := nth idx l square.

(** Both keys qualify. *)
Definition nums_both : list (pyfloat * Z) := [(half, 3000%Z); (one, 3000%Z)].
(** Only 0.5 qualifies. *)
Definition nums_half : list (pyfloat * Z) := [(half, 3000%Z); (one, 10%Z)].

(** The instance a successful constructor call returned. *)
Definition built (r : result t) : t :=
  match r with
  | Ok s => s
  | Raise _ =>
      mk [] (infos []) 0 [] false [] [] [] [] [] [] 0 []
  end.

Definition keep : Draw := mkDraw 0 (fun l => l).
Definition reversing : Draw := mkDraw 1 (fun l => rev l).

(** Two indices of different keys, [batch_size = 2]. *)
Definition under : result t :=
  __init__ decimal [0; 1] (infos [tall; square]) 2 table2 false (Some nums_both).

(** 0.5, then 1.0 which does not qualify, [batch_size = 1]. *)
Definition skipping : result t :=
  __init__ decimal [0; 1] (infos [tall; square]) 1 table2 false (Some nums_half).

(** Three indices of key 0.5 while 1.0 stays available, [batch_size = 1]. *)
Definition growing : result t :=
  __init__ decimal [0; 1; 2] (infos [tall; tall; tall]) 1 table2 false
    (Some nums_both).

(** Three indices of key 0.5, [batch_size = 2], four batches wanted. *)
Definition partial : result t :=
  __init__ decimal [0; 1; 2; 3; 4; 5; 6; 7] (infos [tall; tall; tall])
    2 table2 false (Some nums_both).
End BalancedScenario.

(** ** Predicates used in the statements *)

(** [m] is the first element of [l] whose key is minimal. *)
Definition first_min {A : Type} (key : A -> pyfloat) (m : A) (l : list A) : Prop :=
  exists pre post,
    l = pre ++ m :: post
    /\ (forall x, In x pre -> (key m < key x)%Qc)
    /\ (forall x, In x post -> (key m <= key x)%Qc).

Module BasicPreds.
Import AspectRatioBatchSampler.

Section WithFloat.
Variable float : string -> pyfloat.

(** The key an index resolves to (line 71). *)
Definition closest (self : t) (idx : nat) : result string :=
  closest_ratio float (dict_keys (aspect_ratios self)) (ratios self idx).

(** [idx] resolves to [k]. *)
Definition resolves_to (self : t) (k : string) (idx : nat) : bool :=
  match closest self idx with
  | Ok k' => String.eqb k' k
  | Raise _ => false
  end.

(** What holds of an instance between two iterations of the first loop. *)
Record Inv (self : t) : Prop := mkInv {
  inv_bs : 0 < batch_size self;
  inv_nodup : NoDup (dict_keys (_aspect_ratio_buckets self));
  inv_keys :
    forall k, In k (dict_keys (aspect_ratios self)) ->
              In k (dict_keys (_aspect_ratio_buckets self));
  inv_avail :
    current_available_bucket_keys self = dict_keys (aspect_ratios self);
  inv_short :
    forall k b, In (k, b) (_aspect_ratio_buckets self) ->
                length b < batch_size self;
  inv_same :
    forall k b i, In (k, b) (_aspect_ratio_buckets self) -> In i b ->
                  closest self i = Ok k
}.

(** The attributes a pass never writes. *)
Definition same_config (s s' : t) : Prop :=
  sampler s' = sampler s /\ ratios s' = ratios s
  /\ batch_size s' = batch_size s /\ aspect_ratios s' = aspect_ratios s
  /\ drop_last s' = drop_last s
  /\ current_available_bucket_keys s' = current_available_bucket_keys s.

(** The instance after [n] complete passes. *)
Fixpoint after_passes (n : nat) (self : t) : t :=
  match n with
  | 0 => self
  | S n' => after_passes n' (final (__iter__ float self))
  end.
End WithFloat.
End BasicPreds.

Module BalancedPreds.
Import BalancedAspectRatioBatchSampler.

(** Every running count is at most the quota of its key. *)
Definition quota_ok (count nums : list (pyfloat * Z)) : Prop :=
  forall k c,
    dict_get flt_eq k count = Some c ->
    exists q, dict_get flt_eq k nums = Some q /\ (c <= q)%Z.

Definition within_quota (self : t) : Prop :=
  quota_ok (_aspect_ratio_count self) (ratio_nums_gt self).

(** The number of indices held in the live buckets. *)
Definition stored (self : t) : nat :=
  length (concat (dict_values (_aspect_ratio_buckets self))).

(** The attributes neither loop writes. *)
Definition same_frame (s s' : t) : Prop :=
  sampler s' = sampler s /\ get_data_info s' = get_data_info s
  /\ batch_size s' = batch_size s /\ aspect_ratios s' = aspect_ratios s
  /\ ratio_nums_gt s' = ratio_nums_gt s
  /\ all_available_keys s' = all_available_keys s
  /\ total_batches s' = total_batches s.

(** The three dictionaries of [s'] have the keys of those of [s]. *)
Definition same_keys (s s' : t) : Prop :=
  dict_keys (_aspect_ratio_count s') = dict_keys (_aspect_ratio_count s)
  /\ dict_keys (_aspect_ratio_buckets s') = dict_keys (_aspect_ratio_buckets s)
  /\ dict_keys (original_buckets s') = dict_keys (original_buckets s).

(** [s'] is [s] but for the live buckets. *)
Definition only_buckets (s s' : t) : Prop :=
  s' = with_buckets s (_aspect_ratio_buckets s').

Section WithFloat.
Variable float : string -> pyfloat.

(** Every qualifying key has a count, a quota and a snapshot, and the float
    of every key of the table has a live bucket. *)
Definition known_keys (self : t) : Prop :=
  (forall k, In k (all_available_keys self) ->
             In k (dict_keys (_aspect_ratio_count self))
             /\ In k (dict_keys (ratio_nums_gt self))
             /\ In k (dict_keys (original_buckets self)))
  /\ (forall r, In r (dict_keys (aspect_ratios self)) ->
                In (float r) (dict_keys (_aspect_ratio_buckets self))).

(** Every index held in a live bucket or in a snapshot of [u] resolves, in
    [s], to the key it is held under, and [u] has the frame of [s]. *)
Definition held_by_key (s u : t) : Prop :=
  same_frame s u
  /\ (forall k b i, In (k, b) (_aspect_ratio_buckets u) -> In i b ->
                    resolve float s i = Ok k)
  /\ (forall k o i, In (k, o) (original_buckets u) -> In i o ->
                    resolve float s i = Ok k).

(** The instance once the first loop has processed [idxs]. *)
Definition state_after (self : t) (idxs : list nat) : t :=
  fst (final (streaming float self 0 idxs)).
End WithFloat.
End BalancedPreds.

(** * Properties *)

(** ** Floats, [min] and dictionaries *)

Lemma flt_lt_iff (a b : pyfloat) : flt_lt a b = true <-> (a < b)%Qc.
Proof.
  unfold flt_lt, Qclt. rewrite Qlt_alt.
  destruct (this a ?= this b)%Q; split; congruence.
Qed.

Lemma flt_lt_false (a b : pyfloat) : flt_lt a b = false <-> (b <= a)%Qc.
Proof.
  split; intro H.
  - apply Qcnot_lt_le. intro L. apply flt_lt_iff in L. congruence.
  - destruct (flt_lt a b) eqn:E; [|reflexivity].
    apply flt_lt_iff in E. exfalso. exact (Qclt_not_le _ _ E H).
Qed.

Lemma flt_eq_iff (a b : pyfloat) : flt_eq a b = true <-> a = b.
Proof.
  unfold flt_eq. rewrite Qeq_bool_iff. split.
  - apply Qc_is_canon.
  - intros ->. reflexivity.
Qed.

Lemma flt_eq_refl (a : pyfloat) : flt_eq a a = true.
Proof. apply flt_eq_iff. reflexivity. Qed.

Section MinLoop.
Context {A : Type} (key : A -> pyfloat).

Lemma min_loop_first_min (rest : list A) :
  forall pre best mid,
    (forall x, In x pre -> (key best < key x)%Qc) ->
    (forall x, In x mid -> (key best <= key x)%Qc) ->
    exists pre' post',
      pre ++ best :: mid ++ rest = pre' ++ min_loop key best rest :: post'
      /\ (forall x, In x pre' -> (key (min_loop key best rest) < key x)%Qc)
      /\ (forall x, In x post' -> (key (min_loop key best rest) <= key x)%Qc).
Proof.
  induction rest as [|x rest IH]; intros pre best mid Hpre Hmid; simpl.
  - exists pre, mid. rewrite app_nil_r. auto.
  - destruct (flt_lt (key x) (key best)) eqn:E.
    + apply flt_lt_iff in E.
      destruct (IH (pre ++ best :: mid) x []) as (pre' & post' & Heq & H1 & H2).
      * intros y Hy. apply in_app_or in Hy. destruct Hy as [Hy|[<-|Hy]].
        -- eapply Qclt_trans; eauto.
        -- assumption.
        -- eapply Qclt_le_trans; eauto.
      * intros y [].
      * exists pre', post'. split; [|auto].
        rewrite <- Heq. simpl. rewrite <- app_assoc. reflexivity.
    + apply flt_lt_false in E.
      destruct (IH pre best (mid ++ [x])) as (pre' & post' & Heq & H1 & H2).
      * assumption.
      * intros y Hy. apply in_app_or in Hy. destruct Hy as [Hy|[<-|[]]]; auto.
      * exists pre', post'. split; [|auto].
        rewrite <- Heq. rewrite <- app_assoc. reflexivity.
Qed.

Lemma py_min_first_min (l : list A) :
  l <> [] -> exists m, py_min key l = Ok m /\ first_min key m l.
Proof.
  destruct l as [|x rest]; [congruence|]. intros _.
  exists (min_loop key x rest). split; [reflexivity|].
  destruct (min_loop_first_min rest [] x []) as (pre & post & Heq & H1 & H2).
  - intros y [].
  - intros y [].
  - exists pre, post. auto.
Qed.

Lemma first_min_In (m : A) (l : list A) : first_min key m l -> In m l.
Proof.
  intros (pre & post & -> & _). apply in_or_app. right. left. reflexivity.
Qed.

Lemma first_min_le (m : A) (l : list A) :
  first_min key m l -> forall x, In x l -> (key m <= key x)%Qc.
Proof.
  intros (pre & post & -> & H1 & H2) x Hx.
  apply in_app_or in Hx. destruct Hx as [Hx|[<-|Hx]].
  - apply Qclt_le_weak. auto.
  - apply Qcle_refl.
  - auto.
Qed.
End MinLoop.

Lemma py_min_ok_In {A : Type} (key : A -> pyfloat) (l : list A) (m : A) :
  py_min key l = Ok m -> In m l.
Proof.
  intro H. destruct l as [|x rest]; [discriminate|].
  destruct (py_min_first_min key (x :: rest)) as (m' & Hm & Hf); [discriminate|].
  rewrite H in Hm. injection Hm as <-. eapply first_min_In; eauto.
Qed.

Section DictFacts.
Context {K V : Type} (eqb : K -> K -> bool).
Hypothesis eqb_eq : forall a b, eqb a b = true <-> a = b.

Lemma eqb_same (a : K) : eqb a a = true.
Proof. apply eqb_eq. reflexivity. Qed.

Lemma eqb_neq (a b : K) : eqb a b = false <-> a <> b.
Proof.
  split.
  - intros H E. apply eqb_eq in E. congruence.
  - intro H. destruct (eqb a b) eqn:E; [|reflexivity].
    apply eqb_eq in E. contradiction.
Qed.

Lemma key_eq_dec (a b : K) : {a = b} + {a <> b}.
Proof.
  destruct (eqb a b) eqn:E;
    [left; apply eqb_eq|right; apply eqb_neq]; assumption.
Qed.

Lemma contains_In (x : K) (l : list K) : contains eqb x l = true <-> In x l.
Proof.
  unfold contains. rewrite existsb_exists. split.
  - intros (y & Hy & E). apply eqb_eq in E. subst. assumption.
  - intro H. exists x. split; [assumption|apply eqb_same].
Qed.

Lemma dict_get_In_keys (k : K) (d : list (K * V)) :
  In k (dict_keys d) -> exists v, dict_get eqb k d = Some v.
Proof.
  induction d as [|[k' v'] d IH]; simpl; [tauto|].
  intros [E|H].
  - subst. rewrite eqb_same. eauto.
  - destruct (eqb k k'); eauto.
Qed.

(** A successful lookup locates the entry that an assignment rewrites. *)
Lemma dict_get_split (k : K) (v : V) (d : list (K * V)) :
  dict_get eqb k d = Some v ->
  exists d1 d2,
    d = d1 ++ (k, v) :: d2
    /\ ~ In k (dict_keys d1)
    /\ forall v', dict_set eqb k v' d = d1 ++ (k, v') :: d2.
Proof.
  induction d as [|[k' v0] d IH]; simpl; [discriminate|].
  destruct (eqb k k') eqn:E.
  - intro H. injection H as ->. apply eqb_eq in E. subst k'.
    exists [], d. simpl. auto.
  - intro H. destruct (IH H) as (d1 & d2 & -> & Hn & Hs).
    exists ((k', v0) :: d1), d2. simpl. split; [reflexivity|]. split.
    + intros [E'|E']; [|contradiction]. apply eqb_neq in E. congruence.
    + intro v'. rewrite Hs. reflexivity.
Qed.

Lemma dict_get_In (k : K) (v : V) (d : list (K * V)) :
  dict_get eqb k d = Some v -> In (k, v) d.
Proof.
  intro H. destruct (dict_get_split _ _ _ H) as (d1 & d2 & -> & _).
  apply in_or_app. right. left. reflexivity.
Qed.

Lemma In_dict_get (k : K) (v : V) (d : list (K * V)) :
  NoDup (dict_keys d) -> In (k, v) d -> dict_get eqb k d = Some v.
Proof.
  induction d as [|[k' v'] d IH]; simpl; [tauto|].
  intros Hnd [E|H].
  - injection E as -> ->. rewrite eqb_same. reflexivity.
  - inversion Hnd as [|? ? Hnot Hnd']; subst.
    destruct (eqb k k') eqn:E.
    + apply eqb_eq in E. subst k'. exfalso. apply Hnot.
      change (In (fst (k, v)) (map fst d)). apply in_map. assumption.
    + auto.
Qed.

Lemma dict_set_keys (k : K) (v : V) (d : list (K * V)) :
  In k (dict_keys d) -> dict_keys (dict_set eqb k v d) = dict_keys d.
Proof.
  induction d as [|[k' v'] d IH]; simpl; [tauto|].
  intros H. destruct (eqb k k') eqn:E; simpl; [reflexivity|].
  f_equal. apply IH. destruct H as [H|H]; [|assumption].
  apply eqb_neq in E. congruence.
Qed.

Lemma dict_set_keys_new (k : K) (v : V) (d : list (K * V)) :
  ~ In k (dict_keys d) -> dict_keys (dict_set eqb k v d) = dict_keys d ++ [k].
Proof.
  induction d as [|[k' v'] d IH]; simpl; [reflexivity|].
  intros H. destruct (eqb k k') eqn:E; simpl.
  - apply eqb_eq in E. subst. tauto.
  - f_equal. apply IH. tauto.
Qed.

Lemma dict_set_In (k k' : K) (v v' : V) (d : list (K * V)) :
  In (k', v') (dict_set eqb k v d) -> (k' = k /\ v' = v) \/ In (k', v') d.
Proof.
  induction d as [|[k0 v0] d IH]; simpl.
  - intros [E|[]]. injection E as <- <-. auto.
  - destruct (eqb k k0) eqn:E; simpl.
    + apply eqb_eq in E. subst k0. intros [H|H]; [|auto].
      injection H as <- <-. auto.
    + intros [H|H]; [auto|]. destruct (IH H); auto.
Qed.

Lemma dict_get_set_same (k : K) (v : V) (d : list (K * V)) :
  dict_get eqb k (dict_set eqb k v d) = Some v.
Proof.
  induction d as [|[k0 v0] d IH]; simpl.
  - rewrite eqb_same. reflexivity.
  - destruct (eqb k k0) eqn:E; simpl; rewrite E; auto.
Qed.

Lemma dict_get_set_other (k k' : K) (v : V) (d : list (K * V)) :
  k' <> k -> dict_get eqb k' (dict_set eqb k v d) = dict_get eqb k' d.
Proof.
  intro Hne. induction d as [|[k0 v0] d IH]; simpl.
  - apply eqb_neq in Hne. rewrite Hne. reflexivity.
  - destruct (eqb k k0) eqn:E; simpl.
    + apply eqb_eq in E. subst k0. apply eqb_neq in Hne. rewrite Hne.
      reflexivity.
    + rewrite IH. reflexivity.
Qed.

Lemma dict_fromkeys_acc (v0 : V) (ks : list K) :
  forall acc,
    (forall k v, In (k, v) acc -> v = v0) ->
    let d := fold_left (fun d k => dict_set eqb k v0 d) ks acc in
    (forall k v, In (k, v) d -> v = v0)
    /\ (forall k, In k (dict_keys d) <-> In k (dict_keys acc) \/ In k ks)
    /\ (NoDup (dict_keys acc) -> NoDup (dict_keys d))
    /\ (NoDup (dict_keys acc ++ ks) -> dict_keys d = dict_keys acc ++ ks).
Proof.
  induction ks as [|k ks IH]; intros acc Hacc; simpl.
  - split; [exact Hacc|]. split; [|split].
    + intro k. simpl. tauto.
    + auto.
    + intros _. rewrite app_nil_r. reflexivity.
  - assert (Hacc' : forall k' v, In (k', v) (dict_set eqb k v0 acc) -> v = v0).
    { intros k' v H. apply dict_set_In in H. destruct H as [[_ ->]|H]; eauto. }
    destruct (IH _ Hacc') as (I1 & I2 & I3 & I4).
    assert (Hkeys : forall k', In k' (dict_keys (dict_set eqb k v0 acc))
                               <-> In k' (dict_keys acc) \/ k' = k).
    { intro k'. destruct (in_dec key_eq_dec k (dict_keys acc)) as [Hin|Hnin].
      - rewrite dict_set_keys by assumption. split; [auto|].
        intros [H| ->]; assumption.
      - rewrite dict_set_keys_new by assumption. rewrite in_app_iff. simpl.
        split; [intros [H|[H|[]]]; auto|intros [H|H]; auto]. }
    split; [exact I1|]. split; [|split].
    + intro k'. rewrite I2, Hkeys. simpl. intuition congruence.
    + intro Hnd. apply I3.
      destruct (in_dec key_eq_dec k (dict_keys acc)) as [Hin|Hnin].
      * rewrite dict_set_keys by assumption. assumption.
      * rewrite dict_set_keys_new by assumption.
        apply NoDup_app; [assumption|repeat constructor; simpl; tauto|].
        intros x Hx [<-|[]]. contradiction.
    + intro Hnd.
      assert (Hnin : ~ In k (dict_keys acc)).
      { intro Hin. apply NoDup_remove_2 in Hnd. apply Hnd.
        apply in_or_app. auto. }
      rewrite I4; rewrite dict_set_keys_new by assumption.
      * rewrite <- app_assoc. reflexivity.
      * rewrite <- app_assoc. exact Hnd.
Qed.

Lemma dict_fromkeys_spec (v0 : V) (ks : list K) :
  (forall k v, In (k, v) (dict_fromkeys eqb ks v0) -> v = v0)
  /\ (forall k, In k (dict_keys (dict_fromkeys eqb ks v0)) <-> In k ks)
  /\ NoDup (dict_keys (dict_fromkeys eqb ks v0))
  /\ (NoDup ks -> dict_keys (dict_fromkeys eqb ks v0) = ks).
Proof.
  destruct (dict_fromkeys_acc v0 ks []) as (I1 & I2 & I3 & I4).
  - intros k v [].
  - split; [exact I1|]. split; [|split].
    + intro k. rewrite I2. simpl. tauto.
    + apply I3. constructor.
    + intro H. apply I4. exact H.
Qed.
End DictFacts.

(** ** The order of the doubles and [min] over computed distances *)

Module DoublesFacts.
Import Doubles.

Ltac rank_cases :=
  repeat match goal with
         | s : bool |- _ => destruct s
         end;
  cbn [rank SpecFloat.SFltb SpecFloat.SFleb SpecFloat.SFcompare CompOpp];
  repeat match goal with
         | |- context [PosDef.Pos.compare_cont Eq ?m ?n] =>
             change (PosDef.Pos.compare_cont Eq m n) with (Pos.compare m n);
             destruct (Pos.compare_spec m n)
         | |- context [Z.compare ?m ?n] => destruct (Z.compare_spec m n)
         end;
  cbn [CompOpp].

Lemma SFltb_rank a b :
  SpecFloat.SFltb a b = true <->
  exists ra rb, rank a = Some ra /\ rank b = Some rb /\ rank_lt ra rb.
Proof.
  destruct a as [sa|sa| |sa ma ea], b as [sb|sb| |sb mb eb]; rank_cases;
    (split;
     [ intro Hb0;
       first [ discriminate Hb0
             | eexists; eexists;
               split; [reflexivity|split; [reflexivity|cbn; lia]] ]
     | intros (ra & rb & Ha & Hb & Hr);
       first [ discriminate Ha | discriminate Hb
             | injection Ha as <-; injection Hb as <-; cbn in Hr;
               first [ reflexivity | exfalso; lia ] ] ]).
Qed.

Lemma SFleb_rank a b :
  SpecFloat.SFleb a b = true <->
  exists ra rb,
    rank a = Some ra /\ rank b = Some rb /\ (rank_lt ra rb \/ ra = rb).
Proof.
  destruct a as [sa|sa| |sa ma ea], b as [sb|sb| |sb mb eb]; rank_cases;
    (split;
     [ intro Hb0;
       first [ discriminate Hb0
             | eexists; eexists;
               split; [reflexivity|split; [reflexivity|]];
               first [ right; subst; reflexivity | left; cbn; lia ] ]
     | intros (ra & rb & Ha & Hb & Hr);
       first [ discriminate Ha | discriminate Hb
             | injection Ha as <-; injection Hb as <-;
               first [ reflexivity
                     | exfalso; destruct Hr as [Hr|Hr];
                       [cbn in Hr; lia|injection Hr; intros; lia] ] ] ]).
Qed.

Lemma ltb_rank (a b : double) :
  (a <? b)%float = true <->
  exists ra rb,
    rank (FloatOps.Prim2SF a) = Some ra /\ rank (FloatOps.Prim2SF b) = Some rb
    /\ rank_lt ra rb.
Proof. rewrite FloatAxioms.ltb_spec. apply SFltb_rank. Qed.

Lemma leb_rank (a b : double) :
  (a <=? b)%float = true <->
  exists ra rb,
    rank (FloatOps.Prim2SF a) = Some ra /\ rank (FloatOps.Prim2SF b) = Some rb
    /\ (rank_lt ra rb \/ ra = rb).
Proof. rewrite FloatAxioms.leb_spec. apply SFleb_rank. Qed.

Lemma rank_lt_irrefl r : ~ rank_lt r r.
Proof. destruct r as [[r1 r2] r3]. cbn. lia. Qed.

Lemma rank_lt_trans a b c : rank_lt a b -> rank_lt b c -> rank_lt a c.
Proof.
  destruct a as [[a1 a2] a3], b as [[b1 b2] b3], c as [[c1 c2] c3]. cbn. lia.
Qed.

(** [x < x] is false. *)
Lemma ltb_irrefl (x : double) : (x <? x)%float = false.
Proof.
  destruct (x <? x)%float eqn:E; [|reflexivity].
  apply ltb_rank in E. destruct E as (ra & rb & Ha & Hb & H).
  rewrite Ha in Hb. injection Hb as <-.
  exfalso. exact (rank_lt_irrefl _ H).
Qed.

(** When [a <= b] is false, so is [a < b]. *)
Lemma leb_false_ltb_false (a b : double) :
  (a <=? b)%float = false -> (a <? b)%float = false.
Proof.
  intro H. destruct (a <? b)%float eqn:E; [|reflexivity].
  apply ltb_rank in E. destruct E as (ra & rb & Ha & Hb & Hr).
  assert (L : (a <=? b)%float = true).
  { apply leb_rank. exists ra, rb. auto. }
  congruence.
Qed.

(** The step that replaces the candidate: whatever was not below the old
    candidate [b] is not below or equal to the new one [x < b]. *)
Lemma ltb_replaced (k b x : double) :
  (k <? b)%float = false -> (x <? b)%float = true -> (k <=? x)%float = false.
Proof.
  intros Hk Hx. destruct (k <=? x)%float eqn:E; [|reflexivity].
  apply leb_rank in E. destruct E as (rk & rx & Hrk & Hrx & Hle).
  apply ltb_rank in Hx. destruct Hx as (rx' & rb & Hrx' & Hrb & Hlt).
  rewrite Hrx in Hrx'. injection Hrx' as <-.
  assert (L : (k <? b)%float = true).
  { apply ltb_rank. exists rk, rb. split; [exact Hrk|]. split; [exact Hrb|].
    destruct Hle as [Hle| ->]; [eapply rank_lt_trans; eauto|exact Hlt]. }
  congruence.
Qed.

Section Min.
Context {A : Type} (key : A -> result double).

(** The loop of [min] keeps, as candidate, the first element whose key is
    smallest among those seen. *)
Lemma min_loop_first rest :
  forall pre best post best_key,
    key best = Ok best_key ->
    (forall k dk, In k (pre ++ best :: post) -> key k = Ok dk ->
       (dk <? best_key)%float = false) ->
    (forall k dk, In k pre -> key k = Ok dk -> (dk <=? best_key)%float = false) ->
    (forall k, In k rest -> exists dk, key k = Ok dk) ->
    exists pre' m post' m_key,
      min_loop key best best_key rest = Ok m
      /\ pre ++ best :: post ++ rest = pre' ++ m :: post'
      /\ key m = Ok m_key
      /\ (forall k dk, In k (pre' ++ m :: post') -> key k = Ok dk ->
            (dk <? m_key)%float = false)
      /\ (forall k dk, In k pre' -> key k = Ok dk ->
            (dk <=? m_key)%float = false).
Proof.
  induction rest as [|x rest IH]; intros pre best post best_key Hb Hall Hpre Hok.
  - exists pre, best, post, best_key. rewrite app_nil_r. cbn. auto.
  - destruct (Hok x (or_introl eq_refl)) as (dx & Hx).
    cbn [min_loop]. rewrite Hx.
    assert (Hok' : forall k, In k rest -> exists dk, key k = Ok dk).
    { intros k Hk. apply Hok. right. exact Hk. }
    destruct (dx <? best_key)%float eqn:E.
    + destruct (IH (pre ++ best :: post) x [] dx Hx) as
        (pre' & m & post' & m_key & Hm & Heq & Hkm & Hall' & Hpre'); auto.
      * intros k dk Hin Hk.
        apply in_app_or in Hin. destruct Hin as [Hin|[<-|[]]].
        -- apply leb_false_ltb_false.
           eapply ltb_replaced; [exact (Hall k dk Hin Hk)|exact E].
        -- rewrite Hx in Hk. injection Hk as <-. apply ltb_irrefl.
      * intros k dk Hin Hk.
        eapply ltb_replaced; [exact (Hall k dk Hin Hk)|exact E].
      * exists pre', m, post', m_key. split; [exact Hm|].
        split; [|auto].
        rewrite <- Heq. rewrite <- !app_assoc. cbn. reflexivity.
    + destruct (IH pre best (post ++ [x]) best_key Hb) as
        (pre' & m & post' & m_key & Hm & Heq & Hkm & Hall' & Hpre'); auto.
      * intros k dk Hin Hk.
        rewrite app_comm_cons, app_assoc in Hin.
        apply in_app_or in Hin. destruct Hin as [Hin|[<-|[]]].
        -- exact (Hall k dk Hin Hk).
        -- rewrite Hx in Hk. injection Hk as <-. exact E.
      * exists pre', m, post', m_key. split; [exact Hm|].
        split; [|auto].
        rewrite <- Heq. rewrite <- !app_assoc. cbn. reflexivity.
Qed.

Lemma py_min_first l :
  l <> [] ->
  (forall k, In k l -> exists dk, key k = Ok dk) ->
  exists pre m post m_key,
    py_min key l = Ok m
    /\ l = pre ++ m :: post
    /\ key m = Ok m_key
    /\ (forall k dk, In k l -> key k = Ok dk -> (dk <? m_key)%float = false)
    /\ (forall k dk, In k pre -> key k = Ok dk -> (dk <=? m_key)%float = false).
Proof.
  intros Hne Hok. destruct l as [|x rest]; [congruence|].
  destruct (Hok x (or_introl eq_refl)) as (dx & Hx).
  cbn [py_min]. rewrite Hx.
  destruct (min_loop_first rest [] x [] dx Hx) as
    (pre' & m & post' & m_key & Hm & Heq & Hkm & Hall' & Hpre').
  - intros k dk [<-|[]] Hk. rewrite Hx in Hk. injection Hk as <-.
    apply ltb_irrefl.
  - intros k dk [].
  - intros k Hk. apply Hok. right. exact Hk.
  - cbn in Heq. exists pre', m, post', m_key.
    split; [exact Hm|]. split; [exact Heq|]. split; [exact Hkm|].
    split; [|exact Hpre'].
    intros k dk Hin Hk. apply (Hall' k dk); [|exact Hk].
    rewrite <- Heq. exact Hin.
Qed.

(** An exception of the key function ends [min] with that exception. *)
Lemma min_loop_raise pre :
  forall best best_key k post e,
    (forall x, In x pre -> exists dx, key x = Ok dx) ->
    key k = Raise e ->
    min_loop key best best_key (pre ++ k :: post) = Raise e.
Proof.
  induction pre as [|x pre IH]; intros best best_key k post e Hok Hk.
  - cbn. rewrite Hk. reflexivity.
  - destruct (Hok x (or_introl eq_refl)) as (dx & Hx).
    cbn. rewrite Hx.
    destruct (dx <? best_key)%float; apply IH; auto;
      intros y Hy; apply Hok; right; exact Hy.
Qed.

Lemma py_min_raise pre k post e :
  (forall x, In x pre -> exists dx, key x = Ok dx) ->
  key k = Raise e ->
  py_min key (pre ++ k :: post) = Raise e.
Proof.
  intros Hok Hk. destruct pre as [|x pre].
  - cbn. rewrite Hk. reflexivity.
  - destruct (Hok x (or_introl eq_refl)) as (dx & Hx).
    cbn. rewrite Hx. apply min_loop_raise; auto.
    intros y Hy. apply Hok. right. exact Hy.
Qed.
End Min.

Section Resolution.
Variable float : string -> result double.

Lemma accepted_distance value k :
  accepted float k = true -> exists dk, distance float value k = Ok dk.
Proof.
  unfold accepted, distance. destruct (float k); [eauto|discriminate].
Qed.

Lemma rejected_distance value k e :
  float k = Raise e -> distance float value k = Raise e.
Proof. unfold distance. intros ->. reflexivity. Qed.

Lemma accepted_all value keys :
  forallb (accepted float) keys = true ->
  forall k, In k keys -> exists dk, distance float value k = Ok dk.
Proof.
  intros H k Hk. apply accepted_distance.
  rewrite forallb_forall in H. exact (H k Hk).
Qed.

(** Some key is not accepted: there is a first one. *)
Lemma first_rejected keys :
  forallb (accepted float) keys = false ->
  exists pre k post e,
    keys = pre ++ k :: post
    /\ forallb (accepted float) pre = true
    /\ float k = Raise e.
Proof.
  induction keys as [|x keys IH]; [discriminate|].
  cbn [forallb]. destruct (accepted float x) eqn:E.
  - cbn. intro H. destruct (IH H) as (pre & k & post & e & -> & Hpre & Hk).
    exists (x :: pre), k, post, e. cbn. rewrite E. auto.
  - intros _. unfold accepted in E. destruct (float x) as [f|e] eqn:Ex;
      [discriminate|].
    exists [], x, keys, e. auto.
Qed.

(** On a non-empty list of accepted keys the resolution returns the first key
    of least computed distance. *)
Lemma closest_ratio_first_nearest keys value :
  keys <> [] ->
  forallb (accepted float) keys = true ->
  exists key,
    closest_ratio float keys value = Ok key
    /\ first_nearest float value keys key.
Proof.
  intros Hne Hall.
  destruct (py_min_first (distance float value) keys Hne
              (accepted_all value keys Hall))
    as (pre & m & post & d & Hm & Heq & Hd & Hlt & Hle).
  exists m. split; [exact Hm|].
  exists pre, post, d. auto.
Qed.

(** The first key [float] rejects ends the resolution with its exception. *)
Lemma closest_ratio_raise pre k post e value :
  forallb (accepted float) pre = true ->
  float k = Raise e ->
  closest_ratio float (pre ++ k :: post) value = Raise e.
Proof.
  intros Hpre Hk. unfold closest_ratio. apply py_min_raise.
  - apply accepted_all. exact Hpre.
  - apply rejected_distance. exact Hk.
Qed.

Lemma first_nearest_In value keys key :
  first_nearest float value keys key -> In key keys.
Proof.
  intros (pre & post & d & -> & _). apply in_or_app. right. left. reflexivity.
Qed.

Lemma first_nearest_accepted value keys key :
  first_nearest float value keys key -> exists f, float key = Ok f.
Proof.
  intros (pre & post & d & _ & Hd & _). unfold distance in Hd.
  destruct (float key); [eauto|discriminate].
Qed.
End Resolution.

End DoublesFacts.

(** ** The nearest-key resolver *)

#[local] Open Scope string_scope.

(** C1, the statement refuted. The distances are computed in double precision.
    With the keys "0.25" and "4.0", in that order, and the value 1e17, both
    computed distances round to 1e17, so the resolver returns "0.25"; yet 4 is
    the nearer number: [|4 - 1e17| < |1/4 - 1e17|]. *)
Lemma C1_nearer_key_not_returned_counterexample :
  Doubles.closest_ratio
    (Doubles.float_on [("0.25", 0.25%float); ("4.0", 4%float)])
    ["0.25"; "4.0"] 1e17%float = Ok "0.25"
  /\ Doubles.distance
       (Doubles.float_on [("0.25", 0.25%float); ("4.0", 4%float)])
       1e17%float "0.25" = Ok 1e17%float
  /\ Doubles.distance
       (Doubles.float_on [("0.25", 0.25%float); ("4.0", 4%float)])
       1e17%float "4.0" = Ok 1e17%float
  /\ Doubles.exact 0.25%float = Some (1 # 4)%Q
  /\ Doubles.exact 4%float = Some (4 # 1)%Q
  /\ Doubles.exact 1e17%float = Some (100000000000000000 # 1)%Q
  /\ (Qabs ((4 # 1) - (100000000000000000 # 1))
      < Qabs ((1 # 4) - (100000000000000000 # 1)))%Q.
Proof.
  repeat split; vm_compute; reflexivity.
Qed.

(** C1, amended. For every non-empty table whose keys [float] accepts and
    every value, the resolver returns the first key, in table order, among
    those whose distance [abs(float(key) - value)], as computed in double
    precision, is smallest: no key has a smaller computed distance and no key
    listed before it has a smaller or an equal one; [get_closest_ratio] returns
    that key's dimensions and its float. On an empty table the resolver raises
    ValueError. With keys "0.5", "1.0", "2.0" the value 0.75, whose computed
    distances to 0.5 and to 1.0 are both 0.25, resolves to "0.5"; with "1.0"
    listed first it resolves to "1.0". Being a function of the table, the value
    and [float], the result depends on nothing else. *)
Theorem C1_first_key_of_least_computed_distance :
  (forall (V : Type) (float : string -> result Doubles.double)
          (table : list (string * V)) (value : Doubles.double),
      table <> [] ->
      forallb (Doubles.accepted float) (dict_keys table) = true ->
      exists key,
        Doubles.closest_ratio float (dict_keys table) value = Ok key
        /\ Doubles.first_nearest float value (dict_keys table) key
        /\ (forall height width,
              (width =? 0)%float = false -> value = (height / width)%float ->
              exists dims f,
                In (key, dims) table
                /\ float key = Ok f
                /\ Doubles.get_closest_ratio float height width table
                   = Ok (dims, f)))
  /\ (forall float value, Doubles.closest_ratio float [] value = Raise ValueError)
  /\ (forall float : string -> result Doubles.double,
        float "0.5" = Ok 0.5%float -> float "1.0" = Ok 1%float ->
        float "2.0" = Ok 2%float ->
        Doubles.distance float 0.75%float "0.5" = Ok 0.25%float
        /\ Doubles.distance float 0.75%float "1.0" = Ok 0.25%float
        /\ Doubles.closest_ratio float ["0.5"; "1.0"; "2.0"] 0.75%float = Ok "0.5"
        /\ Doubles.closest_ratio float ["1.0"; "0.5"; "2.0"] 0.75%float
           = Ok "1.0").
Proof.
  split; [|split].
  - intros V float table value Hne Hall.
    destruct (DoublesFacts.closest_ratio_first_nearest float (dict_keys table)
                value) as (key & Hkey & Hfirst); auto.
    { destruct table; [congruence|discriminate]. }
    exists key. split; [exact Hkey|]. split; [exact Hfirst|].
    intros height width Hw ->.
    destruct (dict_get_In_keys String.eqb String.eqb_eq key table
                (DoublesFacts.first_nearest_In _ _ _ _ Hfirst)) as (dims & Hd).
    destruct (DoublesFacts.first_nearest_accepted _ _ _ _ Hfirst) as (f & Hf).
    exists dims, f. split; [|split; [exact Hf|]].
    + eapply dict_get_In; [exact String.eqb_eq|exact Hd].
    + unfold Doubles.get_closest_ratio. rewrite Hw, Hkey, Hd, Hf. reflexivity.
  - reflexivity.
  - intros float H1 H2 H3.
    unfold Doubles.closest_ratio, Doubles.py_min, Doubles.min_loop,
      Doubles.distance.
    rewrite H1, H2, H3. repeat split; vm_compute; reflexivity.
Qed.

Lemma C1_first_key_of_least_computed_distance_witness :
  exists key,
    Doubles.closest_ratio Doubles.float_512 (dict_keys ASPECT_RATIO_512)
      0.75%float = Ok key
    /\ Doubles.first_nearest Doubles.float_512 0.75%float
         (dict_keys ASPECT_RATIO_512) key
    /\ (forall height width,
          (width =? 0)%float = false -> 0.75%float = (height / width)%float ->
          exists dims f,
            In (key, dims) ASPECT_RATIO_512
            /\ Doubles.float_512 key = Ok f
            /\ Doubles.get_closest_ratio Doubles.float_512 height width
                 ASPECT_RATIO_512 = Ok (dims, f)).
Proof.
  apply (proj1 C1_first_key_of_least_computed_distance (list pyfloat)
           Doubles.float_512 ASPECT_RATIO_512 0.75%float).
  - discriminate.
  - vm_compute. reflexivity.
Defined.

#[local] Close Scope string_scope.

(** ** [AspectRatioBatchSampler]: the invariant of the first loop *)

Module BasicFacts.
Import AspectRatioBatchSampler BasicPreds.

Lemma values_split {K : Type} (d1 d2 : list (K * list nat)) (k : K) (v : list nat) :
  concat (dict_values (d1 ++ (k, v) :: d2))
  = concat (dict_values d1) ++ v ++ concat (dict_values d2).
Proof.
  unfold dict_values. rewrite map_app, concat_app. reflexivity.
Qed.

Lemma key_of_entry {K V : Type} (k : K) (v : V) (d : list (K * V)) :
  In (k, v) d -> In k (dict_keys d).
Proof.
  intro H. change k with (fst (k, v)). apply in_map. exact H.
Qed.

Section Facts.
Variable float : string -> pyfloat.

Lemma closest_config (s s' : t) (i : nat) :
  same_config s s' -> closest float s' i = closest float s i.
Proof.
  intros (_ & Hr & _ & Ha & _). unfold closest. rewrite Hr, Ha. reflexivity.
Qed.

Lemma same_config_refl (s : t) : same_config s s.
Proof. repeat split. Qed.

Lemma same_config_trans (s1 s2 s3 : t) :
  same_config s1 s2 -> same_config s2 s3 -> same_config s1 s3.
Proof.
  intros (A1 & A2 & A3 & A4 & A5 & A6) (B1 & B2 & B3 & B4 & B5 & B6).
  repeat split; congruence.
Qed.

Lemma same_config_buckets (s : t) (b : list (string * list nat)) :
  same_config s (with_buckets s b).
Proof. repeat split. Qed.

(** The two ways an iteration of the first loop goes on an instance that
    satisfies the invariant. *)
Lemma step_cases (self : t) (idx : nat) :
  Inv float self ->
  (aspect_ratios self = []
   /\ step float self idx = mkStep None self (Some ValueError))
  \/ exists k b0,
       closest float self idx = Ok k
       /\ dict_get String.eqb k (_aspect_ratio_buckets self) = Some b0
       /\ step float self idx =
          if S (length b0) =? batch_size self
          then mkStep (Some (b0 ++ [idx]))
                 (with_buckets self
                    (dict_set String.eqb k [] (_aspect_ratio_buckets self)))
                 None
          else mkStep None
                 (with_buckets self
                    (dict_set String.eqb k (b0 ++ [idx])
                       (_aspect_ratio_buckets self)))
                 None.
Proof.
  intro HI. unfold step, closest.
  destruct (aspect_ratios self) as [|e table] eqn:Et.
  - left. split; reflexivity.
  - right.
    destruct (py_min_first_min
                (fun r => Qcabs (float r - ratios self idx))
                (dict_keys (e :: table))) as (k & Hk & Hf);
      [discriminate|].
    pose proof (first_min_In _ _ _ Hf) as Hin.
    unfold closest_ratio. rewrite Hk.
    assert (Hc : contains String.eqb k (current_available_bucket_keys self) = true).
    { apply (contains_In String.eqb String.eqb_eq).
      rewrite (inv_avail _ _ HI), Et. exact Hin. }
    rewrite Hc. simpl negb. cbv iota.
    destruct (dict_get_In_keys String.eqb String.eqb_eq k
                (_aspect_ratio_buckets self)) as (b0 & Hb0).
    { apply (inv_keys _ _ HI). rewrite Et. exact Hin. }
    exists k, b0. rewrite Hb0. repeat split.
    rewrite length_app. simpl. rewrite Nat.add_1_r. reflexivity.
Qed.

Lemma step_inv (self : t) (idx : nat) :
  Inv float self ->
  Inv float (next (step float self idx))
  /\ same_config self (next (step float self idx)).
Proof.
  intro HI. destruct (step_cases self idx HI) as [[_ ->]|(k & b0 & Hc & Hg & ->)].
  - split; [exact HI|apply same_config_refl].
  - pose proof (dict_get_In String.eqb String.eqb_eq _ _ _ Hg) as Hin.
    pose proof (key_of_entry _ _ _ Hin) as Hkey.
    pose proof (inv_short _ _ HI _ _ Hin) as Hlen.
    destruct (S (length b0) =? batch_size self) eqn:E; simpl;
      (split; [|apply same_config_buckets]);
      constructor; simpl;
      try rewrite (dict_set_keys String.eqb String.eqb_eq) by exact Hkey;
      try apply HI.
    + intros k' b' H. apply (dict_set_In String.eqb String.eqb_eq) in H.
      destruct H as [[_ ->]|H]; [simpl; apply HI|eapply inv_short; eauto].
    + intros k' b' i H Hi. apply (dict_set_In String.eqb String.eqb_eq) in H.
      destruct H as [[_ ->]|H]; [destruct Hi|].
      exact (inv_same _ _ HI _ _ _ H Hi).
    + intros k' b' H. apply (dict_set_In String.eqb String.eqb_eq) in H.
      destruct H as [[_ ->]|H]; [|eapply inv_short; eauto].
      rewrite length_app. simpl. apply Nat.eqb_neq in E. lia.
    + intros k' b' i H Hi. apply (dict_set_In String.eqb String.eqb_eq) in H.
      destruct H as [[-> ->]|H]; [|exact (inv_same _ _ HI _ _ _ H Hi)].
      apply in_app_or in Hi. destruct Hi as [Hi|[<-|[]]].
      * exact (inv_same _ _ HI _ _ _ Hin Hi).
      * exact Hc.
Qed.

(** What an iteration yields and what it leaves in the buckets is what the
    buckets held before, and the index. *)
Lemma step_perm (self : t) (idx : nat) :
  Inv float self ->
  err (step float self idx) = None ->
  Permutation
    (concat (yielded (out (step float self idx)))
     ++ concat (dict_values (_aspect_ratio_buckets (next (step float self idx)))))
    (concat (dict_values (_aspect_ratio_buckets self)) ++ [idx]).
Proof.
  intros HI. destruct (step_cases self idx HI) as [[_ ->]|(k & b0 & Hc & Hg & ->)].
  - discriminate.
  - intros _.
    destruct (dict_get_split String.eqb String.eqb_eq _ _ _ Hg)
      as (d1 & d2 & Hd & _ & Hset).
    destruct (S (length b0) =? batch_size self); simpl;
      rewrite Hset, Hd, !values_split; simpl.
    + rewrite app_nil_r, <- !app_assoc.
      etransitivity; [|apply Permutation_app_swap_app].
      apply Permutation_app_head.
      rewrite (app_assoc (concat (dict_values d1)) (concat (dict_values d2)) [idx]).
      apply Permutation_app_comm.
    + rewrite <- !app_assoc. apply Permutation_app_head.
      apply Permutation_app_head. simpl. apply Permutation_cons_append.
Qed.

Lemma step_full (self : t) (idx : nat) (b : list nat) :
  Inv float self ->
  out (step float self idx) = Some b ->
  length b = batch_size self
  /\ exists k, forall i, In i b -> closest float self i = Ok k.
Proof.
  intros HI. destruct (step_cases self idx HI) as [[_ ->]|(k & b0 & Hc & Hg & ->)].
  - discriminate.
  - destruct (S (length b0) =? batch_size self) eqn:E; simpl; [|discriminate].
    intro H. injection H as <-. split.
    + rewrite length_app. simpl. apply Nat.eqb_eq in E. lia.
    + exists k. intros i Hi. apply in_app_or in Hi.
      destruct Hi as [Hi|[<-|[]]]; [|exact Hc].
      eapply inv_same; eauto.
      eapply dict_get_In; [exact String.eqb_eq|exact Hg].
Qed.

Lemma step_err (self : t) (idx : nat) :
  Inv float self -> aspect_ratios self <> [] -> err (step float self idx) = None.
Proof.
  intros HI Hne. destruct (step_cases self idx HI) as [[E _]|(k & b0 & _ & _ & ->)].
  - contradiction.
  - destruct (S (length b0) =? batch_size self); reflexivity.
Qed.

Lemma streaming_spec (idxs : list nat) :
  forall self,
    Inv float self ->
    let r := streaming float self idxs in
    Inv float (final r)
    /\ same_config self (final r)
    /\ (forall b, In b (emitted r) ->
          length b = batch_size self
          /\ exists k, forall i, In i b -> closest float self i = Ok k)
    /\ (aspect_ratios self <> [] -> stopped r = Finished)
    /\ (stopped r = Finished ->
        Permutation
          (concat (emitted r)
           ++ concat (dict_values (_aspect_ratio_buckets (final r))))
          (concat (dict_values (_aspect_ratio_buckets self)) ++ idxs)).
Proof.
  induction idxs as [|idx rest IH]; intros self HI; simpl.
  - split; [exact HI|]. split; [apply same_config_refl|].
    split; [intros b []|]. split; [reflexivity|].
    intros _. rewrite app_nil_r. apply Permutation_refl.
  - destruct (step_inv self idx HI) as (HI' & Hcfg).
    pose proof (step_full self idx) as Hfull.
    pose proof (step_perm self idx HI) as Hperm.
    pose proof (step_err self idx HI) as Herr.
    destruct (step float self idx) as [o s' e]; simpl in *.
    destruct e as [e|]; simpl.
    + split; [exact HI'|]. split; [exact Hcfg|]. split.
      * intros b Hb. destruct o as [b'|]; [|destruct Hb].
        destruct Hb as [<-|[]]. apply Hfull; auto.
      * split; [|discriminate]. intro Hne. specialize (Herr Hne). discriminate.
    + destruct (IH s' HI') as (I1 & I2 & I3 & I4 & I5).
      split; [exact I1|]. split; [eapply same_config_trans; eauto|]. split.
      * intros b Hb. apply in_app_or in Hb. destruct Hb as [Hb|Hb].
        -- destruct o as [b'|]; [|destruct Hb].
           destruct Hb as [<-|[]]. apply Hfull; auto.
        -- destruct (I3 b Hb) as (L & k & Hk).
           pose proof Hcfg as C.
           destruct Hcfg as (_ & _ & Hbs & _). split; [congruence|].
           exists k. intros i Hi. rewrite <- (Hk i Hi). symmetry.
           apply closest_config. exact C.
      * split.
        -- intro Hne. apply I4. destruct Hcfg as (_ & _ & _ & Ha & _).
           congruence.
        -- intro Hfin. rewrite concat_app, <- app_assoc.
           rewrite (I5 Hfin), app_assoc.
           rewrite (Hperm eq_refl), <- app_assoc. reflexivity.
Qed.
End Facts.
End BasicFacts.

(** ** [AspectRatioBatchSampler]: the drain, the constructor and whole passes *)

Module BasicPass.
Import AspectRatioBatchSampler BasicPreds BasicFacts.

Lemma drain_bucket_short (fuel bs : nat) (dl : bool) (b : list nat) :
  length b < bs ->
  drain_bucket (S fuel) bs dl b
  = (if (0 <? length b) && negb dl then [b] else [], true).
Proof.
  intro H. simpl. destruct (0 <? length b) eqn:E; simpl; [|reflexivity].
  assert (L : (length b <=? bs) = true) by (apply Nat.leb_le; lia).
  rewrite L. destruct dl; reflexivity.
Qed.

Lemma spec_drain_bucket_short (fuel bs : nat) (dl : bool) (b : list nat) :
  length b < bs ->
  spec_drain_bucket (S fuel) bs dl b
  = if (0 <? length b) && negb dl then [b] else [].
Proof.
  intro H. simpl.
  assert (L : (bs <=? length b) = false) by (apply Nat.leb_gt; lia).
  rewrite L. reflexivity.
Qed.

Lemma drain_short (bs : nat) (dl : bool) (buckets : list (list nat)) :
  (forall b, In b buckets -> length b < bs) ->
  drain bs dl buckets = (spec_drain bs dl buckets, true).
Proof.
  induction buckets as [|b rest IH]; intro H; [reflexivity|].
  cbn [drain]. rewrite drain_bucket_short by (apply H; left; reflexivity).
  rewrite IH by (intros b' Hb'; apply H; right; exact Hb').
  unfold spec_drain. cbn [flat_map].
  rewrite spec_drain_bucket_short by (apply H; left; reflexivity).
  reflexivity.
Qed.

Lemma spec_drain_short_In (bs : nat) (dl : bool) (buckets : list (list nat)) :
  (forall b, In b buckets -> length b < bs) ->
  forall b, In b (spec_drain bs dl buckets)
            <-> In b buckets /\ 0 < length b /\ dl = false.
Proof.
  intros H b. unfold spec_drain. rewrite in_flat_map. split.
  - intros (b' & Hb' & Hin).
    rewrite spec_drain_bucket_short in Hin by auto.
    destruct (0 <? length b') eqn:E; destruct dl; simpl in Hin;
      try contradiction.
    destruct Hin as [<-|[]]. apply Nat.ltb_lt in E. auto.
  - intros (Hin & Hlen & ->). exists b. split; [exact Hin|].
    rewrite spec_drain_bucket_short by auto.
    apply Nat.ltb_lt in Hlen. rewrite Hlen. left. reflexivity.
Qed.

Lemma spec_drain_short_concat (bs : nat) (buckets : list (list nat)) :
  (forall b, In b buckets -> length b < bs) ->
  concat (spec_drain bs false buckets) = concat buckets.
Proof.
  induction buckets as [|b rest IH]; intro H; [reflexivity|].
  unfold spec_drain in *. cbn [flat_map concat].
  rewrite concat_app, IH by (intros b' Hb'; apply H; right; exact Hb').
  rewrite spec_drain_bucket_short by (apply H; left; reflexivity).
  destruct b; simpl; [reflexivity|]. rewrite app_nil_r. reflexivity.
Qed.

Lemma spec_drain_short_dropped (bs : nat) (buckets : list (list nat)) :
  (forall b, In b buckets -> length b < bs) ->
  spec_drain bs true buckets = [].
Proof.
  induction buckets as [|b rest IH]; intro H; [reflexivity|].
  unfold spec_drain in *. cbn [flat_map].
  rewrite IH by (intros b' Hb'; apply H; right; exact Hb').
  rewrite spec_drain_bucket_short by (apply H; left; reflexivity).
  rewrite andb_false_r. reflexivity.
Qed.

Lemma spec_drain_short_length (bs : nat) (dl : bool) (buckets : list (list nat)) :
  (forall b, In b buckets -> length b < bs) ->
  length (spec_drain bs dl buckets) <= length buckets.
Proof.
  induction buckets as [|b rest IH]; intro H; [apply Nat.le_refl|].
  unfold spec_drain in *. cbn [flat_map].
  rewrite length_app, spec_drain_bucket_short by (apply H; left; reflexivity).
  assert (length (flat_map
             (fun bucket => spec_drain_bucket (S (length bucket)) bs dl bucket)
             rest) <= length rest)
    by (apply IH; intros b' Hb'; apply H; right; exact Hb').
  cbn [length] in *.
  destruct ((0 <? length b) && negb dl); cbn [length]; lia.
Qed.

Lemma In_values {K V : Type} (v : V) (d : list (K * V)) :
  In v (dict_values d) <-> exists k, In (k, v) d.
Proof.
  unfold dict_values. rewrite in_map_iff. split.
  - intros ([k v'] & <- & H). exists k. exact H.
  - intros (k & H). exists (k, v). auto.
Qed.

Section Pass.
Variable float : string -> pyfloat.

Lemma init_inv (smp : list nat) (rat : nat -> pyfloat) (bs : Z)
    (table : list (string * list pyfloat)) (dl : bool) (s : t) :
  __init__ smp rat bs table dl = Ok s ->
  Inv float s
  /\ s = mk smp rat (Z.to_nat bs) table dl
           (dict_fromkeys String.eqb (dict_keys table) []) (dict_keys table)
  /\ (0 < bs)%Z
  /\ (forall k b, In (k, b) (_aspect_ratio_buckets s) -> b = [])
  /\ (NoDup (dict_keys table) ->
      dict_keys (_aspect_ratio_buckets s) = dict_keys table).
Proof.
  unfold __init__. destruct (bs <=? 0)%Z eqn:E; [discriminate|].
  intro H. injection H as <-. apply Z.leb_gt in E.
  destruct (dict_fromkeys_spec String.eqb String.eqb_eq
              ([] : list nat) (dict_keys table)) as (F1 & F2 & F3 & F4).
  split; [|split; [reflexivity|split; [exact E|split; [exact F1|exact F4]]]].
  constructor; simpl.
  - lia.
  - exact F3.
  - intros k Hk. apply F2. exact Hk.
  - reflexivity.
  - intros k b Hb. rewrite (F1 _ _ Hb). simpl. lia.
  - intros k b i Hb Hi. rewrite (F1 _ _ Hb) in Hi. destruct Hi.
Qed.

Lemma iter_final (s : t) :
  final (__iter__ float s) = final (streaming float s (sampler s)).
Proof.
  unfold __iter__. destruct (stopped (streaming float s (sampler s)));
    try reflexivity.
  destruct (drain _ _ _). reflexivity.
Qed.

Lemma values_short (s : t) :
  Inv float s ->
  forall b, In b (dict_values (_aspect_ratio_buckets s)) ->
            length b < batch_size s.
Proof.
  intros HI b Hb. apply In_values in Hb. destruct Hb as (k & Hk).
  eapply inv_short; eauto.
Qed.

(** On an instance that satisfies the invariant, a pass whose first loop
    ends normally ends normally, and its drain is the one of the
    specification. *)
Lemma iter_eq (s : t) :
  Inv float s ->
  let r := streaming float s (sampler s) in
  stopped r = Finished ->
  __iter__ float s
  = mkRun (emitted r
           ++ spec_drain (batch_size s) (drop_last s)
                (dict_values (_aspect_ratio_buckets (final r))))
          (final r) Finished.
Proof.
  intros HI r Hfin. unfold __iter__. fold r. rewrite Hfin.
  destruct (streaming_spec float (sampler s) s HI)
    as (HI' & (_ & _ & Hbs & _) & _).
  fold r in HI', Hbs.
  rewrite drain_short; [reflexivity|].
  intros b Hb. rewrite <- Hbs. apply values_short; assumption.
Qed.

Lemma iter_not_finished (s : t) :
  stopped (streaming float s (sampler s)) <> Finished ->
  __iter__ float s = streaming float s (sampler s).
Proof.
  intro H. unfold __iter__.
  destruct (stopped (streaming float s (sampler s))); [congruence| |];
    reflexivity.
Qed.

Lemma after_passes_inv (n : nat) :
  forall s, Inv float s ->
            Inv float (after_passes float n s)
            /\ same_config s (after_passes float n s).
Proof.
  induction n as [|n IH]; intros s HI; simpl.
  - split; [exact HI|apply same_config_refl].
  - destruct (streaming_spec float (sampler s) s HI) as (HI' & Hcfg & _).
    rewrite iter_final. destruct (IH _ HI') as (I1 & I2).
    split; [exact I1|eapply same_config_trans; eauto].
Qed.

(** A bucket that holds [L] either comes out as the head of a full batch
    or still starts with [L] when the first loop ends. *)
Lemma streaming_prefix (k : string) (idxs : list nat) :
  forall self L,
    Inv float self ->
    aspect_ratios self <> [] ->
    dict_get String.eqb k (_aspect_ratio_buckets self) = Some L ->
    let r := streaming float self idxs in
    (exists rest, In (L ++ rest) (emitted r))
    \/ (exists rest,
          dict_get String.eqb k (_aspect_ratio_buckets (final r))
          = Some (L ++ rest)).
Proof.
  induction idxs as [|idx rest IH]; intros self L HI Hne HL; simpl.
  - right. exists []. rewrite app_nil_r. exact HL.
  - destruct (step_inv float self idx HI) as (HI' & Hcfg).
    assert (Hne' : aspect_ratios (next (step float self idx)) <> []).
    { destruct Hcfg as (_ & _ & _ & Ha & _). congruence. }
    destruct (step_cases float self idx HI)
      as [[E _]|(k0 & b0 & Hc & Hg & Hstep)]; [contradiction|].
    destruct (String.eqb k k0) eqn:Ek.
    + apply String.eqb_eq in Ek. subst k0.
      assert (b0 = L) by congruence. subst b0.
      destruct (S (length L) =? batch_size self) eqn:Efull.
      * rewrite Hstep. simpl. left. exists [idx]. left. reflexivity.
      * rewrite Hstep in HI', Hne' |- *. simpl in *.
        destruct (IH _ (L ++ [idx]) HI' Hne') as [(r' & Hr')|(r' & Hr')].
        -- simpl. apply (dict_get_set_same String.eqb String.eqb_eq).
        -- left. exists (idx :: r'). rewrite <- app_assoc in Hr'. exact Hr'.
        -- right. exists (idx :: r'). rewrite <- app_assoc in Hr'. exact Hr'.
    + assert (Hk : k <> k0).
      { intro E. subst. rewrite String.eqb_refl in Ek. discriminate. }
      assert (HL' : dict_get String.eqb k
                      (_aspect_ratio_buckets (next (step float self idx)))
                    = Some L).
      { rewrite Hstep. destruct (S (length b0) =? batch_size self); simpl;
          rewrite (dict_get_set_other String.eqb String.eqb_eq) by exact Hk;
          exact HL. }
      assert (He : err (step float self idx) = None).
      { rewrite Hstep. destruct (S (length b0) =? batch_size self);
          reflexivity. }
      rewrite He.
      destruct (IH _ L HI' Hne' HL') as [(r' & Hr')|(r' & Hr')]; simpl.
      * left. exists r'. apply in_or_app. right. exact Hr'.
      * right. exists r'. exact Hr'.
Qed.

Lemma resolves_to_iff (s : t) (k : string) (i : nat) :
  resolves_to float s k i = true <-> closest float s i = Ok k.
Proof.
  unfold resolves_to. destruct (closest float s i) as [k'|e]; split.
  - intro H. apply String.eqb_eq in H. congruence.
  - intro H. injection H as ->. apply String.eqb_refl.
  - discriminate.
  - discriminate.
Qed.

Lemma filter_none {A : Type} (f : A -> bool) (l : list A) :
  (forall x, In x l -> f x = false) -> filter f l = [].
Proof.
  induction l as [|x l IH]; intro H; simpl; [reflexivity|].
  rewrite (H x) by (left; reflexivity). apply IH.
  intros y Hy. apply H. right. exact Hy.
Qed.

(** Among the indices stored in the buckets, those of one key are in one
    bucket. *)
Lemma stored_per_key (s : t) (k : string) (m : nat) (d : list (string * list nat)) :
  NoDup (dict_keys d) ->
  (forall k' b i, In (k', b) d -> In i b -> closest float s i = Ok k') ->
  (forall k' b, In (k', b) d -> length b <= m) ->
  length (filter (resolves_to float s k) (concat (dict_values d))) <= m.
Proof.
  induction d as [|[k' b] d IH]; intros Hnd Hsame Hlen; simpl; [lia|].
  inversion Hnd as [|? ? Hnot Hnd']; subst.
  rewrite filter_app, length_app.
  destruct (String.eqb k' k) eqn:E.
  - apply String.eqb_eq in E. subst k'.
    rewrite (filter_none _ (concat (dict_values d))).
    + simpl. rewrite Nat.add_0_r.
      etransitivity; [apply filter_length_le|].
      apply (Hlen k b). left. reflexivity.
    + intros i Hi. apply in_concat in Hi. destruct Hi as (b' & Hb' & Hi).
      apply In_values in Hb'. destruct Hb' as (k'' & Hk'').
      destruct (resolves_to float s k i) eqn:R; [|reflexivity].
      apply resolves_to_iff in R.
      assert (closest float s i = Ok k'') by (eapply Hsame; [right|]; eauto).
      assert (k'' = k) by congruence. subst k''. exfalso. apply Hnot.
      eapply key_of_entry; eauto.
  - rewrite (filter_none _ b).
    + simpl. apply IH; [exact Hnd'| |].
      * intros k'' b' i H Hi. eapply Hsame; [right|]; eauto.
      * intros k'' b' H. eapply Hlen. right. eauto.
    + intros i Hi. destruct (resolves_to float s k i) eqn:R; [|reflexivity].
      apply resolves_to_iff in R.
      assert (closest float s i = Ok k')
        by (eapply Hsame; [left; reflexivity|exact Hi]).
      assert (k' = k) by congruence. subst. rewrite String.eqb_refl in E.
      discriminate.
Qed.
End Pass.
End BasicPass.

(** ** The drain loop in closed form *)

Module BasicRule.
Import AspectRatioBatchSampler BasicPreds BasicFacts BasicPass.

Lemma drained_nonempty (bs : nat) (dl : bool) (b : list nat) :
  b <> [] ->
  drained bs dl b
  = map (fun i => firstn bs (skipn (i * bs) b)) (seq 0 ((length b - 1) / bs))
    ++ (if dl then [] else [skipn ((length b - 1) / bs * bs) b]).
Proof. destruct b; [congruence|reflexivity]. Qed.

(** A bucket of at most [batch_size] items is emitted whole, or dropped. *)
Lemma drained_short (bs : nat) (dl : bool) (b : list nat) :
  0 < length b <= bs ->
  drained bs dl b = if dl then [] else [b].
Proof.
  intros [Hpos Hle].
  rewrite drained_nonempty by (destruct b; [cbn in Hpos; lia|discriminate]).
  rewrite Nat.div_small by lia. reflexivity.
Qed.

(** From a longer bucket a prefix is emitted and the loop goes on with the
    rest. *)
Lemma drained_long (bs : nat) (dl : bool) (b : list nat) :
  0 < bs < length b ->
  drained bs dl b = firstn bs b :: drained bs dl (skipn bs b).
Proof.
  intros [Hbs Hlt].
  assert (Hlen : length (skipn bs b) = length b - bs) by apply length_skipn.
  rewrite drained_nonempty by (destruct b; [cbn in Hlt; lia|discriminate]).
  rewrite (drained_nonempty bs dl (skipn bs b))
    by (intro E; rewrite E in Hlen; cbn in Hlen; lia).
  rewrite Hlen.
  assert (Hq : (length b - 1) / bs = S ((length b - bs - 1) / bs)).
  { replace (length b - 1) with ((length b - bs - 1) + 1 * bs) by lia.
    rewrite Nat.div_add by lia. lia. }
  rewrite Hq. cbn [seq map]. rewrite Nat.mul_0_l. cbn [skipn app].
  f_equal. f_equal.
  - rewrite <- seq_shift, map_map. apply map_ext. intro i.
    rewrite skipn_skipn. f_equal. f_equal. lia.
  - destruct dl; [reflexivity|]. rewrite skipn_skipn. f_equal. f_equal. lia.
Qed.

(** The [while] loop emits what the closed form says, and ends. *)
Lemma drain_bucket_drained (bs : nat) (dl : bool) :
  0 < bs ->
  forall fuel b,
    length b < fuel -> drain_bucket fuel bs dl b = (drained bs dl b, true).
Proof.
  intros Hbs. induction fuel as [|fuel IH]; intros b Hlen; [lia|].
  cbn [drain_bucket].
  destruct (0 <? length b) eqn:E0.
  - apply Nat.ltb_lt in E0.
    destruct (length b <=? bs) eqn:E1.
    + apply Nat.leb_le in E1. rewrite drained_short by lia.
      destruct dl; reflexivity.
    + apply Nat.leb_gt in E1.
      rewrite IH by (rewrite length_skipn; lia).
      rewrite (drained_long bs dl b) by lia. reflexivity.
  - apply Nat.ltb_ge in E0. destruct b; [reflexivity|cbn in E0; lia].
Qed.

(** The [for] loop over the buckets emits, bucket after bucket, what the
    closed form says. *)
Lemma drain_drained (bs : nat) (dl : bool) (buckets : list (list nat)) :
  0 < bs -> drain bs dl buckets = (flat_map (drained bs dl) buckets, true).
Proof.
  intro Hbs. induction buckets as [|b rest IH]; [reflexivity|].
  cbn [drain flat_map].
  rewrite (drain_bucket_drained bs dl Hbs) by lia.
  rewrite IH. reflexivity.
Qed.

(** Buckets shorter than [batch_size] give one batch each, the non-empty
    ones, or none with [drop_last]. *)
Lemma drained_all_short (bs : nat) (dl : bool) (buckets : list (list nat)) :
  (forall b, In b buckets -> length b < bs) ->
  flat_map (drained bs dl) buckets
  = if dl then [] else filter (fun b => 0 <? length b) buckets.
Proof.
  induction buckets as [|b rest IH]; intro H.
  - destruct dl; reflexivity.
  - cbn [flat_map filter].
    rewrite IH by (intros b' Hb'; apply H; right; exact Hb').
    pose proof (H b (or_introl eq_refl)) as Hb.
    destruct b as [|x b].
    + cbn. reflexivity.
    + rewrite drained_short by (cbn in *; lia).
      destruct dl; reflexivity.
Qed.

(** A pass that exhausts its index source goes on with the drain of the
    buckets it then finds stored. *)
Lemma iter_drained (float : string -> pyfloat) (self : t) :
  0 < batch_size self ->
  stopped (streaming float self (sampler self)) = Finished ->
  __iter__ float self
  = mkRun (emitted (streaming float self (sampler self))
           ++ flat_map (drained (batch_size self) (drop_last self))
                (dict_values
                   (_aspect_ratio_buckets
                      (final (streaming float self (sampler self))))))
          (final (streaming float self (sampler self))) Finished.
Proof.
  intros Hbs Hfin. unfold __iter__. rewrite Hfin.
  rewrite (drain_drained _ _ _ Hbs). reflexivity.
Qed.

(** The first loop keeps the keys of the bucket dictionary, and their order. *)
Lemma streaming_bucket_keys (float : string -> pyfloat) (idxs : list nat) :
  forall u, Inv float u ->
    dict_keys (_aspect_ratio_buckets (final (streaming float u idxs)))
    = dict_keys (_aspect_ratio_buckets u).
Proof.
  induction idxs as [|idx rest IH]; intros u Hu; [reflexivity|].
  simpl. destruct (step_inv float u idx Hu) as (Hu' & _).
  assert (Hk : dict_keys (_aspect_ratio_buckets (next (step float u idx)))
               = dict_keys (_aspect_ratio_buckets u)).
  { destruct (step_cases float u idx Hu)
      as [[_ ->]|(k & b0 & _ & Hg & ->)]; [reflexivity|].
    apply (dict_get_In String.eqb String.eqb_eq) in Hg.
    apply key_of_entry in Hg.
    destruct (S (length b0) =? batch_size u); simpl;
      apply (dict_set_keys String.eqb String.eqb_eq); exact Hg. }
  destruct (err (step float u idx)); simpl; [exact Hk|].
  rewrite IH by exact Hu'. exact Hk.
Qed.

(** So do complete passes. *)
Lemma after_passes_bucket_keys (float : string -> pyfloat) (n : nat) :
  forall s, Inv float s ->
    dict_keys (_aspect_ratio_buckets (after_passes float n s))
    = dict_keys (_aspect_ratio_buckets s).
Proof.
  induction n as [|n IH]; intros s HI; [reflexivity|].
  simpl. rewrite iter_final.
  destruct (streaming_spec float (sampler s) s HI) as (HI' & _).
  rewrite (IH _ HI'). apply streaming_bucket_keys. exact HI.
Qed.

End BasicRule.

(** ** [AspectRatioBatchSampler]: drain order, batch sizes and persistence *)

Import AspectRatioBatchSampler BasicPreds BasicFacts BasicPass.

Lemma fresh5_instance : Scenario.fresh5 = Ok Scenario.instance5.
Proof. vm_compute. reflexivity. Qed.

(** C2, as stated, at the scenario: the pass does not emit [{0,1}], [{2}],
    [{3}], [{4}] in that order. The bucket of "0.5" is the first of the table,
    so its remainder [{4}] is drained before [{2}] and [{3}]. *)
Lemma C2_scenario_order_counterexample :
  Scenario.fresh5 = Ok Scenario.instance5
  /\ emitted (__iter__ decimal Scenario.instance5) <> [[0; 1]; [2]; [3]; [4]]
  /\ emitted (__iter__ decimal Scenario.instance5) = [[0; 1]; [4]; [2]; [3]].
Proof.
  split; [exact fresh5_instance|].
  assert (E : emitted (__iter__ decimal Scenario.instance5)
              = [[0; 1]; [4]; [2]; [3]]) by (vm_compute; reflexivity).
  split; [rewrite E; discriminate|exact E].
Qed.

(** C2, amended. Once the index source of a pass is exhausted, the pass drains
    the buckets it finds stored, in the order of the bucket dictionary, which
    on a constructed instance is the table order. From each non-empty bucket
    it emits a [batch_size] prefix for as long as more than [batch_size]
    items remain, and then the remainder, of 1 to [batch_size] items, if and
    only if [drop_last] is false; a remainder of exactly [batch_size] items is
    thus dropped under [drop_last]. This holds of every instance with a
    positive [batch_size], whatever its buckets hold. On a constructed
    instance, after any number of passes, every stored bucket is shorter than
    [batch_size] at that point, so that the drain emits each non-empty bucket
    as one short batch, or nothing under [drop_last]. In the scenario the
    batches are [{0,1}] while streaming, then at drain [{4}] (key "0.5"),
    [{2}] (key "1.0"), [{3}] (key "2.0"). *)
Theorem C2_drain_in_table_order :
  (forall (float : string -> pyfloat) (self : t),
      0 < batch_size self ->
      let r := streaming float self (sampler self) in
      stopped r = Finished ->
      __iter__ float self
      = mkRun (emitted r
               ++ flat_map (drained (batch_size self) (drop_last self))
                    (dict_values (_aspect_ratio_buckets (final r))))
              (final r) Finished)
  /\ (forall (float : string -> pyfloat) smp rat bs table dl s n,
        __init__ smp rat bs table dl = Ok s ->
        let s' := after_passes float n s in
        let r := streaming float s' (sampler s') in
        0 < batch_size s'
        /\ (NoDup (dict_keys table) ->
            dict_keys (_aspect_ratio_buckets (final r)) = dict_keys table)
        /\ (forall b, In b (dict_values (_aspect_ratio_buckets (final r))) ->
                      length b < batch_size s')
        /\ (stopped r = Finished ->
            emitted (__iter__ float s')
            = emitted r
              ++ (if drop_last s' then []
                  else filter (fun b => 0 <? length b)
                         (dict_values (_aspect_ratio_buckets (final r))))))
  /\ drain_bucket 6 2 false [1; 2; 3; 4; 5] = ([[1; 2]; [3; 4]; [5]], true)
  /\ drain_bucket 6 2 true [1; 2; 3; 4; 5] = ([[1; 2]; [3; 4]], true)
  /\ drain_bucket 5 2 false [1; 2; 3; 4] = ([[1; 2]; [3; 4]], true)
  /\ drain_bucket 5 2 true [1; 2; 3; 4] = ([[1; 2]], true)
  /\ emitted (__iter__ decimal Scenario.instance5) = [[0; 1]; [4]; [2]; [3]]
  /\ map (resolves_to decimal Scenario.instance5 "0.5") [0; 1; 4] = [true; true; true]
  /\ resolves_to decimal Scenario.instance5 "1.0" 2 = true
  /\ resolves_to decimal Scenario.instance5 "2.0" 3 = true.
Proof.
  split; [|split; [|repeat split; vm_compute; reflexivity]].
  - intros float self Hbs r Hfin. apply BasicRule.iter_drained; assumption.
  - intros float smp rat bs table dl s n Hinit s' r.
    destruct (init_inv float _ _ _ _ _ _ Hinit) as (HI & _ & _ & _ & Hkeys).
    destruct (after_passes_inv float n s HI) as (HIn & Hcfg).
    fold s' in HIn, Hcfg.
    destruct (streaming_spec float (sampler s') s' HIn) as (HIf & Hcfg' & _).
    fold r in HIf, Hcfg'.
    assert (Hbs : batch_size (final r) = batch_size s') by apply Hcfg'.
    assert (Hshort : forall b,
               In b (dict_values (_aspect_ratio_buckets (final r))) ->
               length b < batch_size s').
    { intros b Hb. rewrite <- Hbs. apply (values_short float); assumption. }
    split; [exact (inv_bs _ _ HIn)|]. split; [|split; [exact Hshort|]].
    + intro Hnd. rewrite <- (Hkeys Hnd). subst r.
      rewrite (BasicRule.streaming_bucket_keys float _ _ HIn). subst s'.
      apply BasicRule.after_passes_bucket_keys. exact HI.
    + intro Hfin.
      rewrite (BasicRule.iter_drained float s' (inv_bs _ _ HIn) Hfin).
      fold r. cbn [emitted].
      rewrite (BasicRule.drained_all_short _ _ _ Hshort). reflexivity.
Qed.

Lemma C2_drain_in_table_order_witness :
  0 < batch_size Scenario.instance5
  /\ stopped (streaming decimal Scenario.instance5 (sampler Scenario.instance5))
     = Finished
  /\ __iter__ decimal Scenario.instance5
     = mkRun
         (emitted (streaming decimal Scenario.instance5
                     (sampler Scenario.instance5))
          ++ flat_map
               (drained (batch_size Scenario.instance5)
                  (drop_last Scenario.instance5))
               (dict_values
                  (_aspect_ratio_buckets
                     (final (streaming decimal Scenario.instance5
                               (sampler Scenario.instance5))))))
         (final (streaming decimal Scenario.instance5
                   (sampler Scenario.instance5)))
         Finished.
Proof.
  assert (Hbs : 0 < batch_size Scenario.instance5) by (vm_compute; lia).
  assert (Hfin : stopped (streaming decimal Scenario.instance5
                            (sampler Scenario.instance5)) = Finished)
    by (vm_compute; reflexivity).
  split; [exact Hbs|]. split; [exact Hfin|].
  exact (proj1 C2_drain_in_table_order decimal Scenario.instance5 Hbs Hfin).
Defined.

(** C3, as stated, at the scenario: [{4}] is emitted second of four batches
    and holds one index, with [batch_size = 2]. *)
Lemma C3_non_final_short_batch_counterexample :
  Scenario.fresh5 = Ok Scenario.instance5
  /\ exists pre b post,
       emitted (__iter__ decimal Scenario.instance5) = pre ++ b :: post
       /\ post <> []
       /\ length b <> batch_size Scenario.instance5.
Proof.
  split; [exact fresh5_instance|].
  exists [[0; 1]], [4], [[2]; [3]]. split; [vm_compute; reflexivity|].
  split; [discriminate|]. vm_compute. discriminate.
Qed.

(** C3, amended. On a constructed instance, after any number of passes, the
    batches of a pass are those of the first loop, each of exactly
    [batch_size] indices, followed by the drain batches, which are stored
    buckets, at most one per bucket, non-empty and shorter than [batch_size];
    in every batch all indices resolve to the same key. *)
Theorem C3_full_batches_then_short_remainders :
  forall (float : string -> pyfloat) smp rat bs table dl s n,
    __init__ smp rat bs table dl = Ok s ->
    let s' := after_passes float n s in
    let r := streaming float s' (sampler s') in
    exists tail,
      emitted (__iter__ float s') = emitted r ++ tail
      /\ (forall b, In b (emitted r) -> length b = batch_size s')
      /\ (forall b, In b tail ->
            0 < length b < batch_size s'
            /\ In b (dict_values (_aspect_ratio_buckets (final r))))
      /\ length tail <= length (_aspect_ratio_buckets (final r))
      /\ (forall b, In b (emitted (__iter__ float s')) ->
            exists k, forall i, In i b -> closest float s' i = Ok k).
Proof.
  intros float smp rat bs table dl s n Hinit s' r.
  destruct (init_inv float _ _ _ _ _ _ Hinit) as (HI & _).
  destruct (after_passes_inv float n s HI) as (HIn & _). fold s' in HIn.
  destruct (streaming_spec float (sampler s') s' HIn)
    as (HIf & Hcfg & Hfull & _). fold r in HIf, Hcfg, Hfull.
  assert (Hbs : batch_size (final r) = batch_size s') by apply Hcfg.
  assert (Hshort : forall b, In b (dict_values (_aspect_ratio_buckets (final r))) ->
                             length b < batch_size s').
  { intros b Hb. rewrite <- Hbs. apply (values_short float); assumption. }
  destruct (stopped r) eqn:Est.
  - exists (spec_drain (batch_size s') (drop_last s')
              (dict_values (_aspect_ratio_buckets (final r)))).
    rewrite (iter_eq float s' HIn Est). fold r. cbn [emitted].
    split; [reflexivity|]. split; [intros b Hb; apply Hfull; exact Hb|].
    split; [|split].
    + intros b Hb. apply (spec_drain_short_In _ _ _ Hshort) in Hb.
      destruct Hb as (Hin & Hpos & _). auto.
    + etransitivity; [apply spec_drain_short_length; exact Hshort|].
      unfold dict_values. rewrite length_map. apply Nat.le_refl.
    + intros b Hb. apply in_app_or in Hb. destruct Hb as [Hb|Hb].
      * apply Hfull. exact Hb.
      * apply (spec_drain_short_In _ _ _ Hshort) in Hb.
        destruct Hb as (Hin & _). apply In_values in Hin.
        destruct Hin as (k & Hk). exists k. intros i Hi.
        rewrite <- (closest_config float s' (final r) i Hcfg).
        eapply inv_same; eauto.
  - exists []. rewrite iter_not_finished by (fold r; congruence). fold r.
    rewrite app_nil_r. split; [reflexivity|].
    split; [intros b Hb; apply Hfull; exact Hb|].
    split; [intros b []|]. split; [apply Nat.le_0_l|].
    intros b Hb. apply Hfull. exact Hb.
  - exists []. rewrite iter_not_finished by (fold r; congruence). fold r.
    rewrite app_nil_r. split; [reflexivity|].
    split; [intros b Hb; apply Hfull; exact Hb|].
    split; [intros b []|]. split; [apply Nat.le_0_l|].
    intros b Hb. apply Hfull. exact Hb.
Qed.

Lemma C3_full_batches_then_short_remainders_witness :
  __init__ [0; 1; 2; 3; 4] Scenario.ratios5 2 Scenario.table3 false
  = Ok Scenario.instance5
  /\ exists tail,
       emitted (__iter__ decimal Scenario.instance5)
       = emitted (streaming decimal Scenario.instance5 [0; 1; 2; 3; 4]) ++ tail
       /\ (forall b, In b (emitted (streaming decimal Scenario.instance5
                                      [0; 1; 2; 3; 4])) ->
                     length b = 2)
       /\ (forall b, In b tail ->
             0 < length b < 2
             /\ In b (dict_values
                        (_aspect_ratio_buckets
                           (final (streaming decimal Scenario.instance5
                                     [0; 1; 2; 3; 4])))))
       /\ length tail
          <= length (_aspect_ratio_buckets
                       (final (streaming decimal Scenario.instance5
                                 [0; 1; 2; 3; 4])))
       /\ (forall b, In b (emitted (__iter__ decimal Scenario.instance5)) ->
             exists k, forall i, In i b ->
                                 closest decimal Scenario.instance5 i = Ok k).
Proof.
  assert (Hinit : __init__ [0; 1; 2; 3; 4] Scenario.ratios5 2 Scenario.table3
                    false = Ok Scenario.instance5)
    by (vm_compute; reflexivity).
  split; [exact Hinit|].
  exact (C3_full_batches_then_short_remainders decimal [0; 1; 2; 3; 4]
           Scenario.ratios5 2%Z Scenario.table3 false Scenario.instance5 0
           Hinit).
Defined.

(** C4. On a freshly constructed instance with a non-empty table every index
    of the stream is appended to a bucket and the pass ends normally. Without
    [drop_last] the emitted batches, taken together, are a rearrangement of
    the stream: every occurrence of an index is in exactly one batch. With
    [drop_last] the stream is a rearrangement of the emitted batches and of
    the indices left in the buckets, of which at most [batch_size - 1] resolve
    to any one key. *)
Theorem C4_appended_indices_emitted_once :
  forall (float : string -> pyfloat) smp rat bs table dl s,
    __init__ smp rat bs table dl = Ok s ->
    table <> [] ->
    let r := __iter__ float s in
    stopped r = Finished
    /\ (forall idx u, Inv float u -> aspect_ratios u = table ->
          exists k b0,
            closest float u idx = Ok k
            /\ dict_get String.eqb k (_aspect_ratio_buckets u) = Some b0
            /\ (out (step float u idx) = Some (b0 ++ [idx])
                \/ dict_get String.eqb k
                     (_aspect_ratio_buckets (next (step float u idx)))
                   = Some (b0 ++ [idx])))
    /\ (dl = false -> Permutation (concat (emitted r)) smp)
    /\ (dl = true ->
        exists dropped,
          Permutation (concat (emitted r) ++ dropped) smp
          /\ forall k,
               length (filter (resolves_to float s k) dropped)
               <= batch_size s - 1).
Proof.
  intros float smp rat bs table dl s Hinit Hne r.
  destruct (init_inv float _ _ _ _ _ _ Hinit) as (HI & Hs & Hbs & Hempty & _).
  assert (Hsmp : sampler s = smp) by (rewrite Hs; reflexivity).
  assert (Htab : aspect_ratios s = table) by (rewrite Hs; reflexivity).
  assert (Hdl : drop_last s = dl) by (rewrite Hs; reflexivity).
  destruct (streaming_spec float (sampler s) s HI)
    as (HIf & Hcfg & _ & Hfin & Hperm).
  assert (Hst : stopped (streaming float s (sampler s)) = Finished)
    by (apply Hfin; congruence).
  specialize (Hperm Hst).
  assert (Hnil : concat (dict_values (_aspect_ratio_buckets s)) = []).
  { clear - Hempty. induction (_aspect_ratio_buckets s) as [|[k b] d IH];
      [reflexivity|].
    simpl. rewrite (Hempty k b) by (left; reflexivity). simpl.
    apply IH. intros k' b' H. eapply Hempty. right. exact H. }
  rewrite Hnil in Hperm. simpl in Hperm.
  pose proof (iter_eq float s HI Hst) as Heq. fold r in Heq.
  assert (Hbsf : batch_size (final (streaming float s (sampler s)))
                 = batch_size s) by apply Hcfg.
  assert (Hshort : forall b,
             In b (dict_values
                     (_aspect_ratio_buckets
                        (final (streaming float s (sampler s))))) ->
             length b < batch_size s).
  { intros b Hb. rewrite <- Hbsf. apply (values_short float); assumption. }
  split; [rewrite Heq; reflexivity|]. split; [|split].
  - intros idx u Hu Hu_tab.
    destruct (step_cases float u idx Hu) as [[E _]|(k & b0 & Hc & Hg & Hstep)];
      [congruence|].
    exists k, b0. split; [exact Hc|]. split; [exact Hg|].
    rewrite Hstep. destruct (S (length b0) =? batch_size u); simpl.
    + left. reflexivity.
    + right. apply (dict_get_set_same String.eqb String.eqb_eq).
  - intro Edl. rewrite Heq. cbn [emitted]. rewrite Hdl, Edl.
    rewrite concat_app, spec_drain_short_concat by exact Hshort.
    rewrite <- Hsmp. exact Hperm.
  - intro Edl.
    exists (concat (dict_values
                      (_aspect_ratio_buckets
                         (final (streaming float s (sampler s)))))).
    split.
    + rewrite Heq. cbn [emitted]. rewrite Hdl, Edl.
      rewrite spec_drain_short_dropped by exact Hshort.
      rewrite app_nil_r. rewrite <- Hsmp. exact Hperm.
    + intro k. apply (stored_per_key float).
      * apply HIf.
      * intros k' b i Hb Hi.
        rewrite <- (closest_config float s _ i Hcfg).
        eapply inv_same; eauto.
      * intros k' b Hb.
        assert (length b < batch_size s).
        { apply Hshort. apply In_values. exists k'. exact Hb. }
        lia.
Qed.

Lemma C4_appended_indices_emitted_once_witness :
  __init__ [0; 1; 2; 3; 4] Scenario.ratios5 2 Scenario.table3 false
  = Ok Scenario.instance5
  /\ Scenario.table3 <> []
  /\ Permutation (concat (emitted (__iter__ decimal Scenario.instance5)))
       [0; 1; 2; 3; 4].
Proof.
  assert (Hinit : __init__ [0; 1; 2; 3; 4] Scenario.ratios5 2 Scenario.table3
                    false = Ok Scenario.instance5)
    by (vm_compute; reflexivity).
  assert (Hne : Scenario.table3 <> []) by discriminate.
  split; [exact Hinit|]. split; [exact Hne|].
  exact (proj1 (proj2 (proj2
           (C4_appended_indices_emitted_once decimal [0; 1; 2; 3; 4]
              Scenario.ratios5 2%Z Scenario.table3 false Scenario.instance5
              Hinit Hne))) eq_refl).
Defined.

(** ** More on [get_closest_ratio] and [AspectRatioBatchSampler] *)

(** X1. [get_closest_ratio] raises ZeroDivisionError when the width is a zero;
    otherwise it raises ValueError when the table is empty, and the exception
    of [float] on the first key [float] rejects when there is one; otherwise
    it returns the dimensions stored under the first key of least distance
    to [height / width], the quotient and the distances being computed in
    double precision, together with that key as a float. It raises KeyError
    only if [float] does. On the default table 4/5 resolves to "0.82" and
    600/800 to "0.72". *)
#[warnings="-inexact-float"]
Theorem get_closest_ratio_outcomes :
  (forall (V : Type) (float : string -> result Doubles.double)
          (height width : Doubles.double) (ratios : list (string * V)),
      ((width =? 0)%float = true ->
       Doubles.get_closest_ratio float height width ratios
       = Raise ZeroDivisionError)
      /\ ((width =? 0)%float = false -> ratios = [] ->
          Doubles.get_closest_ratio float height width ratios = Raise ValueError)
      /\ ((width =? 0)%float = false ->
          forall pre k post e,
            dict_keys ratios = pre ++ k :: post ->
            forallb (Doubles.accepted float) pre = true ->
            float k = Raise e ->
            Doubles.get_closest_ratio float height width ratios = Raise e)
      /\ ((width =? 0)%float = false -> ratios <> [] ->
          forallb (Doubles.accepted float) (dict_keys ratios) = true ->
          exists key dims f,
            Doubles.first_nearest float (height / width)%float
              (dict_keys ratios) key
            /\ dict_get String.eqb key ratios = Some dims
            /\ float key = Ok f
            /\ Doubles.get_closest_ratio float height width ratios
               = Ok (dims, f))
      /\ ((forall k, float k <> Raise KeyError) ->
          Doubles.get_closest_ratio float height width ratios <> Raise KeyError))
  /\ Doubles.get_closest_ratio Doubles.float_512 4%float 5%float ASPECT_RATIO_512
     = Ok ([fl 448; fl 544], 0.82%float)
  /\ Doubles.get_closest_ratio Doubles.float_512 600%float 800%float
       ASPECT_RATIO_512
     = Ok ([fl 416; fl 576], 0.72%float).
Proof.
  split; [|split; vm_compute; reflexivity].
  intros V float height width ratios.
  assert (Hraise : (width =? 0)%float = false ->
          forall pre k post e,
            dict_keys ratios = pre ++ k :: post ->
            forallb (Doubles.accepted float) pre = true ->
            float k = Raise e ->
            Doubles.get_closest_ratio float height width ratios = Raise e).
  { intros Hw pre k post e Heq Hpre Hk.
    unfold Doubles.get_closest_ratio. rewrite Hw, Heq.
    rewrite (DoublesFacts.closest_ratio_raise float pre k post e _ Hpre Hk).
    reflexivity. }
  assert (Hok : (width =? 0)%float = false -> ratios <> [] ->
          forallb (Doubles.accepted float) (dict_keys ratios) = true ->
          exists key dims f,
            Doubles.first_nearest float (height / width)%float
              (dict_keys ratios) key
            /\ dict_get String.eqb key ratios = Some dims
            /\ float key = Ok f
            /\ Doubles.get_closest_ratio float height width ratios
               = Ok (dims, f)).
  { intros Hw Hne Hall.
    destruct (DoublesFacts.closest_ratio_first_nearest float (dict_keys ratios)
                (height / width)%float) as (key & Hkey & Hfirst); auto.
    { destruct ratios; [congruence|discriminate]. }
    destruct (dict_get_In_keys String.eqb String.eqb_eq key ratios
                (DoublesFacts.first_nearest_In _ _ _ _ Hfirst)) as (dims & Hd).
    destruct (DoublesFacts.first_nearest_accepted _ _ _ _ Hfirst) as (f & Hf).
    exists key, dims, f. split; [exact Hfirst|]. split; [exact Hd|].
    split; [exact Hf|].
    unfold Doubles.get_closest_ratio. rewrite Hw, Hkey, Hd, Hf. reflexivity. }
  split; [|split; [|split; [exact Hraise|split; [exact Hok|]]]].
  - intro Hw. unfold Doubles.get_closest_ratio. rewrite Hw. reflexivity.
  - intros Hw ->. unfold Doubles.get_closest_ratio. rewrite Hw. reflexivity.
  - intros Hno.
    destruct (width =? 0)%float eqn:Hw.
    { unfold Doubles.get_closest_ratio. rewrite Hw. discriminate. }
    destruct ratios as [|entry ratios'] eqn:Er.
    { unfold Doubles.get_closest_ratio. rewrite Hw. discriminate. }
    rewrite <- Er in *.
    destruct (forallb (Doubles.accepted float) (dict_keys ratios)) eqn:Hall.
    + destruct (Hok eq_refl) as (key & dims & f & _ & _ & _ & ->); auto.
      * rewrite Er. discriminate.
      * discriminate.
    + destruct (DoublesFacts.first_rejected float _ Hall)
        as (pre & k & post & e & Heq & Hpre & Hk).
      rewrite (Hraise eq_refl pre k post e Heq Hpre Hk).
      intro H. injection H as ->. exact (Hno k Hk).
Qed.

Lemma get_closest_ratio_outcomes_witness :
  exists key dims f,
    Doubles.first_nearest Doubles.float_512 (600 / 800)%float
      (dict_keys ASPECT_RATIO_512) key
    /\ dict_get String.eqb key ASPECT_RATIO_512 = Some dims
    /\ Doubles.float_512 key = Ok f
    /\ Doubles.get_closest_ratio Doubles.float_512 600%float 800%float
         ASPECT_RATIO_512 = Ok (dims, f).
Proof.
  assert (Hw : (800 =? 0)%float = false) by (vm_compute; reflexivity).
  assert (Hne : ASPECT_RATIO_512 <> []) by discriminate.
  assert (Hall : forallb (Doubles.accepted Doubles.float_512)
                   (dict_keys ASPECT_RATIO_512) = true)
    by (vm_compute; reflexivity).
  exact (proj1 (proj2 (proj2 (proj2
           (proj1 get_closest_ratio_outcomes (list pyfloat) Doubles.float_512
              600%float 800%float ASPECT_RATIO_512)))) Hw Hne Hall).
Defined.

(** X2. The constructor raises ValueError exactly when [batch_size] is not
    positive. Otherwise it stores its arguments, makes every key of the table
    active, and creates one empty bucket per key of the table, the keys of the
    buckets being distinct and, when the table has no repeated key, in table
    order. *)
Theorem basic_init_outcome :
  forall smp rat bs (table : list (string * list pyfloat)) dl,
    ((bs <= 0)%Z ->
     AspectRatioBatchSampler.__init__ smp rat bs table dl = Raise ValueError)
    /\ ((0 < bs)%Z ->
        exists s,
          AspectRatioBatchSampler.__init__ smp rat bs table dl = Ok s
          /\ sampler s = smp /\ ratios s = rat
          /\ Z.of_nat (batch_size s) = bs
          /\ aspect_ratios s = table /\ drop_last s = dl
          /\ current_available_bucket_keys s = dict_keys table
          /\ NoDup (dict_keys (_aspect_ratio_buckets s))
          /\ (forall k, In k (dict_keys (_aspect_ratio_buckets s))
                        <-> In k (dict_keys table))
          /\ (forall k b, In (k, b) (_aspect_ratio_buckets s) -> b = [])
          /\ (NoDup (dict_keys table) ->
              dict_keys (_aspect_ratio_buckets s) = dict_keys table)).
Proof.
  intros smp rat bs table dl. unfold AspectRatioBatchSampler.__init__. split.
  - intro H. apply Z.leb_le in H. rewrite H. reflexivity.
  - intro H. assert (E : (bs <=? 0)%Z = false) by (apply Z.leb_gt; exact H).
    rewrite E. eexists. split; [reflexivity|]. cbn.
    destruct (dict_fromkeys_spec String.eqb String.eqb_eq
                ([] : list nat) (dict_keys table)) as (F1 & F2 & F3 & F4).
    repeat split; auto; try apply F2.
    apply Z2Nat.id. lia.
Qed.

Lemma basic_init_outcome_witness :
  (0 < 2)%Z
  /\ exists s,
       AspectRatioBatchSampler.__init__ [0; 1; 2; 3; 4] Scenario.ratios5 2
         Scenario.table3 false = Ok s
       /\ sampler s = [0; 1; 2; 3; 4] /\ ratios s = Scenario.ratios5
       /\ Z.of_nat (batch_size s) = 2%Z
       /\ aspect_ratios s = Scenario.table3 /\ drop_last s = false
       /\ current_available_bucket_keys s = dict_keys Scenario.table3
       /\ NoDup (dict_keys (_aspect_ratio_buckets s))
       /\ (forall k, In k (dict_keys (_aspect_ratio_buckets s))
                     <-> In k (dict_keys Scenario.table3))
       /\ (forall k b, In (k, b) (_aspect_ratio_buckets s) -> b = [])
       /\ (NoDup (dict_keys Scenario.table3) ->
           dict_keys (_aspect_ratio_buckets s) = dict_keys Scenario.table3).
Proof.
  assert (H : (0 < 2)%Z) by lia.
  split; [exact H|].
  exact (proj2 (basic_init_outcome [0; 1; 2; 3; 4] Scenario.ratios5 2%Z
                  Scenario.table3 false) H).
Defined.

Lemma streaming_keys (float : string -> pyfloat) (idxs : list nat) :
  forall u,
    Inv float u ->
    dict_keys (_aspect_ratio_buckets (final (streaming float u idxs)))
    = dict_keys (_aspect_ratio_buckets u).
Proof.
  induction idxs as [|idx rest IH]; intros u Hu; [reflexivity|].
  cbn [streaming]. destruct (step_inv float u idx Hu) as (Hu' & _).
  assert (Hk : dict_keys (_aspect_ratio_buckets (next (step float u idx)))
               = dict_keys (_aspect_ratio_buckets u)).
  { destruct (step_cases float u idx Hu)
      as [[_ ->]|(k & b0 & _ & Hg & ->)]; [reflexivity|].
    apply (dict_get_In String.eqb String.eqb_eq) in Hg.
    apply key_of_entry in Hg.
    destruct (S (length b0) =? batch_size u); cbn;
      apply (dict_set_keys String.eqb String.eqb_eq); exact Hg. }
  destruct (err (step float u idx)); cbn [final]; [exact Hk|].
  rewrite IH by exact Hu'. exact Hk.
Qed.

(** X3. A pass over a constructed instance, whatever passes came before,
    ends normally when the table is not empty or the sampler produces
    nothing; with an empty table and at least one index it raises ValueError
    at the first index, having yielded nothing and written nothing. It raises
    no KeyError and its drain loop terminates. *)
Theorem basic_pass_outcome :
  forall (float : string -> pyfloat) smp rat bs table dl s n,
    AspectRatioBatchSampler.__init__ smp rat bs table dl = Ok s ->
    let s' := after_passes float n s in
    (table <> [] \/ smp = [] ->
     stopped (AspectRatioBatchSampler.__iter__ float s') = Finished)
    /\ (table = [] -> smp <> [] ->
        AspectRatioBatchSampler.__iter__ float s'
        = mkRun [] s' (Raised ValueError)).
Proof.
  intros float smp rat bs table dl s n Hinit s'.
  destruct (init_inv float _ _ _ _ _ _ Hinit) as (HI & Hs & _).
  assert (Hsmp : sampler s = smp) by (rewrite Hs; reflexivity).
  assert (Htab : aspect_ratios s = table) by (rewrite Hs; reflexivity).
  destruct (after_passes_inv float n s HI) as (HIn & Hcfg). fold s' in HIn, Hcfg.
  assert (Hsmp' : sampler s' = smp).
  { destruct Hcfg as (E & _). congruence. }
  assert (Htab' : aspect_ratios s' = table).
  { destruct Hcfg as (_ & _ & _ & E & _). congruence. }
  split.
  - intros [Hne| ->].
    + destruct (streaming_spec float (sampler s') s' HIn)
        as (_ & _ & _ & Hfin & _).
      rewrite (iter_eq float s' HIn); [reflexivity|].
      apply Hfin. congruence.
    + rewrite (iter_eq float s' HIn); [reflexivity|].
      rewrite Hsmp'. reflexivity.
  - intros -> Hne.
    assert (E : streaming float s' (sampler s') = mkRun [] s' (Raised ValueError)).
    { rewrite Hsmp'. destruct smp as [|idx rest]; [congruence|].
      cbn [streaming].
      destruct (step_cases float s' idx HIn)
        as [[_ ->]|(k & b0 & Hc & _)]; [reflexivity|].
      unfold closest, closest_ratio in Hc. rewrite Htab' in Hc. discriminate. }
    rewrite iter_not_finished; [exact E|]. rewrite E. discriminate.
Qed.

Lemma basic_pass_outcome_witness :
  AspectRatioBatchSampler.__init__ [0; 1; 2; 3; 4] Scenario.ratios5 2
    Scenario.table3 false = Ok Scenario.instance5
  /\ (Scenario.table3 <> [] \/ [0; 1; 2; 3; 4] = [])
  /\ stopped (AspectRatioBatchSampler.__iter__ decimal
                (after_passes decimal 1 Scenario.instance5)) = Finished.
Proof.
  assert (Hinit : AspectRatioBatchSampler.__init__ [0; 1; 2; 3; 4]
                    Scenario.ratios5 2 Scenario.table3 false
                  = Ok Scenario.instance5) by (vm_compute; reflexivity).
  assert (Hne : Scenario.table3 <> [] \/ [0; 1; 2; 3; 4] = [])
    by (left; discriminate).
  split; [exact Hinit|]. split; [exact Hne|].
  exact (proj1 (basic_pass_outcome decimal [0; 1; 2; 3; 4] Scenario.ratios5
                  2%Z Scenario.table3 false Scenario.instance5 1 Hinit) Hne).
Defined.

(** X4. Whatever the number of passes made over a constructed instance, the
    passes have written none of [sampler], [ratios], [batch_size], the table,
    [drop_last] and the active keys; the buckets still have the keys the
    constructor gave them, in the same order; every stored bucket is shorter
    than [batch_size]; and every index stored in a bucket resolves to the key
    of that bucket. *)
Theorem basic_passes_keep_buckets_short_and_sorted_by_key :
  forall (float : string -> pyfloat) smp rat bs table dl s n,
    AspectRatioBatchSampler.__init__ smp rat bs table dl = Ok s ->
    let s' := after_passes float n s in
    same_config s s'
    /\ dict_keys (_aspect_ratio_buckets s') = dict_keys (_aspect_ratio_buckets s)
    /\ forall k b,
         In (k, b) (_aspect_ratio_buckets s') ->
         length b < batch_size s
         /\ forall i, In i b -> closest float s i = Ok k.
Proof.
  intros float smp rat bs table dl s n Hinit s'.
  destruct (init_inv float _ _ _ _ _ _ Hinit) as (HI & _).
  destruct (after_passes_inv float n s HI) as (HIn & Hcfg). fold s' in HIn, Hcfg.
  split; [exact Hcfg|]. split.
  - subst s'. clear - HI. revert s HI.
    induction n as [|n IH]; intros s HI; [reflexivity|].
    cbn [after_passes]. rewrite iter_final.
    destruct (streaming_spec float (sampler s) s HI) as (HI' & _).
    rewrite (IH _ HI'). apply streaming_keys. exact HI.
  - intros k b Hb. split.
    + destruct Hcfg as (_ & _ & Hbs & _). rewrite <- Hbs.
      eapply inv_short; eauto.
    + intros i Hi. rewrite <- (closest_config float s s' i Hcfg).
      eapply inv_same; eauto.
Qed.

Lemma basic_passes_keep_buckets_short_and_sorted_by_key_witness :
  AspectRatioBatchSampler.__init__ [0; 1; 2; 3; 4] Scenario.ratios5 2
    Scenario.table3 false = Ok Scenario.instance5
  /\ same_config Scenario.instance5 (after_passes decimal 1 Scenario.instance5)
  /\ dict_keys (_aspect_ratio_buckets (after_passes decimal 1 Scenario.instance5))
     = dict_keys (_aspect_ratio_buckets Scenario.instance5)
  /\ forall k b,
       In (k, b) (_aspect_ratio_buckets
                    (after_passes decimal 1 Scenario.instance5)) ->
       length b < batch_size Scenario.instance5
       /\ forall i, In i b -> closest decimal Scenario.instance5 i = Ok k.
Proof.
  assert (Hinit : AspectRatioBatchSampler.__init__ [0; 1; 2; 3; 4]
                    Scenario.ratios5 2 Scenario.table3 false
                  = Ok Scenario.instance5) by (vm_compute; reflexivity).
  split; [exact Hinit|].
  exact (basic_passes_keep_buckets_short_and_sorted_by_key decimal
           [0; 1; 2; 3; 4] Scenario.ratios5 2%Z Scenario.table3 false
           Scenario.instance5 1 Hinit).
Defined.

Lemma drain_bucket_fuel (bs : nat) (dl : bool) :
  0 < bs ->
  forall fuel b,
    length b < fuel ->
    exists batches dropped,
      drain_bucket fuel bs dl b = (batches, true)
      /\ concat batches ++ dropped = b
      /\ (forall x, In x batches -> 0 < length x <= bs)
      /\ (dl = false ->
          dropped = []
          /\ (b <> [] -> batches <> [])
          /\ forall x, In x (removelast batches) -> length x = bs)
      /\ (dl = true ->
          (forall x, In x batches -> length x = bs)
          /\ length dropped <= bs
          /\ (b <> [] -> dropped <> [])).
Proof.
  intros Hbs. induction fuel as [|fuel IH]; intros b Hlen; [lia|].
  cbn [drain_bucket].
  destruct (0 <? length b) eqn:E0.
  - apply Nat.ltb_lt in E0.
    destruct (length b <=? bs) eqn:E1.
    + apply Nat.leb_le in E1. destruct dl; cbn [negb].
      * exists [], b. split; [reflexivity|]. split; [reflexivity|].
        split; [intros x []|]. split; [discriminate|]. intros _.
        split; [intros x []|]. split; [exact E1|]. auto.
      * exists [b], []. split; [reflexivity|].
        split; [cbn; rewrite !app_nil_r; reflexivity|].
        split; [intros x [<-|[]]; lia|]. split; [|discriminate].
        intros _. split; [reflexivity|]. split; [discriminate|].
        intros x [].
    + apply Nat.leb_gt in E1.
      destruct (IH (skipn bs b)) as (more & dropped & Hd & Hcat & Hin & Hf & Ht).
      { rewrite length_skipn. lia. }
      rewrite Hd. exists (firstn bs b :: more), dropped.
      assert (Hfl : length (firstn bs b) = bs)
        by (apply firstn_length_le; lia).
      assert (Hsk : skipn bs b <> []).
      { intro H. apply (f_equal (@length nat)) in H.
        rewrite length_skipn in H. cbn in H. lia. }
      split; [reflexivity|].
      split; [cbn [concat]; rewrite <- app_assoc, Hcat; apply firstn_skipn|].
      split; [intros x [<-|H]; [lia|auto]|]. split.
      * intro Edl. destruct (Hf Edl) as (F1 & F2 & F3).
        split; [exact F1|]. split; [discriminate|].
        intros x Hx. destruct more as [|m more']; [exfalso; auto|].
        cbn [removelast] in Hx. destruct Hx as [<-|Hx]; [exact Hfl|].
        apply F3. exact Hx.
      * intro Edl. destruct (Ht Edl) as (T1 & T2 & T3).
        split; [intros x [<-|H]; auto|]. split; [exact T2|].
        intros _. auto.
  - apply Nat.ltb_ge in E0. assert (b = []) by (destruct b; [reflexivity|cbn in E0; lia]).
    subst b. exists [], []. split; [reflexivity|]. split; [reflexivity|].
    split; [intros x []|]. split; intros _.
    + split; [reflexivity|]. split; [congruence|]. intros x [].
    + split; [intros x []|]. split; [cbn; lia|]. congruence.
Qed.

(** X5. For a positive [batch_size] the drain loop of one bucket terminates
    and cuts the bucket into consecutive batches of at most [batch_size]
    indices. Without [drop_last] nothing is lost, a non-empty bucket gives at
    least one batch and every batch but the last holds exactly [batch_size]
    indices. With [drop_last] every batch holds exactly [batch_size] indices
    and the end of a non-empty bucket is dropped: between 1 and [batch_size]
    indices, so that a bucket of exactly [batch_size] indices yields
    nothing. *)
Theorem drain_bucket_cuts_the_bucket :
  forall (bs : nat) (dl : bool) (b : list nat),
    0 < bs ->
    exists batches dropped,
      drain_bucket (S (length b)) bs dl b = (batches, true)
      /\ concat batches ++ dropped = b
      /\ (forall x, In x batches -> 0 < length x <= bs)
      /\ (dl = false ->
          dropped = []
          /\ (b <> [] -> batches <> [])
          /\ forall x, In x (removelast batches) -> length x = bs)
      /\ (dl = true ->
          (forall x, In x batches -> length x = bs)
          /\ length dropped <= bs
          /\ (b <> [] -> dropped <> [])).
Proof.
  intros bs dl b Hbs. apply drain_bucket_fuel; [exact Hbs|lia].
Qed.

Lemma drain_bucket_cuts_the_bucket_witness :
  0 < 2
  /\ exists batches dropped,
       drain_bucket (S (length [0; 1; 2; 3])) 2 true [0; 1; 2; 3]
       = (batches, true)
       /\ concat batches ++ dropped = [0; 1; 2; 3]
       /\ (forall x, In x batches -> 0 < length x <= 2)
       /\ (true = false ->
           dropped = []
           /\ ([0; 1; 2; 3] <> [] -> batches <> [])
           /\ forall x, In x (removelast batches) -> length x = 2)
       /\ (true = true ->
           (forall x, In x batches -> length x = 2)
           /\ length dropped <= 2
           /\ ([0; 1; 2; 3] <> [] -> dropped <> [])).
Proof.
  assert (H : 0 < 2) by lia.
  split; [exact H|].
  exact (drain_bucket_cuts_the_bucket 2 true [0; 1; 2; 3] H).
Defined.

Lemma existsb_none {A : Type} (f : A -> bool) (l : list A) :
  (forall x, In x l -> f x = false) -> existsb f l = false.
Proof.
  induction l as [|x l IH]; intro H; [reflexivity|].
  cbn. rewrite (H x) by (left; reflexivity). apply IH.
  intros y Hy. apply H. right. exact Hy.
Qed.

Lemma existsb_ext {A : Type} (f g : A -> bool) (l : list A) :
  (forall x, f x = g x) -> existsb f l = existsb g l.
Proof.
  intro H. induction l as [|x l IH]; [reflexivity|].
  cbn. rewrite H, IH. reflexivity.
Qed.

Lemma streaming_order (float : string -> pyfloat) (k : string) (idxs : list nat) :
  forall u L,
    Inv float u ->
    aspect_ratios u <> [] ->
    dict_get String.eqb k (_aspect_ratio_buckets u) = Some L ->
    let r := streaming float u idxs in
    exists left,
      dict_get String.eqb k (_aspect_ratio_buckets (final r)) = Some left
      /\ concat (filter (fun b => existsb (resolves_to float u k) b) (emitted r))
         ++ left
         = L ++ filter (resolves_to float u k) idxs.
Proof.
  induction idxs as [|idx rest IH]; intros u L HI Hne HL; cbn [streaming].
  - exists L. split; [exact HL|]. cbn. rewrite app_nil_r. reflexivity.
  - destruct (step_inv float u idx HI) as (HI' & Hcfg).
    assert (Hne' : aspect_ratios (next (step float u idx)) <> []).
    { destruct Hcfg as (_ & _ & _ & Ha & _). congruence. }
    assert (Hres : forall i, resolves_to float (next (step float u idx)) k i
                             = resolves_to float u k i).
    { intro i. unfold resolves_to. rewrite (closest_config float u _ i Hcfg).
      reflexivity. }
    destruct (step_cases float u idx HI)
      as [[E _]|(k0 & b0 & Hc & Hg & Hstep)]; [contradiction|].
    pose proof (dict_get_In String.eqb String.eqb_eq _ _ _ Hg) as Hin0.
    assert (Hsame0 : forall i, In i (b0 ++ [idx]) -> closest float u i = Ok k0).
    { intros i Hi. apply in_app_or in Hi. destruct Hi as [Hi|[<-|[]]].
      - eapply inv_same; eauto.
      - exact Hc. }
    cbn [filter]. unfold resolves_to at 2. rewrite Hc.
    destruct (String.eqb k0 k) eqn:Ek.
    + apply String.eqb_eq in Ek. subst k0.
      assert (b0 = L) by congruence. subst b0.
      rewrite Hstep in HI', Hne', Hres |- *.
      destruct (S (length L) =? batch_size u); cbn [err out next yielded app emitted final stopped] in *.
      * destruct (IH _ [] HI' Hne') as (left & Hl & Heq).
        { cbn. apply (dict_get_set_same String.eqb String.eqb_eq). }
        exists left. split; [exact Hl|].
        cbn [filter].
        assert (Ex : existsb (resolves_to float u k) (L ++ [idx]) = true).
        { apply existsb_exists. exists idx. split.
          - apply in_or_app. right. left. reflexivity.
          - apply (resolves_to_iff float). exact Hc. }
        rewrite Ex. cbn [concat]. rewrite <- !app_assoc.
        rewrite (filter_ext _ _ Hres) in Heq.
        erewrite (filter_ext (fun b => existsb (resolves_to float u k) b)).
        -- cbn in Heq. rewrite <- Heq. reflexivity.
        -- intro b. apply existsb_ext. intro i. symmetry. apply Hres.
      * destruct (IH _ (L ++ [idx]) HI' Hne') as (left & Hl & Heq).
        { cbn. apply (dict_get_set_same String.eqb String.eqb_eq). }
        exists left. split; [exact Hl|].
        rewrite (filter_ext _ _ Hres) in Heq.
        erewrite (filter_ext (fun b => existsb (resolves_to float u k) b)).
        -- rewrite <- app_assoc in Heq. exact Heq.
        -- intro b. apply existsb_ext. intro i. symmetry. apply Hres.
    + assert (Hk : k <> k0).
      { intro E. subst. rewrite String.eqb_refl in Ek. discriminate. }
      assert (Ex : existsb (resolves_to float u k) (b0 ++ [idx]) = false).
      { apply existsb_none. intros i Hi. unfold resolves_to.
        rewrite (Hsame0 i Hi). exact Ek. }
      rewrite Hstep in HI', Hne', Hres |- *.
      destruct (S (length b0) =? batch_size u); cbn [err out next yielded app emitted final stopped] in *;
        (destruct (IH _ L HI' Hne') as (left & Hl & Heq);
         [cbn; rewrite (dict_get_set_other String.eqb String.eqb_eq) by exact Hk;
          exact HL|]);
        exists left; (split; [exact Hl|]);
        rewrite (filter_ext _ _ Hres) in Heq;
        cbn [filter]; rewrite ?Ex;
        (erewrite (filter_ext (fun b => existsb (resolves_to float u k) b));
         [exact Heq|intro b; apply existsb_ext; intro i; symmetry; apply Hres]).
Qed.

Lemma drain_other_keys (float : string -> pyfloat) (u : t) (k : string) (bs : nat)
    (d : list (string * list nat)) :
  (forall k' b, In (k', b) d ->
                length b < bs /\ forall i, In i b -> closest float u i = Ok k') ->
  ~ In k (dict_keys d) ->
  filter (fun b => existsb (resolves_to float u k) b)
    (spec_drain bs false (dict_values d)) = [].
Proof.
  intros Hd Hk. apply filter_none. intros b Hb.
  apply spec_drain_short_In in Hb.
  - destruct Hb as (Hin & _). apply In_values in Hin. destruct Hin as (k' & Hk').
    apply existsb_none. intros i Hi. unfold resolves_to.
    rewrite (proj2 (Hd _ _ Hk') i Hi).
    destruct (String.eqb k' k) eqn:E; [|reflexivity].
    apply String.eqb_eq in E. subst k'. exfalso. apply Hk.
    eapply key_of_entry; eauto.
  - intros b' Hb'. apply In_values in Hb'. destruct Hb' as (k' & Hk').
    apply (Hd _ _ Hk').
Qed.

Lemma drain_of_key (float : string -> pyfloat) (u : t) (k : string) (bs : nat)
    (d : list (string * list nat)) :
  NoDup (dict_keys d) ->
  (forall k' b, In (k', b) d ->
                length b < bs /\ forall i, In i b -> closest float u i = Ok k') ->
  forall left,
    dict_get String.eqb k d = Some left ->
    concat (filter (fun b => existsb (resolves_to float u k) b)
              (spec_drain bs false (dict_values d))) = left.
Proof.
  induction d as [|[k' b] d IH]; intros Hnd Hd left Hget; [discriminate|].
  inversion Hnd as [|? ? Hnot Hnd']; subst.
  assert (Hd' : forall k'' b', In (k'', b') d ->
                  length b' < bs
                  /\ forall i, In i b' -> closest float u i = Ok k'').
  { intros k'' b' H. apply Hd. right. exact H. }
  destruct (Hd k' b (or_introl eq_refl)) as (Hshort & Hsame).
  cbn [dict_values map snd].
  change (spec_drain bs false (b :: map snd d))
    with (spec_drain_bucket (S (length b)) bs false b
          ++ spec_drain bs false (dict_values d)).
  rewrite spec_drain_bucket_short by exact Hshort.
  rewrite filter_app, concat_app. cbn [dict_get] in Hget.
  destruct (String.eqb k k') eqn:E.
  - apply String.eqb_eq in E. subst k'. injection Hget as ->.
    rewrite (drain_other_keys float u k bs d Hd' Hnot).
    cbn [concat]. rewrite app_nil_r.
    destruct left as [|i left]; [reflexivity|].
    cbn [length Nat.ltb Nat.leb andb negb filter].
    assert (Ex : existsb (resolves_to float u k) (i :: left) = true).
    { apply existsb_exists. exists i. split; [left; reflexivity|].
      apply (resolves_to_iff float). apply Hsame. left. reflexivity. }
    rewrite Ex. cbn. rewrite app_nil_r. reflexivity.
  - assert (Ex : filter (fun b0 => existsb (resolves_to float u k) b0)
                   (if (0 <? length b) && negb false then [b] else []) = []).
    { apply filter_none. intros b' Hb'.
      destruct ((0 <? length b) && negb false); [|destruct Hb'].
      destruct Hb' as [<-|[]]. apply existsb_none. intros i Hi.
      unfold resolves_to. rewrite (Hsame i Hi).
      destruct (String.eqb k' k) eqn:E'; [|reflexivity].
      apply String.eqb_eq in E'. subst. rewrite String.eqb_refl in E.
      discriminate. }
    rewrite Ex. cbn [concat app]. apply IH; assumption.
Qed.

(** X6. Without [drop_last], on a freshly constructed instance, the batches
    of a pass that hold indices of a key of the table, read in the order in
    which they are yielded, spell the indices of the stream that resolve to
    that key, in stream order; the first loop alone yields them up to what it
    leaves in the bucket of the key. *)
Theorem basic_batches_follow_stream_order_per_key :
  forall (float : string -> pyfloat) smp rat bs table dl s k,
    AspectRatioBatchSampler.__init__ smp rat bs table dl = Ok s ->
    In k (dict_keys table) ->
    (exists left,
        dict_get String.eqb k
          (_aspect_ratio_buckets (final (streaming float s smp))) = Some left
        /\ concat (filter (fun b => existsb (resolves_to float s k) b)
                     (emitted (streaming float s smp))) ++ left
           = filter (resolves_to float s k) smp)
    /\ (dl = false ->
        concat (filter (fun b => existsb (resolves_to float s k) b)
                  (emitted (AspectRatioBatchSampler.__iter__ float s)))
        = filter (resolves_to float s k) smp).
Proof.
  intros float smp rat bs table dl s k Hinit Hk.
  destruct (init_inv float _ _ _ _ _ _ Hinit) as (HI & Hs & _ & Hempty & _).
  assert (Hsmp : sampler s = smp) by (rewrite Hs; reflexivity).
  assert (Htab : aspect_ratios s = table) by (rewrite Hs; reflexivity).
  assert (Hdl : drop_last s = dl) by (rewrite Hs; reflexivity).
  assert (Hne : aspect_ratios s <> []).
  { rewrite Htab. destruct table; [destruct Hk|discriminate]. }
  destruct (dict_get_In_keys String.eqb String.eqb_eq k (_aspect_ratio_buckets s))
    as (L & HL).
  { apply (inv_keys _ _ HI). rewrite Htab. exact Hk. }
  assert (L = []).
  { eapply Hempty. eapply dict_get_In; [exact String.eqb_eq|exact HL]. }
  subst L.
  destruct (streaming_order float k smp s [] HI Hne HL) as (left & Hl & Heq).
  cbn [app] in Heq.
  split; [exists left; auto|].
  intro Edl.
  destruct (streaming_spec float smp s HI) as (HIf & Hcfg & _ & Hfin & _).
  pose proof (iter_eq float s HI) as Hiter. rewrite Hsmp in Hiter.
  rewrite Hiter by (apply Hfin; exact Hne).
  cbn [emitted]. rewrite filter_app, concat_app, Hdl, Edl.
  rewrite <- Heq. f_equal.
  apply (drain_of_key float s k); [apply HIf| |exact Hl].
  intros k' b Hb. split.
  - destruct Hcfg as (_ & _ & Hbs & _). rewrite <- Hbs.
    eapply inv_short; eauto.
  - intros i Hi. rewrite <- (closest_config float s _ i Hcfg).
    eapply inv_same; eauto.
Qed.

Lemma basic_batches_follow_stream_order_per_key_witness :
  AspectRatioBatchSampler.__init__ [0; 1; 2; 3; 4] Scenario.ratios5 2
    Scenario.table3 false = Ok Scenario.instance5
  /\ In "0.5"%string (dict_keys Scenario.table3)
  /\ concat (filter (fun b =>
                       existsb (resolves_to decimal Scenario.instance5 "0.5") b)
               (emitted (AspectRatioBatchSampler.__iter__ decimal
                           Scenario.instance5)))
     = filter (resolves_to decimal Scenario.instance5 "0.5") [0; 1; 2; 3; 4].
Proof.
  assert (Hinit : AspectRatioBatchSampler.__init__ [0; 1; 2; 3; 4]
                    Scenario.ratios5 2 Scenario.table3 false
                  = Ok Scenario.instance5) by (vm_compute; reflexivity).
  assert (Hk : In "0.5"%string (dict_keys Scenario.table3))
    by (left; reflexivity).
  split; [exact Hinit|]. split; [exact Hk|].
  exact (proj2 (basic_batches_follow_stream_order_per_key decimal
                  [0; 1; 2; 3; 4] Scenario.ratios5 2%Z Scenario.table3 false
                  Scenario.instance5 "0.5"%string Hinit Hk) eq_refl).
Defined.

(** ** [AspectRatioBatchSampler]: what a pass leaves for the next one *)

Section Leftovers.
Variable float : string -> pyfloat.

Lemma with_sampler_inv (u : t) (idxs : list nat) :
  Inv float u -> Inv float (with_sampler u idxs).
Proof.
  intros [I1 I2 I3 I4 I5 I6]. constructor; cbn; assumption.
Qed.

(** A bucket that holds [L] when the first loop starts: with enough further
    indices of its key, [L] comes out at the head of a full batch; otherwise
    [L] stays at the head of the bucket and no batch of the loop holds an
    index of that key. *)
Lemma streaming_leftover (k : string) (p : nat -> bool) (idxs : list nat) :
  forall self L,
    Inv float self ->
    aspect_ratios self <> [] ->
    (forall i, resolves_to float self k i = p i) ->
    dict_get String.eqb k (_aspect_ratio_buckets self) = Some L ->
    let r := streaming float self idxs in
    (batch_size self <= length L + length (filter p idxs) ->
     In (L ++ firstn (batch_size self - length L) (filter p idxs)) (emitted r))
    /\ (length L + length (filter p idxs) < batch_size self ->
        dict_get String.eqb k (_aspect_ratio_buckets (final r))
        = Some (L ++ filter p idxs)
        /\ forall b, In b (emitted r) -> existsb p b = false).
Proof.
  induction idxs as [|idx rest IH]; intros self L HI Hne Hp HL;
    cbn [streaming filter].
  - pose proof (inv_short _ _ HI k L
                  (dict_get_In String.eqb String.eqb_eq _ _ _ HL)) as Hlen.
    cbn [length emitted final]. split; [lia|]. intros _.
    rewrite app_nil_r. split; [exact HL|intros b []].
  - destruct (step_inv float self idx HI) as (HI' & Hcfg).
    assert (Hne' : aspect_ratios (next (step float self idx)) <> []).
    { destruct Hcfg as (_ & _ & _ & Ha & _). congruence. }
    assert (Hbs' : batch_size (next (step float self idx)) = batch_size self)
      by apply Hcfg.
    assert (Hp' : forall i, resolves_to float (next (step float self idx)) k i
                            = p i).
    { intro i. rewrite <- Hp. unfold resolves_to.
      rewrite (closest_config float self _ i Hcfg). reflexivity. }
    pose proof (inv_short _ _ HI k L
                  (dict_get_In String.eqb String.eqb_eq _ _ _ HL)) as Hlen.
    destruct (step_cases float self idx HI)
      as [[E _]|(k0 & b0 & Hc & Hg & Hstep)]; [contradiction|].
    assert (Hpidx : p idx = String.eqb k0 k).
    { rewrite <- Hp. unfold resolves_to. rewrite Hc. reflexivity. }
    rewrite Hpidx.
    destruct (String.eqb k0 k) eqn:Ek.
    + apply String.eqb_eq in Ek. subst k0.
      assert (b0 = L) by congruence. subst b0.
      rewrite Hstep in HI', Hne', Hbs', Hp' |- *.
      destruct (S (length L) =? batch_size self) eqn:Efull;
        cbn [err out next yielded app emitted final stopped length] in *.
      * apply Nat.eqb_eq in Efull. split; [|lia]. intros _.
        replace (batch_size self - length L) with 1 by lia.
        left. reflexivity.
      * apply Nat.eqb_neq in Efull.
        destruct (IH _ (L ++ [idx]) HI' Hne' Hp') as (A & B).
        { cbn. apply (dict_get_set_same String.eqb String.eqb_eq). }
        rewrite Hbs', length_app in A, B. cbn [length] in A, B.
        split.
        -- intro H.
           replace (batch_size self - length L)
             with (S (batch_size self - (length L + 1))) by lia.
           cbn [firstn]. rewrite <- app_assoc in A. apply A. lia.
        -- intro H. destruct B as (B1 & B2); [lia|].
           rewrite <- app_assoc in B1. split; [exact B1|exact B2].
    + assert (Hk : k <> k0).
      { intro E. subst. rewrite String.eqb_refl in Ek. discriminate. }
      assert (HL' : dict_get String.eqb k
                      (_aspect_ratio_buckets (next (step float self idx)))
                    = Some L).
      { rewrite Hstep. destruct (S (length b0) =? batch_size self); simpl;
          rewrite (dict_get_set_other String.eqb String.eqb_eq) by exact Hk;
          exact HL. }
      assert (He : err (step float self idx) = None).
      { rewrite Hstep. destruct (S (length b0) =? batch_size self);
          reflexivity. }
      assert (Hout : forall b, In b (yielded (out (step float self idx))) ->
                               existsb p b = false).
      { intros b Hb. apply existsb_none. intros i Hi.
        rewrite <- Hp. unfold resolves_to.
        assert (Hi0 : closest float self i = Ok k0).
        { rewrite Hstep in Hb.
          destruct (S (length b0) =? batch_size self); cbn in Hb;
            [|contradiction].
          destruct Hb as [<-|[]].
          apply in_app_or in Hi. destruct Hi as [Hi|[<-|[]]]; [|exact Hc].
          eapply inv_same; [exact HI| |exact Hi].
          eapply dict_get_In; [exact String.eqb_eq|exact Hg]. }
        rewrite Hi0. exact Ek. }
      rewrite He.
      destruct (IH _ L HI' Hne' Hp' HL') as (A & B).
      rewrite Hbs' in A, B. cbn [emitted final].
      split.
      * intro H. apply in_or_app. right. apply A. exact H.
      * intro H. destruct (B H) as (B1 & B2). split; [exact B1|].
        intros b Hb. apply in_app_or in Hb. destruct Hb as [Hb|Hb].
        -- apply Hout. exact Hb.
        -- apply B2. exact Hb.
Qed.
End Leftovers.

(** C8, as stated, with [drop_last]: a basic sampler with batch size 3 over
    the single index 0, of ratio 0.5. The first pass emits nothing and leaves
    the index in the bucket of "0.5"; the second pass of the same instance ends
    normally and emits no batch, so the leftover index is in none of its
    batches; it is stored twice afterwards. *)
Lemma C8_drop_last_leftover_counterexample :
  exists s,
    __init__ [0] (fun _ => Q2Qc (1 # 2)) 3 Scenario.table3 true = Ok s
    /\ emitted (__iter__ decimal s) = []
    /\ stopped (__iter__ decimal s) = Finished
    /\ _aspect_ratio_buckets (final (__iter__ decimal s))
       = [("0.5", [0]); ("1.0", []); ("2.0", [])]%string
    /\ emitted (__iter__ decimal (final (__iter__ decimal s))) = []
    /\ stopped (__iter__ decimal (final (__iter__ decimal s))) = Finished
    /\ _aspect_ratio_buckets
         (final (__iter__ decimal (final (__iter__ decimal s))))
       = [("0.5", [0; 0]); ("1.0", []); ("2.0", [])]%string.
Proof.
  eexists. split; [vm_compute; reflexivity|].
  repeat split; vm_compute; reflexivity.
Qed.

(** C8, amended. A pass leaves in the stored buckets what its first loop left
    there: the drain reads the buckets and does not write them, so a remainder
    that the drain emitted is still stored when the pass is over. In the next
    pass of the same instance, whatever indices the base sampler then
    produces, such a leftover [L] of key [k] is at the head of the bucket of
    [k]. When the pass brings enough indices of key [k] to fill the bucket, [L]
    comes out at the head of a full batch. When it does not, the bucket holds
    [L] followed by those indices once the pass is over, and: without
    [drop_last] the drain emits that bucket as one batch; with [drop_last] no
    batch of the pass holds an index of [L]. In the scenario the second pass
    emits [{4,0}], [{2,2}], [{3,3}], [{1,4}]. *)
Theorem C8_leftovers_stay_stored_for_the_next_pass :
  (forall (float : string -> pyfloat) smp rat bs table dl s n smp2,
      __init__ smp rat bs table dl = Ok s ->
      table <> [] ->
      let s0 := after_passes float n s in
      let r1 := __iter__ float s0 in
      let r2 := __iter__ float (with_sampler (final r1) smp2) in
      _aspect_ratio_buckets (final r1)
      = _aspect_ratio_buckets (final (streaming float s0 (sampler s0)))
      /\ stopped r1 = Finished
      /\ stopped r2 = Finished
      /\ forall k L,
           dict_get String.eqb k (_aspect_ratio_buckets (final r1)) = Some L ->
           L <> [] ->
           let more := filter (resolves_to float s0 k) smp2 in
           (dl = false -> In L (emitted r1))
           /\ (batch_size s0 <= length L + length more ->
               In (L ++ firstn (batch_size s0 - length L) more) (emitted r2))
           /\ (length L + length more < batch_size s0 ->
               dict_get String.eqb k (_aspect_ratio_buckets (final r2))
               = Some (L ++ more)
               /\ (dl = false -> In (L ++ more) (emitted r2))
               /\ (dl = true ->
                   forall b i, In b (emitted r2) -> In i L -> ~ In i b)))
  /\ _aspect_ratio_buckets (final (__iter__ decimal Scenario.instance5))
     = [("0.5", [4]); ("1.0", [2]); ("2.0", [3])]%string
  /\ emitted (__iter__ decimal (final (__iter__ decimal Scenario.instance5)))
     = [[4; 0]; [2; 2]; [3; 3]; [1; 4]].
Proof.
  split; [|split; vm_compute; reflexivity].
  intros float smp rat bs table dl s n smp2 Hinit Hne s0 r1 r2.
  destruct (init_inv float _ _ _ _ _ _ Hinit) as (HI & Hs & _).
  assert (Htab : aspect_ratios s = table) by (rewrite Hs; reflexivity).
  assert (Hdl : drop_last s = dl) by (rewrite Hs; reflexivity).
  destruct (after_passes_inv float n s HI) as (HI0 & Hcfg0).
  fold s0 in HI0, Hcfg0.
  assert (Htab0 : aspect_ratios s0 = table).
  { destruct Hcfg0 as (_ & _ & _ & Ha & _). congruence. }
  assert (Hdl0 : drop_last s0 = dl).
  { destruct Hcfg0 as (_ & _ & _ & _ & Hd & _). congruence. }
  destruct (streaming_spec float (sampler s0) s0 HI0)
    as (HI1 & Hcfg1 & _ & Hfin1 & _).
  assert (Hst1 : stopped (streaming float s0 (sampler s0)) = Finished)
    by (apply Hfin1; congruence).
  pose proof (BasicRule.iter_drained float s0 (inv_bs _ _ HI0) Hst1) as Heq1.
  fold r1 in Heq1.
  pose proof (iter_final float s0) as Hf1. fold r1 in Hf1.
  rewrite <- Hf1 in HI1, Hcfg1.
  assert (Hbs1 : batch_size (final r1) = batch_size s0) by apply Hcfg1.
  assert (Htab1 : aspect_ratios (final r1) = table).
  { destruct Hcfg1 as (_ & _ & _ & Ha & _). congruence. }
  assert (Hdl1 : drop_last (final r1) = dl).
  { destruct Hcfg1 as (_ & _ & _ & _ & Hd & _). congruence. }
  set (s1 := with_sampler (final r1) smp2) in *.
  assert (HIs1 : Inv float s1) by (apply with_sampler_inv; exact HI1).
  assert (Hne1 : aspect_ratios s1 <> []) by (cbn; congruence).
  destruct (streaming_spec float smp2 s1 HIs1)
    as (HI2 & Hcfg2 & _ & Hfin2 & _).
  assert (Hst2 : stopped (streaming float s1 (sampler s1)) = Finished)
    by (apply Hfin2; exact Hne1).
  pose proof (BasicRule.iter_drained float s1 (inv_bs _ _ HIs1) Hst2) as Heq2.
  fold r2 in Heq2.
  assert (Hshort2 : forall b,
             In b (dict_values
                     (_aspect_ratio_buckets
                        (final (streaming float s1 (sampler s1))))) ->
             length b < batch_size s1).
  { intros b Hb.
    assert (Hbs2 : batch_size (final (streaming float s1 smp2))
                   = batch_size s1) by apply Hcfg2.
    rewrite <- Hbs2. apply (values_short float); assumption. }
  rewrite (BasicRule.drained_all_short _ _ _ Hshort2) in Heq2.
  split; [rewrite Hf1; reflexivity|].
  split; [rewrite Heq1; reflexivity|].
  split; [rewrite Heq2; reflexivity|].
  intros k L HL HLne more.
  assert (Hp : forall i, resolves_to float s1 k i = resolves_to float s0 k i).
  { intro i. unfold resolves_to.
    change (closest float s1 i) with (closest float (final r1) i).
    rewrite (closest_config float s0 (final r1) i Hcfg1). reflexivity. }
  destruct (streaming_leftover float k (resolves_to float s0 k) smp2 s1 L
              HIs1 Hne1 Hp HL) as (A & B).
  change (batch_size s1) with (batch_size (final r1)) in A, B.
  rewrite Hbs1 in A, B. fold more in A, B.
  change (sampler s1) with smp2 in Heq2.
  change (drop_last s1) with (drop_last (final r1)) in Heq2.
  rewrite Hdl1 in Heq2.
  split; [|split].
  - intro Edl. rewrite Heq1. cbn [emitted]. apply in_or_app. right.
    rewrite <- Hf1.
    rewrite BasicRule.drained_all_short.
    + rewrite Hdl0, Edl. apply filter_In. split.
      * apply In_values. exists k.
        eapply dict_get_In; [exact String.eqb_eq|exact HL].
      * apply Nat.ltb_lt. destruct L; [congruence|simpl; lia].
    + intros b Hb. rewrite <- Hbs1. apply (values_short float); assumption.
  - intro H. rewrite Heq2. cbn [emitted]. apply in_or_app. left.
    apply A. exact H.
  - intro H. destruct (B H) as (B1 & B2).
    split; [rewrite Heq2; cbn [final]; exact B1|]. split.
    + intros ->. rewrite Heq2. cbn [emitted]. apply in_or_app. right.
      apply filter_In. split.
      * apply In_values. exists k.
        eapply dict_get_In; [exact String.eqb_eq|exact B1].
      * apply Nat.ltb_lt. rewrite length_app.
        destruct L; [congruence|simpl; lia].
    + intros -> b i Hb Hi Hib. rewrite Heq2 in Hb. cbn [emitted] in Hb.
      rewrite app_nil_r in Hb.
      pose proof (B2 b Hb) as Hnone.
      assert (Hres : resolves_to float s0 k i = true).
      { rewrite <- Hp. unfold resolves_to.
        change (closest float s1 i) with (closest float (final r1) i).
        rewrite (inv_same _ _ HI1 k L i
                   (dict_get_In String.eqb String.eqb_eq _ _ _ HL) Hi).
        apply String.eqb_refl. }
      assert (Hex : existsb (resolves_to float s0 k) b = true).
      { apply existsb_exists. exists i. auto. }
      congruence.
Qed.

Lemma C8_leftovers_stay_stored_for_the_next_pass_witness :
  __init__ [0] (fun _ => Q2Qc (1 # 2)) 3 Scenario.table3 true
  = Ok (mk [0] (fun _ => Q2Qc (1 # 2)) 3 Scenario.table3 true
          [("0.5", []); ("1.0", []); ("2.0", [])]%string
          ["0.5"; "1.0"; "2.0"]%string)
  /\ Scenario.table3 <> []
  /\ dict_get String.eqb "0.5"%string
       (_aspect_ratio_buckets
          (final (__iter__ decimal
                    (mk [0] (fun _ => Q2Qc (1 # 2)) 3 Scenario.table3 true
                       [("0.5", []); ("1.0", []); ("2.0", [])]%string
                       ["0.5"; "1.0"; "2.0"]%string))))
     = Some [0]
  /\ In ([0]
         ++ firstn (3 - length [0])
              (filter
                 (resolves_to decimal
                    (mk [0] (fun _ => Q2Qc (1 # 2)) 3 Scenario.table3 true
                       [("0.5", []); ("1.0", []); ("2.0", [])]%string
                       ["0.5"; "1.0"; "2.0"]%string) "0.5")
                 [5; 6; 7]))
        (emitted
           (__iter__ decimal
              (with_sampler
                 (final (__iter__ decimal
                           (mk [0] (fun _ => Q2Qc (1 # 2)) 3 Scenario.table3
                              true
                              [("0.5", []); ("1.0", []); ("2.0", [])]%string
                              ["0.5"; "1.0"; "2.0"]%string)))
                 [5; 6; 7]))).
Proof.
  set (s := mk [0] (fun _ => Q2Qc (1 # 2)) 3 Scenario.table3 true
              [("0.5", []); ("1.0", []); ("2.0", [])]%string
              ["0.5"; "1.0"; "2.0"]%string).
  assert (Hinit : __init__ [0] (fun _ => Q2Qc (1 # 2)) 3 Scenario.table3 true
                  = Ok s) by (vm_compute; reflexivity).
  assert (Hne : Scenario.table3 <> []) by discriminate.
  assert (HL : dict_get String.eqb "0.5"%string
                 (_aspect_ratio_buckets (final (__iter__ decimal s)))
               = Some [0]) by (vm_compute; reflexivity).
  assert (HLne : [0] <> []) by discriminate.
  assert (Hlen : batch_size s
                 <= length [0]
                    + length (filter (resolves_to decimal s "0.5") [5; 6; 7]))
    by (vm_compute; lia).
  split; [exact Hinit|]. split; [exact Hne|]. split; [exact HL|].
  exact (proj1 (proj2
           (proj2 (proj2 (proj2
              (proj1 C8_leftovers_stay_stored_for_the_next_pass decimal
                 [0] (fun _ => Q2Qc (1 # 2)) 3%Z Scenario.table3 true s 0
                 [5; 6; 7] Hinit Hne)))
              "0.5"%string [0] HL HLne)) Hlen).
Defined.

(** ** [BalancedAspectRatioBatchSampler]: frames and the quota *)

Module BalancedFacts.
Import BalancedAspectRatioBatchSampler BalancedPreds.

Ltac break_match :=
  match goal with
  | |- context [match ?x with _ => _ end] => destruct x eqn:?
  | |- context [if ?x then _ else _] => destruct x eqn:?
  end.

(** Reduces the projections of an updated instance. *)
Ltac fields :=
  cbn [with_buckets with_original with_count with_rounds
       sampler get_data_info batch_size aspect_ratios drop_last ratio_nums_gt
       _aspect_ratio_buckets original_buckets current_available_bucket_keys
       all_available_keys exhausted_bucket_keys total_batches
       _aspect_ratio_count fst snd out next err negb].

Lemma dict_set_set {K V : Type} (eqb : K -> K -> bool)
    (eqb_eq : forall a b, eqb a b = true <-> a = b)
    (k : K) (v v' : V) (d : list (K * V)) :
  dict_set eqb k v (dict_set eqb k v' d) = dict_set eqb k v d.
Proof.
  induction d as [|[k0 v0] d IH]; simpl.
  - rewrite (eqb_same eqb eqb_eq). reflexivity.
  - destruct (eqb k k0) eqn:E; simpl; rewrite E; [reflexivity|].
    rewrite IH. reflexivity.
Qed.

Lemma same_frame_refl (s : t) : same_frame s s.
Proof. repeat split. Qed.

Lemma same_frame_trans (s1 s2 s3 : t) :
  same_frame s1 s2 -> same_frame s2 s3 -> same_frame s1 s3.
Proof.
  intros (A1 & A2 & A3 & A4 & A5 & A6 & A7) (B1 & B2 & B3 & B4 & B5 & B6 & B7).
  repeat split; congruence.
Qed.

Lemma choice_In {A : Type} (d : Draw) (l : list A) (x : A) :
  choice d l = Ok x -> In x l.
Proof.
  unfold choice. destruct l as [|y l]; [discriminate|].
  destruct (nth_error (y :: l) (pick d mod length (y :: l))) eqn:E;
    [|discriminate].
  intro H. injection H as <-. eapply nth_error_In. exact E.
Qed.


Section Facts.
Variable float : string -> pyfloat.

(** *** What each block of the loop body leaves alone *)

Lemma capture_frame (u : t) (k : pyfloat) (idx : nat) :
  same_frame u (fst (capture u k idx))
  /\ current_available_bucket_keys (fst (capture u k idx))
     = current_available_bucket_keys u
  /\ exhausted_bucket_keys (fst (capture u k idx)) = exhausted_bucket_keys u.
Proof.
  unfold capture. repeat break_match; simpl; repeat split.
Qed.

Lemma swap_rounds_frame (u : t) :
  same_frame u (swap_rounds u)
  /\ _aspect_ratio_buckets (swap_rounds u) = _aspect_ratio_buckets u
  /\ original_buckets (swap_rounds u) = original_buckets u
  /\ _aspect_ratio_count (swap_rounds u) = _aspect_ratio_count u.
Proof.
  unfold swap_rounds. break_match; simpl; repeat split.
Qed.

Lemma emit_frame (u : t) (k : pyfloat) :
  same_frame u (next (emit u k))
  /\ original_buckets (next (emit u k)) = original_buckets u
  /\ _aspect_ratio_count (next (emit u k)) = _aspect_ratio_count u.
Proof.
  unfold emit. repeat break_match; simpl; repeat split.
Qed.

Lemma step_frame (u : t) (idx : nat) :
  same_frame u (next (step float u idx)).
Proof.
  unfold step. destruct (resolve float u idx) as [k|e]; simpl;
    [|apply same_frame_refl].
  destruct (contains flt_eq k (all_available_keys u)); simpl;
    [|apply same_frame_refl].
  pose proof (capture_frame u k idx) as (F & _).
  destruct (capture u k idx) as [u1 [e|]]; simpl in *; [exact F|].
  eapply same_frame_trans; [exact F|].
  eapply same_frame_trans; [apply swap_rounds_frame|apply emit_frame].
Qed.

Lemma only_buckets_refl (u : t) : only_buckets u u.
Proof. unfold only_buckets. destruct u. reflexivity. Qed.

Lemma only_buckets_with (u u' : t) (b : list (pyfloat * list nat)) :
  only_buckets u u' -> only_buckets u (with_buckets u' b).
Proof. unfold only_buckets. intros ->. reflexivity. Qed.

Lemma refill_only_buckets (u u' : t) (key : pyfloat) (d : Draw) :
  only_buckets u u' -> only_buckets u (fst (refill u' key d)).
Proof.
  intro H. unfold refill.
  destruct (dict_get flt_eq key (original_buckets u')); cbn [fst];
    [apply only_buckets_with|]; exact H.
Qed.

Lemma trailing_step_only_buckets (u : t) (d : Draw) :
  only_buckets u (next (trailing_step u d)).
Proof.
  unfold trailing_step.
  destruct (choice d (all_available_keys u)) as [key|e]; cbn [next];
    [|apply only_buckets_refl].
  destruct (dict_get flt_eq key (_aspect_ratio_buckets u)) as [bucket|];
    cbn [next]; [|apply only_buckets_refl].
  destruct (batch_size u <=? length bucket).
  - destruct (skipn (batch_size u) bucket).
    + pose proof (refill_only_buckets u
                    (with_buckets u
                       (dict_set flt_eq key [] (_aspect_ratio_buckets u)))
                    key d) as R.
      destruct (refill _ key d) as [u2 e]. cbn [next fst] in *.
      apply R. apply only_buckets_with, only_buckets_refl.
    + cbn [next]. apply only_buckets_with, only_buckets_refl.
  - pose proof (refill_only_buckets u u key d (only_buckets_refl u)) as R.
    destruct (refill u key d) as [u2 e]. cbn [next fst] in *. exact R.
Qed.

Lemma trailing_step_frame (u : t) (d : Draw) :
  same_frame u (next (trailing_step u d))
  /\ original_buckets (next (trailing_step u d)) = original_buckets u
  /\ _aspect_ratio_count (next (trailing_step u d)) = _aspect_ratio_count u
  /\ current_available_bucket_keys (next (trailing_step u d))
     = current_available_bucket_keys u
  /\ exhausted_bucket_keys (next (trailing_step u d)) = exhausted_bucket_keys u.
Proof.
  pose proof (trailing_step_only_buckets u d) as H.
  unfold only_buckets in H. rewrite H. repeat split.
Qed.

Lemma resolve_frame (u u' : t) (idx : nat) :
  same_frame u u' -> resolve float u' idx = resolve float u idx.
Proof.
  intros (_ & Hg & _ & Ha & _). unfold resolve. rewrite Hg, Ha. reflexivity.
Qed.

Lemma streaming_frame (idxs : list nat) :
  forall u i, same_frame u (fst (final (streaming float u i idxs))).
Proof.
  induction idxs as [|idx rest IH]; intros u i; simpl.
  - apply same_frame_refl.
  - pose proof (step_frame u idx) as F.
    destruct (err (step float u idx)); simpl; [exact F|].
    eapply same_frame_trans; [exact F|apply IH].
Qed.

(** *** The quota *)

Lemma capture_quota (u : t) (k : pyfloat) (idx : nat) :
  within_quota u -> within_quota (fst (capture u k idx)).
Proof.
  unfold within_quota, capture. intro H.
  destruct (dict_get flt_eq k (_aspect_ratio_count u)) as [c|] eqn:Ec;
    [|exact H].
  destruct (dict_get flt_eq k (ratio_nums_gt u)) as [q|] eqn:Eq; [|exact H].
  destruct (c <? q)%Z eqn:Elt; [|exact H].
  apply Z.ltb_lt in Elt.
  assert (G : quota_ok (dict_set flt_eq k (c + 1)%Z (_aspect_ratio_count u))
                (ratio_nums_gt u)).
  { intros k' c' Hk'. destruct (flt_eq k' k) eqn:E.
    - apply flt_eq_iff in E. subst k'.
      rewrite (dict_get_set_same flt_eq flt_eq_iff) in Hk'.
      injection Hk' as <-. exists q. split; [exact Eq|lia].
    - rewrite (dict_get_set_other flt_eq flt_eq_iff) in Hk'.
      + apply H. exact Hk'.
      + intro E'. subst. rewrite flt_eq_refl in E. discriminate. }
  repeat break_match; simpl; exact G.
Qed.

Lemma step_quota (u : t) (idx : nat) :
  within_quota u -> within_quota (next (step float u idx)).
Proof.
  intro H. unfold step. destruct (resolve float u idx) as [k|e]; simpl;
    [|exact H].
  destruct (contains flt_eq k (all_available_keys u)); simpl; [|exact H].
  pose proof (capture_quota u k idx H) as Q.
  destruct (capture u k idx) as [u1 [e|]]; simpl in *; [exact Q|].
  unfold within_quota in *.
  destruct (emit_frame (swap_rounds u1) k) as ((_ & _ & _ & _ & N & _) & _ & C).
  destruct (swap_rounds_frame u1) as ((_ & _ & _ & _ & N' & _) & _ & _ & C').
  rewrite C, N, C', N'. exact Q.
Qed.

Lemma streaming_quota (idxs : list nat) :
  forall u i, within_quota u ->
              within_quota (fst (final (streaming float u i idxs))).
Proof.
  induction idxs as [|idx rest IH]; intros u i H; simpl; [exact H|].
  pose proof (step_quota u idx H) as Q.
  destruct (err (step float u idx)); simpl; [exact Q|]. apply IH. exact Q.
Qed.

Lemma trailing_quota (rnd : nat -> Draw) (n : nat) :
  forall it u, within_quota u -> within_quota (final (trailing rnd n it u)).
Proof.
  induction n as [|n IH]; intros it u H; simpl; [exact H|].
  assert (Q : within_quota (next (trailing_step u (rnd it)))).
  { unfold within_quota in *.
    destruct (trailing_step_frame u (rnd it))
      as ((_ & _ & _ & _ & N & _) & _ & C & _).
    rewrite C, N. exact H. }
  destruct (err (trailing_step u (rnd it))); simpl; [exact Q|].
  apply IH. exact Q.
Qed.

Lemma init_fields (smp : list nat) (info : nat -> DataInfo) (bs : Z)
    (table : list (string * list pyfloat)) (dl : bool)
    (nums : option (list (pyfloat * Z))) (s : t) :
  __init__ float smp info bs table dl nums = Ok s ->
  exists nums',
    nums = Some nums' /\ nums' <> [] /\ (0 < bs)%Z
    /\ s = mk smp info (Z.to_nat bs) table dl nums'
             (dict_fromkeys flt_eq (map float (dict_keys table)) [])
             (dict_fromkeys flt_eq
                (map fst (filter (fun kv => (3000 <=? snd kv)%Z) nums')) [])
             (map fst (filter (fun kv => (3000 <=? snd kv)%Z) nums'))
             (map fst (filter (fun kv => (3000 <=? snd kv)%Z) nums'))
             []
             (length smp / Z.to_nat bs)
             (dict_fromkeys flt_eq
                (map fst (filter (fun kv => (3000 <=? snd kv)%Z) nums')) 0%Z).
Proof.
  unfold __init__. destruct (bs <=? 0)%Z eqn:E; [discriminate|].
  apply Z.leb_gt in E.
  destruct nums as [[|kv nums']|]; try discriminate.
  intro H. injection H as <-. exists (kv :: nums').
  split; [reflexivity|]. split; [discriminate|]. split; [exact E|reflexivity].
Qed.

Lemma init_quota (smp : list nat) (info : nat -> DataInfo) (bs : Z)
    (table : list (string * list pyfloat)) (dl : bool)
    (nums : list (pyfloat * Z)) (s : t) :
  __init__ float smp info bs table dl (Some nums) = Ok s ->
  NoDup (dict_keys nums) ->
  within_quota s.
Proof.
  intros Hinit Hnd.
  destruct (init_fields _ _ _ _ _ _ _ Hinit) as (nums' & E & _ & _ & ->).
  injection E as <-.
  unfold within_quota. simpl. intros k c Hk.
  destruct (dict_fromkeys_spec flt_eq flt_eq_iff 0%Z
              (map fst (filter (fun kv => (3000 <=? snd kv)%Z) nums)))
    as (F1 & F2 & _).
  apply (dict_get_In flt_eq flt_eq_iff) in Hk.
  pose proof (F1 _ _ Hk) as ->.
  assert (Hin : In k (map fst (filter (fun kv => (3000 <=? snd kv)%Z) nums))).
  { apply F2. change k with (fst (k, 0%Z)). apply in_map. exact Hk. }
  apply in_map_iff in Hin. destruct Hin as ([k' q] & Hfst & Hf).
  simpl in Hfst. subst k'. apply filter_In in Hf. destruct Hf as (Hq & Hge).
  simpl in Hge. apply Z.leb_le in Hge.
  exists q. split; [|lia].
  apply (In_dict_get flt_eq flt_eq_iff); assumption.
Qed.
End Facts.
End BalancedFacts.

(** ** [BalancedAspectRatioBatchSampler]: buckets longer than a batch *)

Module BalancedLong.
Import BalancedAspectRatioBatchSampler BalancedPreds BalancedFacts.

Section Long.
Variable float : string -> pyfloat.

Lemma flt_neq (a b : pyfloat) : flt_eq a b = false -> a <> b.
Proof. intros H E. subst. rewrite flt_eq_refl in H. discriminate. Qed.

(** The capture only ever appends to the bucket of the key it is given. *)
Lemma capture_bucket (u : t) (c k : pyfloat) (idx : nat) (b : list nat) :
  dict_get flt_eq k (_aspect_ratio_buckets u) = Some b ->
  exists b',
    dict_get flt_eq k (_aspect_ratio_buckets (fst (capture u c idx))) = Some b'
    /\ length b <= length b'.
Proof.
  intro Hb. unfold capture.
  destruct (dict_get flt_eq c (_aspect_ratio_count u)) as [n|];
    [|exists b; auto].
  destruct (dict_get flt_eq c (ratio_nums_gt u)) as [q|]; [|exists b; auto].
  destruct (n <? q)%Z; [|exists b; auto].
  cbn [with_count _aspect_ratio_buckets].
  destruct (dict_get flt_eq c (_aspect_ratio_buckets u)) as [b0|] eqn:Eb0;
    [|exists b; auto].
  assert (G : exists b',
             dict_get flt_eq k
               (dict_set flt_eq c (b0 ++ [idx]) (_aspect_ratio_buckets u))
             = Some b' /\ length b <= length b').
  { destruct (flt_eq k c) eqn:E.
    - apply flt_eq_iff in E. subst c.
      rewrite (dict_get_set_same flt_eq flt_eq_iff).
      exists (b0 ++ [idx]). split; [reflexivity|].
      assert (b0 = b) by congruence. subst. rewrite length_app. lia.
    - rewrite (dict_get_set_other flt_eq flt_eq_iff) by (apply flt_neq; exact E).
      exists b. auto. }
  break_match;
    cbn [fst with_original with_buckets with_count _aspect_ratio_buckets];
    exact G.
Qed.

(** A bucket longer than a batch is not emitted and not written by the
    emission block. *)
Lemma emit_long (u : t) (c k : pyfloat) (b : list nat) :
  dict_get flt_eq k (_aspect_ratio_buckets u) = Some b ->
  batch_size u < length b ->
  dict_get flt_eq k (_aspect_ratio_buckets (next (emit u c))) = Some b
  /\ (c = k -> out (emit u c) = None).
Proof.
  intros Hb Hlong. unfold emit.
  destruct (contains flt_eq c (current_available_bucket_keys u)); cbn;
    [|auto].
  destruct (dict_get flt_eq c (_aspect_ratio_buckets u)) as [b0|] eqn:Eb0;
    cbn; [|auto].
  destruct (length b0 =? batch_size u) eqn:Elen; cbn; [|auto].
  apply Nat.eqb_eq in Elen.
  destruct (flt_eq k c) eqn:E.
  - apply flt_eq_iff in E. subst c. assert (b0 = b) by congruence. subst.
    lia.
  - rewrite (dict_get_set_other flt_eq flt_eq_iff) by (apply flt_neq; exact E).
    split; [exact Hb|]. intros ->. rewrite flt_eq_refl in E. discriminate.
Qed.

Lemma step_long (u : t) (idx : nat) (k : pyfloat) (b : list nat) :
  dict_get flt_eq k (_aspect_ratio_buckets u) = Some b ->
  batch_size u < length b ->
  (exists b',
      dict_get flt_eq k (_aspect_ratio_buckets (next (step float u idx)))
      = Some b'
      /\ batch_size u < length b')
  /\ (resolve float u idx = Ok k -> out (step float u idx) = None).
Proof.
  intros Hb Hlong. unfold step.
  destruct (resolve float u idx) as [c|e]; cbn; [|split; [eauto|discriminate]].
  destruct (contains flt_eq c (all_available_keys u)); cbn; [|eauto].
  destruct (capture_bucket u c k idx b Hb) as (b1 & Hb1 & Hle).
  destruct (capture_frame u c idx) as ((_ & _ & Hbs & _) & _).
  destruct (capture u c idx) as [u1 [e|]]; cbn in *.
  - split; [|reflexivity]. exists b1. split; [exact Hb1|lia].
  - destruct (swap_rounds_frame u1) as ((_ & _ & Hbs' & _) & Hbk & _).
    destruct (emit_long (swap_rounds u1) c k b1) as (E1 & E2).
    + rewrite Hbk. exact Hb1.
    + rewrite Hbs', Hbs. lia.
    + split.
      * exists b1. split; [exact E1|lia].
      * intro H. injection H as ->. apply E2. reflexivity.
Qed.

Lemma streaming_long (k : pyfloat) (idxs : list nat) :
  forall u i b,
    dict_get flt_eq k (_aspect_ratio_buckets u) = Some b ->
    batch_size u < length b ->
    exists b',
      dict_get flt_eq k
        (_aspect_ratio_buckets (fst (final (streaming float u i idxs))))
      = Some b'
      /\ batch_size u < length b'.
Proof.
  induction idxs as [|idx rest IH]; intros u i b Hb Hlong; cbn.
  - exists b. auto.
  - destruct (step_long u idx k b Hb Hlong) as ((b1 & Hb1 & Hl1) & _).
    destruct (step_frame float u idx) as (_ & _ & Hbs & _).
    destruct (err (step float u idx)); cbn.
    + exists b1. auto.
    + destruct (IH (next (step float u idx))
                  (match out (step float u idx) with
                   | Some _ => S i
                   | None => i
                   end) b1 Hb1) as (b2 & Hb2 & Hl2).
      * rewrite Hbs. exact Hl1.
      * exists b2. split; [exact Hb2|]. rewrite <- Hbs. exact Hl2.
Qed.

(** A yield of the first loop is the whole bucket of the resolved key, at
    the moment it holds exactly [batch_size] indices. *)
Lemma step_out_exact (u : t) (idx : nat) (b : list nat) :
  out (step float u idx) = Some b ->
  length b = batch_size u
  /\ exists k u1,
       resolve float u idx = Ok k
       /\ capture u k idx = (u1, None)
       /\ dict_get flt_eq k (_aspect_ratio_buckets u1) = Some b.
Proof.
  unfold step. destruct (resolve float u idx) as [c|e]; cbn; [|discriminate].
  destruct (contains flt_eq c (all_available_keys u)); cbn; [|discriminate].
  destruct (capture_frame u c idx) as ((_ & _ & Hbs & _) & _).
  destruct (capture u c idx) as [u1 [e|]] eqn:Ecap; cbn in *; [discriminate|].
  destruct (swap_rounds_frame u1) as ((_ & _ & Hbs' & _) & Hbk & _).
  unfold emit. rewrite Hbk, Hbs'.
  destruct (contains flt_eq c (current_available_bucket_keys (swap_rounds u1)));
    cbn; [|discriminate].
  destruct (dict_get flt_eq c (_aspect_ratio_buckets u1)) as [b0|] eqn:Eb0;
    cbn; [|discriminate].
  destruct (length b0 =? batch_size u1) eqn:Elen; cbn; [|discriminate].
  apply Nat.eqb_eq in Elen. rewrite <- Elen, firstn_all.
  intro H. injection H as <-. split; [congruence|].
  exists c, u1. auto.
Qed.

(** While its key is neither available nor capped, an index is captured
    and nothing is yielded. *)
Lemma step_grows (u : t) (idx : nat) (k : pyfloat) (c q : Z) (b o : list nat) :
  resolve float u idx = Ok k ->
  contains flt_eq k (all_available_keys u) = true ->
  current_available_bucket_keys u <> [] ->
  contains flt_eq k (current_available_bucket_keys u) = false ->
  dict_get flt_eq k (_aspect_ratio_count u) = Some c ->
  dict_get flt_eq k (ratio_nums_gt u) = Some q ->
  (c < q)%Z ->
  dict_get flt_eq k (_aspect_ratio_buckets u) = Some b ->
  dict_get flt_eq k (original_buckets u) = Some o ->
  out (step float u idx) = None
  /\ err (step float u idx) = None
  /\ dict_get flt_eq k (_aspect_ratio_buckets (next (step float u idx)))
     = Some (b ++ [idx]).
Proof.
  intros Hres Hall Hne Hcur Hc Hq Hlt Hb Ho.
  unfold step. rewrite Hres, Hall. fields.
  unfold capture. rewrite Hc, Hq.
  apply Z.ltb_lt in Hlt. rewrite Hlt. fields. rewrite Hb. fields.
  rewrite Ho. fields.
  unfold swap_rounds. fields.
  destruct (current_available_bucket_keys u) as [|a l] eqn:Ecur;
    [congruence|].
  unfold emit. fields. rewrite Ecur, Hcur. fields.
  repeat split. apply (dict_get_set_same flt_eq flt_eq_iff).
Qed.
End Long.
End BalancedLong.

(** ** [BalancedAspectRatioBatchSampler]: the quota and the rounds *)

Import BalancedAspectRatioBatchSampler BalancedPreds BalancedFacts.

(** X7. On a constructed instance every running count is at most the quota
    of its key, after every index the first loop processes and when the pass
    is over. The capture block either leaves the instance as it is, or found
    the count strictly below the quota and raised it by one. *)
Theorem balanced_count_within_quota :
  forall (float : string -> pyfloat) smp info bs table dl nums s,
    __init__ float smp info bs table dl (Some nums) = Ok s ->
    NoDup (dict_keys nums) ->
    (forall idxs, within_quota (state_after float s idxs))
    /\ (forall rnd, within_quota (final (__iter__ float rnd s)))
    /\ (forall u k idx,
          fst (capture u k idx) = u
          \/ exists c q,
               dict_get flt_eq k (_aspect_ratio_count u) = Some c
               /\ dict_get flt_eq k (ratio_nums_gt u) = Some q
               /\ (c < q)%Z
               /\ dict_get flt_eq k (_aspect_ratio_count (fst (capture u k idx)))
                  = Some (c + 1)%Z).
Proof.
  intros float smp info bs table dl nums s Hinit Hnd.
  pose proof (init_quota float _ _ _ _ _ _ _ Hinit Hnd) as H0.
  split; [|split].
  - intro idxs. apply streaming_quota. exact H0.
  - intro rnd. unfold __iter__.
    pose proof (streaming_quota float (sampler s) s 0 H0) as H1.
    destruct (stopped (streaming float s 0 (sampler s))); cbn [final];
      try exact H1.
    apply trailing_quota. exact H1.
  - intros u k idx. unfold capture.
    destruct (dict_get flt_eq k (_aspect_ratio_count u)) as [c|] eqn:Ec;
      [|left; reflexivity].
    destruct (dict_get flt_eq k (ratio_nums_gt u)) as [q|] eqn:Eq;
      [|left; reflexivity].
    destruct (c <? q)%Z eqn:Elt; [|left; reflexivity].
    right. exists c, q. apply Z.ltb_lt in Elt.
    split; [reflexivity|]. split; [reflexivity|]. split; [exact Elt|].
    repeat break_match; simpl;
      apply (dict_get_set_same flt_eq flt_eq_iff).
Qed.

Lemma half_not_one : BalancedScenario.half <> BalancedScenario.one.
Proof.
  intro H. apply flt_eq_iff in H. vm_compute in H. discriminate.
Qed.

Lemma nums_both_nodup : NoDup (dict_keys BalancedScenario.nums_both).
Proof.
  repeat constructor; simpl; [|tauto].
  intros [H|[]]. apply half_not_one. symmetry. exact H.
Qed.

Lemma balanced_count_within_quota_witness :
  __init__ decimal [0; 1; 2]
    (BalancedScenario.infos
       [BalancedScenario.tall; BalancedScenario.tall; BalancedScenario.tall])
    1 BalancedScenario.table2 false (Some BalancedScenario.nums_both)
  = Ok (BalancedScenario.built BalancedScenario.growing)
  /\ NoDup (dict_keys BalancedScenario.nums_both)
  /\ within_quota
       (state_after decimal (BalancedScenario.built BalancedScenario.growing)
          [0; 1; 2]).
Proof.
  assert (Hinit : __init__ decimal [0; 1; 2]
                    (BalancedScenario.infos
                       [BalancedScenario.tall; BalancedScenario.tall;
                        BalancedScenario.tall])
                    1 BalancedScenario.table2 false
                    (Some BalancedScenario.nums_both)
                  = Ok (BalancedScenario.built BalancedScenario.growing))
    by (vm_compute; reflexivity).
  split; [exact Hinit|]. split; [exact nums_both_nodup|].
  exact (proj1 (balanced_count_within_quota decimal _ _ _ _ _ _ _
                  Hinit nums_both_nodup) [0; 1; 2]).
Defined.

(** C7, as stated, at a reachable state where no swap is made: with
    [batch_size = 1] and only 0.5 qualifying, index 0 (ratio 0.5) yields a
    batch and leaves the available list empty and 0.5 exhausted; index 1
    resolves to 1.0, which does not qualify, and the iteration ends at the
    first [continue]: the available list is still empty and the exhausted
    list still holds 0.5. *)
Lemma C7_no_swap_for_skipped_index_counterexample :
  BalancedScenario.skipping = Ok (BalancedScenario.built BalancedScenario.skipping)
  /\ let u := state_after decimal
                (BalancedScenario.built BalancedScenario.skipping) [0] in
     current_available_bucket_keys u = []
     /\ map this (exhausted_bucket_keys u) = [(1 # 2)%Q]
     /\ contains flt_eq (decimal "1.0") (all_available_keys u) = false
     /\ option_map this
          (match resolve decimal u 1 with Ok k => Some k | Raise _ => None end)
        = Some 1%Q
     /\ current_available_bucket_keys (next (step decimal u 1)) = []
     /\ map this (exhausted_bucket_keys (next (step decimal u 1))) = [(1 # 2)%Q].
Proof.
  split; [vm_compute; reflexivity|]. cbv zeta.
  repeat split; vm_compute; reflexivity.
Qed.

(** X8. An index whose key does not qualify leaves the instance as
    it is: no swap is made for it. For an index whose key qualifies, whether
    or not the count of that key has reached its quota, an empty available
    list is replaced by the exhausted list, and the exhausted list is emptied,
    before the emission test: afterwards either nothing was yielded and the
    available list is the former exhausted list, or a batch was yielded, the
    key was removed from the former exhausted list and is the only exhausted
    key. *)
Theorem balanced_swap_only_for_qualifying_key :
  forall (float : string -> pyfloat) u idx k,
    resolve float u idx = Ok k ->
    (contains flt_eq k (all_available_keys u) = false ->
     step float u idx = mkStep None u None)
    /\ (contains flt_eq k (all_available_keys u) = true ->
        current_available_bucket_keys u = [] ->
        err (step float u idx) = None ->
        let r := step float u idx in
        (out r = None
         /\ current_available_bucket_keys (next r) = exhausted_bucket_keys u
         /\ exhausted_bucket_keys (next r) = [])
        \/ (out r <> None
            /\ current_available_bucket_keys (next r)
               = list_remove flt_eq k (exhausted_bucket_keys u)
            /\ exhausted_bucket_keys (next r) = [k])).
Proof.
  intros float u idx k Hres. unfold step. rewrite Hres. split.
  - intros ->. reflexivity.
  - intros -> Hcur. fields.
    destruct (capture_frame u k idx) as (_ & Hc & He).
    destruct (capture u k idx) as [u1 [e|]]; fields; cbn [fst] in Hc, He;
      [discriminate|].
    unfold swap_rounds. rewrite Hc, Hcur. unfold emit. fields. rewrite He.
    destruct (contains flt_eq k (exhausted_bucket_keys u)); fields;
      [|intros _; left; auto].
    destruct (dict_get flt_eq k (_aspect_ratio_buckets u1)) as [bucket|];
      fields; [|discriminate].
    destruct (length bucket =? batch_size u1); fields; intros _.
    + right. split; [discriminate|]. auto.
    + left. auto.
Qed.

Lemma balanced_swap_only_for_qualifying_key_witness :
  let u := state_after decimal
             (BalancedScenario.built BalancedScenario.skipping) [0] in
  resolve decimal u 0 = Ok (decimal "0.5")
  /\ contains flt_eq (decimal "0.5") (all_available_keys u) = true
  /\ current_available_bucket_keys u = []
  /\ err (step decimal u 0) = None
  /\ ((out (step decimal u 0) = None
       /\ current_available_bucket_keys (next (step decimal u 0))
          = exhausted_bucket_keys u
       /\ exhausted_bucket_keys (next (step decimal u 0)) = [])
      \/ (out (step decimal u 0) <> None
          /\ current_available_bucket_keys (next (step decimal u 0))
             = list_remove flt_eq (decimal "0.5") (exhausted_bucket_keys u)
          /\ exhausted_bucket_keys (next (step decimal u 0)) = [decimal "0.5"])).
Proof.
  cbv zeta.
  assert (H1 : resolve decimal
                 (state_after decimal
                    (BalancedScenario.built BalancedScenario.skipping) [0]) 0
               = Ok (decimal "0.5")) by (vm_compute; reflexivity).
  assert (H2 : contains flt_eq (decimal "0.5")
                 (all_available_keys
                    (state_after decimal
                       (BalancedScenario.built BalancedScenario.skipping) [0]))
               = true) by (vm_compute; reflexivity).
  assert (H3 : current_available_bucket_keys
                 (state_after decimal
                    (BalancedScenario.built BalancedScenario.skipping) [0])
               = []) by (vm_compute; reflexivity).
  assert (H4 : err (step decimal
                      (state_after decimal
                         (BalancedScenario.built BalancedScenario.skipping) [0])
                      0) = None) by (vm_compute; reflexivity).
  split; [exact H1|]. split; [exact H2|]. split; [exact H3|].
  split; [exact H4|].
  exact (proj2 (balanced_swap_only_for_qualifying_key decimal _ 0 _ H1) H2 H3 H4).
Defined.

(** ** More on [BalancedAspectRatioBatchSampler] *)

Import BalancedLong.

(** X9. The constructor of the balanced sampler raises ValueError when
    [batch_size] is not positive; otherwise AssertionError when [ratio_nums]
    is missing or empty; otherwise it returns an instance whose qualifying
    keys are the keys of [ratio_nums] with a quota of at least 3000, in the
    order of [ratio_nums], all of them available and none exhausted, with
    [total_batches = len(sampler) // batch_size], the other arguments stored
    as given, a count of zero and an empty snapshot for each qualifying key,
    and an empty live bucket under the float of each key of the table. *)
Theorem balanced_init_outcome :
  forall (float : string -> pyfloat) smp info bs table dl nums,
    ((bs <= 0)%Z ->
     __init__ float smp info bs table dl nums = Raise ValueError)
    /\ ((0 < bs)%Z -> nums = None \/ nums = Some [] ->
        __init__ float smp info bs table dl nums = Raise AssertionError)
    /\ ((0 < bs)%Z ->
        forall q, nums = Some q -> q <> [] ->
        exists s,
          __init__ float smp info bs table dl nums = Ok s
          /\ all_available_keys s
             = map fst (filter (fun kv => (3000 <=? snd kv)%Z) q)
          /\ (forall k, In k (all_available_keys s)
                        <-> exists v, In (k, v) q /\ (3000 <= v)%Z)
          /\ current_available_bucket_keys s = all_available_keys s
          /\ exhausted_bucket_keys s = []
          /\ Z.of_nat (batch_size s) = bs
          /\ total_batches s = length smp / batch_size s
          /\ ratio_nums_gt s = q
          /\ aspect_ratios s = table
          /\ sampler s = smp /\ get_data_info s = info /\ drop_last s = dl
          /\ (forall k, In k (dict_keys (_aspect_ratio_count s))
                        <-> In k (all_available_keys s))
          /\ (forall k c, In (k, c) (_aspect_ratio_count s) -> c = 0%Z)
          /\ (forall k, In k (dict_keys (original_buckets s))
                        <-> In k (all_available_keys s))
          /\ (forall k o, In (k, o) (original_buckets s) -> o = [])
          /\ (forall k, In k (dict_keys (_aspect_ratio_buckets s))
                        <-> In k (map float (dict_keys table)))
          /\ (forall k b, In (k, b) (_aspect_ratio_buckets s) -> b = [])).
Proof.
  intros float smp info bs table dl nums. unfold __init__.
  split; [|split].
  - intro H. apply Z.leb_le in H. rewrite H. reflexivity.
  - intros H Hn. assert (E : (bs <=? 0)%Z = false) by (apply Z.leb_gt; exact H).
    rewrite E. destruct Hn as [-> | ->]; reflexivity.
  - intros H q -> Hq.
    assert (E : (bs <=? 0)%Z = false) by (apply Z.leb_gt; exact H).
    rewrite E. destruct q as [|kv q]; [congruence|].
    eexists. split; [reflexivity|]. fields.
    set (keys := map fst (filter (fun kv0 => (3000 <=? snd kv0)%Z) (kv :: q))).
    destruct (dict_fromkeys_spec flt_eq flt_eq_iff 0%Z keys) as (C1 & C2 & _).
    destruct (dict_fromkeys_spec flt_eq flt_eq_iff ([] : list nat) keys)
      as (O1 & O2 & _).
    destruct (dict_fromkeys_spec flt_eq flt_eq_iff ([] : list nat)
                (map float (dict_keys table))) as (B1 & B2 & _).
    split; [reflexivity|]. split.
    { intro k. unfold keys. rewrite in_map_iff. split.
      - intros ([k' v] & Hk & Hf). cbn in Hk. subst k'.
        apply filter_In in Hf. destruct Hf as (Hin & Hv). cbn in Hv.
        exists v. split; [exact Hin|]. apply Z.leb_le. exact Hv.
      - intros (v & Hin & Hv). exists (k, v). split; [reflexivity|].
        apply filter_In. split; [exact Hin|]. cbn. apply Z.leb_le. exact Hv. }
    split; [reflexivity|]. split; [reflexivity|].
    split; [apply Z2Nat.id; lia|]. split; [reflexivity|].
    split; [reflexivity|]. split; [reflexivity|]. split; [reflexivity|].
    split; [reflexivity|]. split; [reflexivity|].
    split; [exact C2|]. split; [exact C1|].
    split; [exact O2|]. split; [exact O1|].
    split; [exact B2|exact B1].
Qed.

Lemma balanced_init_outcome_witness :
  (0 < 1)%Z
  /\ BalancedScenario.nums_half <> []
  /\ exists s,
       __init__ decimal [0; 1]
         (BalancedScenario.infos [BalancedScenario.tall; BalancedScenario.square])
         1 BalancedScenario.table2 false (Some BalancedScenario.nums_half) = Ok s
       /\ all_available_keys s = [BalancedScenario.half]
       /\ total_batches s = 2 / batch_size s.
Proof.
  assert (H : (0 < 1)%Z) by lia.
  assert (Hq : BalancedScenario.nums_half <> []) by discriminate.
  split; [exact H|]. split; [exact Hq|].
  destruct (proj2 (proj2 (balanced_init_outcome decimal [0; 1]
                            (BalancedScenario.infos
                               [BalancedScenario.tall; BalancedScenario.square])
                            1%Z BalancedScenario.table2 false
                            (Some BalancedScenario.nums_half)))
              H BalancedScenario.nums_half eq_refl Hq)
    as (s & Hs & Hall & _ & _ & _ & _ & Htot & _).
  exists s. split; [exact Hs|]. split; [exact Hall|exact Htot].
Defined.

(** X10. In the first loop of the balanced sampler a yield is the whole
    bucket of the resolved key at the moment it holds exactly [batch_size]
    indices. A bucket that holds more than [batch_size] indices stays longer
    than [batch_size] for the rest of the loop, and no index that resolves to
    its key makes the loop yield. *)
Theorem balanced_overfull_bucket_never_yields :
  forall (float : string -> pyfloat) (u : t),
    (forall idx b,
        out (step float u idx) = Some b ->
        length b = batch_size u
        /\ exists k u1,
             resolve float u idx = Ok k
             /\ capture u k idx = (u1, None)
             /\ dict_get flt_eq k (_aspect_ratio_buckets u1) = Some b)
    /\ (forall k b,
          dict_get flt_eq k (_aspect_ratio_buckets u) = Some b ->
          batch_size u < length b ->
          forall idxs,
            (exists b',
                dict_get flt_eq k
                  (_aspect_ratio_buckets (state_after float u idxs)) = Some b'
                /\ batch_size u < length b')
            /\ forall pre idx post,
                 idxs = pre ++ idx :: post ->
                 resolve float u idx = Ok k ->
                 out (step float (state_after float u pre) idx) = None).
Proof.
  intros float u. split.
  - intros idx b. apply step_out_exact.
  - intros k b Hb Hlong idxs. split.
    + apply (streaming_long float k idxs u 0 b Hb Hlong).
    + intros pre idx post _ Hres.
      destruct (streaming_long float k pre u 0 b Hb Hlong) as (b' & Hb' & Hl').
      pose proof (streaming_frame float pre u 0) as F.
      fold (state_after float u pre) in Hb', F.
      destruct (step_long float (state_after float u pre) idx k b' Hb')
        as (_ & Hout).
      * destruct F as (_ & _ & Hbs & _). rewrite Hbs. exact Hl'.
      * apply Hout. rewrite (resolve_frame float u _ idx F). exact Hres.
Qed.

Lemma balanced_overfull_bucket_never_yields_witness :
  let u := state_after decimal
             (BalancedScenario.built BalancedScenario.growing) [0; 1; 2] in
  dict_get flt_eq BalancedScenario.half (_aspect_ratio_buckets u) = Some [1; 2]
  /\ batch_size u < length [1; 2]
  /\ resolve decimal u 0 = Ok (decimal "0.5")
  /\ out (step decimal (state_after decimal u [1]) 0) = None.
Proof.
  cbv zeta.
  set (u := state_after decimal
              (BalancedScenario.built BalancedScenario.growing) [0; 1; 2]).
  assert (Hb : dict_get flt_eq BalancedScenario.half (_aspect_ratio_buckets u)
               = Some [1; 2]) by (vm_compute; reflexivity).
  assert (Hl : batch_size u < length [1; 2]) by (vm_compute; lia).
  assert (Hr : resolve decimal u 0 = Ok (decimal "0.5"))
    by (vm_compute; reflexivity).
  assert (Hr' : resolve decimal u 0 = Ok BalancedScenario.half).
  { rewrite Hr. f_equal. apply flt_eq_iff. vm_compute. reflexivity. }
  split; [exact Hb|]. split; [exact Hl|]. split; [exact Hr|].
  exact (proj2 (proj2 (balanced_overfull_bucket_never_yields decimal u)
                  BalancedScenario.half [1; 2] Hb Hl [1; 0])
           [1] 0 [] eq_refl Hr').
Defined.

(** X11. While a qualifying key is not in the non-empty available list and
    its count is below its quota, an index that resolves to it is appended to
    its live bucket and nothing is yielded, so the bucket can outgrow
    [batch_size]. *)
Theorem balanced_capture_while_not_available :
  forall (float : string -> pyfloat) (u : t) (idx : nat) (k : pyfloat)
         (c q : Z) (b o : list nat),
    resolve float u idx = Ok k ->
    contains flt_eq k (all_available_keys u) = true ->
    current_available_bucket_keys u <> [] ->
    contains flt_eq k (current_available_bucket_keys u) = false ->
    dict_get flt_eq k (_aspect_ratio_count u) = Some c ->
    dict_get flt_eq k (ratio_nums_gt u) = Some q ->
    (c < q)%Z ->
    dict_get flt_eq k (_aspect_ratio_buckets u) = Some b ->
    dict_get flt_eq k (original_buckets u) = Some o ->
    out (step float u idx) = None
    /\ err (step float u idx) = None
    /\ dict_get flt_eq k (_aspect_ratio_buckets (next (step float u idx)))
       = Some (b ++ [idx])
    /\ dict_get flt_eq k (original_buckets (next (step float u idx)))
       = Some (o ++ [idx])
    /\ dict_get flt_eq k (_aspect_ratio_count (next (step float u idx)))
       = Some (c + 1)%Z.
Proof.
  intros float u idx k c q b o Hres Hall Hne Hcur Hc Hq Hlt Hb Ho.
  destruct (step_grows float u idx k c q b o Hres Hall Hne Hcur Hc Hq Hlt Hb Ho)
    as (G1 & G2 & G3).
  split; [exact G1|]. split; [exact G2|]. split; [exact G3|].
  unfold step. rewrite Hres, Hall. fields.
  unfold capture. rewrite Hc, Hq.
  apply Z.ltb_lt in Hlt. rewrite Hlt. fields. rewrite Hb. fields.
  rewrite Ho. fields.
  unfold swap_rounds. fields.
  destruct (current_available_bucket_keys u) as [|a l] eqn:Ecur;
    [congruence|].
  unfold emit. fields. rewrite Ecur, Hcur. fields.
  split; apply (dict_get_set_same flt_eq flt_eq_iff).
Qed.

Lemma balanced_capture_while_not_available_witness :
  let u := state_after decimal
             (BalancedScenario.built BalancedScenario.growing) [0; 1] in
  resolve decimal u 2 = Ok (decimal "0.5")
  /\ dict_get flt_eq (decimal "0.5")
       (_aspect_ratio_buckets (next (step decimal u 2))) = Some ([1] ++ [2])
  /\ batch_size u < length ([1] ++ [2]).
Proof.
  cbv zeta.
  set (u := state_after decimal
              (BalancedScenario.built BalancedScenario.growing) [0; 1]).
  assert (Hr : resolve decimal u 2 = Ok (decimal "0.5"))
    by (vm_compute; reflexivity).
  assert (H1 : contains flt_eq (decimal "0.5") (all_available_keys u) = true)
    by (vm_compute; reflexivity).
  assert (H2 : current_available_bucket_keys u <> [])
    by (vm_compute; discriminate).
  assert (H3 : contains flt_eq (decimal "0.5") (current_available_bucket_keys u)
               = false) by (vm_compute; reflexivity).
  assert (H4 : dict_get flt_eq (decimal "0.5") (_aspect_ratio_count u)
               = Some 2%Z) by (vm_compute; reflexivity).
  assert (H5 : dict_get flt_eq (decimal "0.5") (ratio_nums_gt u)
               = Some 3000%Z) by (vm_compute; reflexivity).
  assert (H6 : (2 < 3000)%Z) by lia.
  assert (H7 : dict_get flt_eq (decimal "0.5") (_aspect_ratio_buckets u)
               = Some [1]) by (vm_compute; reflexivity).
  assert (H8 : dict_get flt_eq (decimal "0.5") (original_buckets u)
               = Some [0; 1]) by (vm_compute; reflexivity).
  split; [exact Hr|]. split.
  - exact (proj1 (proj2 (proj2
             (balanced_capture_while_not_available decimal u 2 (decimal "0.5")
                2%Z 3000%Z [1] [0; 1] Hr H1 H2 H3 H4 H5 H6 H7 H8)))).
  - vm_compute. lia.
Defined.

(** X12. In the trailing loop, when the bucket of the drawn key holds fewer
    than [batch_size] indices, nothing is yielded and the bucket becomes the
    shuffled copy of the snapshot of the key, whatever it held: the outcome
    is the same for any other short content of that bucket. Nothing but that
    bucket is written, and when the shuffle permutes its argument the new
    bucket holds exactly the indices of the snapshot. *)
Theorem balanced_refill_replaces_bucket :
  forall (u : t) (d : Draw) (key : pyfloat) (bucket orig : list nat),
    choice d (all_available_keys u) = Ok key ->
    dict_get flt_eq key (_aspect_ratio_buckets u) = Some bucket ->
    length bucket < batch_size u ->
    dict_get flt_eq key (original_buckets u) = Some orig ->
    trailing_step u d
    = mkStep None
        (with_buckets u
           (dict_set flt_eq key (shuffle d orig) (_aspect_ratio_buckets u)))
        None
    /\ dict_get flt_eq key (_aspect_ratio_buckets (next (trailing_step u d)))
       = Some (shuffle d orig)
    /\ (forall other,
          length other < batch_size u ->
          trailing_step
            (with_buckets u (dict_set flt_eq key other (_aspect_ratio_buckets u)))
            d
          = trailing_step u d)
    /\ ((forall l, Permutation l (shuffle d l)) ->
        forall x, In x (shuffle d orig) <-> In x orig).
Proof.
  intros u d key bucket orig Hch Hb Hlen Ho.
  assert (Hleb : forall l : list nat, length l < batch_size u ->
                           (batch_size u <=? length l) = false)
    by (intros l Hl; apply Nat.leb_gt; exact Hl).
  assert (E : trailing_step u d
              = mkStep None
                  (with_buckets u
                     (dict_set flt_eq key (shuffle d orig)
                        (_aspect_ratio_buckets u))) None).
  { unfold trailing_step. rewrite Hch, Hb, (Hleb _ Hlen).
    unfold refill. rewrite Ho. reflexivity. }
  split; [exact E|]. split; [|split].
  - rewrite E. fields. apply (dict_get_set_same flt_eq flt_eq_iff).
  - intros other Hother. rewrite E. unfold trailing_step. fields.
    rewrite Hch, (dict_get_set_same flt_eq flt_eq_iff), (Hleb _ Hother).
    unfold refill. fields. rewrite Ho.
    rewrite (dict_set_set flt_eq flt_eq_iff). reflexivity.
  - intros Hperm x. split; intro H.
    + eapply Permutation_in; [apply Permutation_sym, Hperm|exact H].
    + eapply Permutation_in; [apply Hperm|exact H].
Qed.

Lemma balanced_refill_replaces_bucket_witness :
  let u := state_after decimal
             (BalancedScenario.built BalancedScenario.under) [0; 1] in
  let d := BalancedScenario.reversing in
  choice d (all_available_keys u) = Ok BalancedScenario.one
  /\ dict_get flt_eq BalancedScenario.one (_aspect_ratio_buckets u) = Some [1]
  /\ length [1] < batch_size u
  /\ dict_get flt_eq BalancedScenario.one (original_buckets u) = Some [1]
  /\ (forall l, Permutation l (shuffle d l))
  /\ out (trailing_step u d) = None
  /\ forall x, In x (shuffle d [1]) <-> In x [1].
Proof.
  cbv zeta.
  set (u := state_after decimal
              (BalancedScenario.built BalancedScenario.under) [0; 1]).
  assert (H1 : choice BalancedScenario.reversing (all_available_keys u)
               = Ok BalancedScenario.one) by (vm_compute; reflexivity).
  assert (H2 : dict_get flt_eq BalancedScenario.one (_aspect_ratio_buckets u)
               = Some [1]) by (vm_compute; reflexivity).
  assert (H3 : length [1] < batch_size u) by (vm_compute; lia).
  assert (H4 : dict_get flt_eq BalancedScenario.one (original_buckets u)
               = Some [1]) by (vm_compute; reflexivity).
  assert (H5 : forall l, Permutation l (shuffle BalancedScenario.reversing l))
    by (intro l; apply Permutation_rev).
  pose proof (balanced_refill_replaces_bucket u BalancedScenario.reversing
                BalancedScenario.one [1] [1] H1 H2 H3 H4) as (E & _ & _ & P).
  split; [exact H1|]. split; [exact H2|]. split; [exact H3|].
  split; [exact H4|]. split; [exact H5|]. split.
  - rewrite E. reflexivity.
  - exact (P H5).
Defined.

Lemma stored_set (k : pyfloat) (v b : list nat) (d : list (pyfloat * list nat)) :
  dict_get flt_eq k d = Some b ->
  length (concat (dict_values (dict_set flt_eq k v d))) + length b
  = length (concat (dict_values d)) + length v.
Proof.
  intro H.
  destruct (dict_get_split flt_eq flt_eq_iff _ _ _ H) as (d1 & d2 & -> & _ & Hs).
  rewrite Hs, !BasicFacts.values_split, !length_app. lia.
Qed.

Lemma capture_stored (u : t) (k : pyfloat) (idx : nat) :
  stored (fst (capture u k idx)) <= stored u + 1.
Proof.
  unfold capture, stored.
  destruct (dict_get flt_eq k (_aspect_ratio_count u)) as [c|]; fields; [|lia].
  destruct (dict_get flt_eq k (ratio_nums_gt u)) as [q|]; fields; [|lia].
  destruct (c <? q)%Z; fields; [|lia].
  destruct (dict_get flt_eq k (_aspect_ratio_buckets u)) as [b|] eqn:Eb;
    fields; [|lia].
  pose proof (stored_set k (b ++ [idx]) b _ Eb) as Hsz.
  rewrite length_app in Hsz. cbn [length] in Hsz.
  destruct (dict_get flt_eq k (original_buckets u)); fields; lia.
Qed.

Lemma emit_stored (u : t) (k : pyfloat) :
  stored (next (emit u k))
  + match out (emit u k) with Some _ => batch_size u | None => 0 end
  = stored u.
Proof.
  unfold emit, stored.
  destruct (contains flt_eq k (current_available_bucket_keys u)); fields; [|lia].
  destruct (dict_get flt_eq k (_aspect_ratio_buckets u)) as [b|] eqn:Eb;
    fields; [|lia].
  destruct (length b =? batch_size u) eqn:E; fields; [|lia].
  apply Nat.eqb_eq in E.
  pose proof (stored_set k (skipn (batch_size u) b) b _ Eb) as Hsz.
  rewrite length_skipn in Hsz. lia.
Qed.

Lemma step_stored (float : string -> pyfloat) (u : t) (idx : nat) :
  stored (next (step float u idx))
  + match out (step float u idx) with Some _ => batch_size u | None => 0 end
  <= stored u + 1.
Proof.
  unfold step. destruct (resolve float u idx) as [k|e]; fields; [|lia].
  destruct (contains flt_eq k (all_available_keys u)); fields; [|lia].
  pose proof (capture_stored u k idx) as C.
  destruct (capture_frame u k idx) as ((_ & _ & Hbs & _) & _).
  destruct (capture u k idx) as [u1 [e|]]; fields; cbn [fst] in C, Hbs; [lia|].
  pose proof (emit_stored (swap_rounds u1) k) as E.
  destruct (swap_rounds_frame u1) as ((_ & _ & Hbs' & _) & Hbk & _).
  assert (Hst : stored (swap_rounds u1) = stored u1)
    by (unfold stored; rewrite Hbk; reflexivity).
  rewrite Hst, Hbs', Hbs in E. lia.
Qed.

Lemma streaming_count (float : string -> pyfloat) (idxs : list nat) :
  forall u i,
    let r := streaming float u i idxs in
    snd (final r) = i + length (emitted r)
    /\ stored (fst (final r)) + batch_size u * length (emitted r)
       <= stored u + length idxs
    /\ forall b, In b (emitted r) -> length b = batch_size u.
Proof.
  induction idxs as [|idx rest IH]; intros u i; cbn [streaming].
  - cbn. split; [lia|]. split; [lia|]. intros b [].
  - pose proof (step_stored float u idx) as Hsz.
    pose proof (step_out_exact float u idx) as X.
    destruct (step_frame float u idx) as (_ & _ & Hbs & _).
    destruct (step float u idx) as [o u' e]. fields. cbn [out next] in *.
    destruct e as [e|]; cbn [emitted final stopped fst snd].
    + destruct o as [b|]; cbn [yielded length In].
      * split; [lia|]. split; [cbn [length]; lia|].
        intros b' [<-|[]]. apply (X b eq_refl).
      * split; [lia|]. split; [cbn [length]; lia|]. intros b' [].
    + destruct (IH u' (match o with Some _ => S i | None => i end))
        as (I1 & I2 & I3).
      rewrite Hbs in I2, I3. rewrite I1, length_app.
      destruct o as [b|]; cbn [yielded length In app].
      * split; [lia|]. split; [cbn [length]; lia|].
        intros b' [<-|H]; [apply (X b eq_refl)|apply I3; exact H].
      * split; [lia|]. split; [cbn [length]; lia|]. exact I3.
Qed.

Lemma trailing_step_out (u : t) (d : Draw) (b : list nat) :
  out (trailing_step u d) = Some b -> length b = batch_size u.
Proof.
  unfold trailing_step.
  destruct (choice d (all_available_keys u)) as [key|e]; fields; [|discriminate].
  destruct (dict_get flt_eq key (_aspect_ratio_buckets u)) as [bucket|];
    fields; [|discriminate].
  destruct (batch_size u <=? length bucket) eqn:E.
  - apply Nat.leb_le in E.
    assert (L : length (firstn (batch_size u) bucket) = batch_size u)
      by (apply firstn_length_le; exact E).
    destruct (skipn (batch_size u) bucket).
    + destruct (refill _ key d) as [u2 e]. fields.
      intro H. injection H as <-. exact L.
    + fields. intro H. injection H as <-. exact L.
  - destruct (refill u key d) as [u2 e]. fields. discriminate.
Qed.

Lemma trailing_count (rnd : nat -> Draw) (n : nat) :
  forall it u,
    length (emitted (trailing rnd n it u)) <= n
    /\ forall b, In b (emitted (trailing rnd n it u)) -> length b = batch_size u.
Proof.
  induction n as [|n IH]; intros it u; cbn [trailing].
  - cbn. split; [lia|]. intros b [].
  - pose proof (trailing_step_out u (rnd it)) as X.
    destruct (trailing_step_frame u (rnd it)) as ((_ & _ & Hbs & _) & _).
    destruct (trailing_step u (rnd it)) as [o u' e]. cbn [out next err] in *.
    destruct e as [e|]; cbn [emitted].
    + destruct o as [b|]; cbn [yielded length In].
      * split; [lia|]. intros b' [<-|[]]. apply (X b eq_refl).
      * split; [lia|]. intros b' [].
    + destruct (IH (S it) u') as (I1 & I2). rewrite Hbs in I2.
      rewrite length_app.
      destruct o as [b|]; cbn [yielded length In app].
      * split; [lia|].
        intros b' [<-|H]; [apply (X b eq_refl)|apply I2; exact H].
      * split; [lia|]. exact I2.
Qed.

Lemma empty_buckets_store_nothing {K : Type} (d : list (K * list nat)) :
  (forall k b, In (k, b) d -> b = []) ->
  length (concat (dict_values d)) = 0.
Proof.
  induction d as [|[k b] d IH]; intro H; [reflexivity|].
  cbn. rewrite (H k b) by (left; reflexivity). cbn.
  apply IH. intros k' b' Hin. eapply H. right. exact Hin.
Qed.

(** X13. A pass over a freshly constructed balanced sampler yields at most
    [len(sampler) // batch_size] batches, whatever is drawn and however the
    pass ends, and every batch it yields, in the first loop or in the trailing
    loop, holds exactly [batch_size] indices. The bound is not always
    reached: two indices of different keys with [batch_size = 2] give no batch
    although one is wanted. *)
Theorem balanced_pass_yields_at_most_total_batches :
  (forall (float : string -> pyfloat) rnd smp info bs table dl nums s,
      __init__ float smp info bs table dl nums = Ok s ->
      total_batches s = length smp / batch_size s
      /\ length (emitted (__iter__ float rnd s)) <= total_batches s
      /\ forall b, In b (emitted (__iter__ float rnd s)) ->
                   length b = batch_size s)
  /\ (total_batches (BalancedScenario.built BalancedScenario.under) = 1
      /\ emitted (__iter__ decimal (fun _ => BalancedScenario.keep)
                    (BalancedScenario.built BalancedScenario.under)) = []).
Proof.
  split; [|split; vm_compute; reflexivity].
  intros float rnd smp info bs table dl nums s Hinit.
  destruct (init_fields float _ _ _ _ _ _ _ Hinit) as (q & _ & _ & Hbs & Hs).
  assert (Hsmp : sampler s = smp) by (rewrite Hs; reflexivity).
  assert (Htot : total_batches s = length smp / batch_size s)
    by (rewrite Hs; reflexivity).
  assert (Hpos : 0 < batch_size s) by (rewrite Hs; fields; lia).
  assert (Hst : stored s = 0).
  { rewrite Hs. unfold stored. fields.
    destruct (dict_fromkeys_spec flt_eq flt_eq_iff ([] : list nat)
                (map float (dict_keys table))) as (F1 & _).
    apply empty_buckets_store_nothing. exact F1. }
  clear Hs Hinit. subst smp.
  split; [exact Htot|].
  destruct (streaming_count float (sampler s) s 0) as (I1 & I2 & I3).
  rewrite Hst in I2. cbn [Nat.add] in I1, I2.
  assert (Hle : length (emitted (streaming float s 0 (sampler s)))
                <= total_batches s).
  { rewrite Htot. apply Nat.div_le_lower_bound; lia. }
  unfold __iter__.
  destruct (stopped (streaming float s 0 (sampler s))); cbn [emitted];
    try (split; [exact Hle|exact I3]).
  destruct (trailing_count rnd
              (total_batches s - snd (final (streaming float s 0 (sampler s))))
              0 (fst (final (streaming float s 0 (sampler s)))))
    as (T1 & T2).
  destruct (streaming_frame float (sampler s) s 0) as (_ & _ & Hbs' & _).
  rewrite Hbs' in T2. rewrite length_app. split; [lia|].
  intros b Hb. apply in_app_or in Hb. destruct Hb; auto.
Qed.

Lemma balanced_pass_yields_at_most_total_batches_witness :
  __init__ decimal [0; 1; 2]
    (BalancedScenario.infos
       [BalancedScenario.tall; BalancedScenario.tall; BalancedScenario.tall])
    1 BalancedScenario.table2 false (Some BalancedScenario.nums_both)
  = Ok (BalancedScenario.built BalancedScenario.growing)
  /\ length (emitted (__iter__ decimal (fun _ => BalancedScenario.keep)
                        (BalancedScenario.built BalancedScenario.growing)))
     <= total_batches (BalancedScenario.built BalancedScenario.growing).
Proof.
  assert (Hinit : __init__ decimal [0; 1; 2]
                    (BalancedScenario.infos
                       [BalancedScenario.tall; BalancedScenario.tall;
                        BalancedScenario.tall])
                    1 BalancedScenario.table2 false
                    (Some BalancedScenario.nums_both)
                  = Ok (BalancedScenario.built BalancedScenario.growing))
    by (vm_compute; reflexivity).
  split; [exact Hinit|].
  exact (proj1 (proj2 (proj1 balanced_pass_yields_at_most_total_batches decimal
                         (fun _ => BalancedScenario.keep) _ _ _ _ _ _ _ Hinit))).
Defined.

Lemma streaming_without_keys (float : string -> pyfloat) (idxs : list nat) :
  forall u i,
    all_available_keys u = [] ->
    stopped (streaming float u i idxs) = Finished ->
    streaming float u i idxs = mkRun [] (u, i) Finished.
Proof.
  induction idxs as [|idx rest IH]; intros u i Hall; cbn [streaming];
    [reflexivity|].
  unfold step. rewrite Hall.
  destruct (resolve float u idx) as [k|e]; fields; [|discriminate].
  cbn [contains existsb negb]. fields. cbn [yielded app]. intro H.
  assert (E := IH u i Hall).
  destruct (streaming float u i rest) as [em fin st]. cbn in *. subst st.
  specialize (E eq_refl). injection E as -> ->. reflexivity.
Qed.

(** X14. When no key of [ratio_nums] has a quota of at least 3000, the first
    loop of a pass over a constructed balanced sampler captures nothing; if
    it ends normally and the sampler holds at least [batch_size] indices, the
    trailing loop draws from an empty list: the pass yields no batch and
    raises IndexError, leaving the instance as constructed. *)
Theorem balanced_no_qualifying_key_raises_IndexError :
  forall (float : string -> pyfloat) rnd smp info bs table dl nums s,
    __init__ float smp info bs table dl (Some nums) = Ok s ->
    (forall k v, In (k, v) nums -> (v < 3000)%Z) ->
    stopped (streaming float s 0 smp) = Finished ->
    (bs <= Z.of_nat (length smp))%Z ->
    __iter__ float rnd s = mkRun [] s (Raised IndexError).
Proof.
  intros float rnd smp info bs table dl nums s Hinit Hq Hfin Hlen.
  destruct (init_fields float _ _ _ _ _ _ _ Hinit) as (q & E & _ & Hbs & Hs).
  injection E as <-.
  assert (Hsmp : sampler s = smp) by (rewrite Hs; reflexivity).
  assert (Hall : all_available_keys s = []).
  { rewrite Hs. fields.
    assert (F : filter (fun kv => (3000 <=? snd kv)%Z) nums = []).
    { apply BasicPass.filter_none. intros [k v] H. cbn.
      apply Z.leb_gt. eapply Hq. exact H. }
    rewrite F. reflexivity. }
  assert (Htot : 1 <= total_batches s).
  { rewrite Hs. fields. apply Nat.div_le_lower_bound; lia. }
  unfold __iter__. rewrite Hsmp.
  rewrite (streaming_without_keys float smp s 0 Hall Hfin). fields.
  cbn [stopped emitted final fst snd app].
  destruct (total_batches s - 0) as [|n] eqn:En; [lia|].
  cbn [trailing]. unfold trailing_step. rewrite Hall. reflexivity.
Qed.

Lemma balanced_no_qualifying_key_raises_IndexError_witness :
  let nums := [(BalancedScenario.half, 10%Z)] in
  let info := BalancedScenario.infos [BalancedScenario.tall] in
  let s := BalancedScenario.built
             (__init__ decimal [0; 1] info 2 BalancedScenario.table2 false
                (Some nums)) in
  __init__ decimal [0; 1] info 2 BalancedScenario.table2 false (Some nums) = Ok s
  /\ (forall k v, In (k, v) nums -> (v < 3000)%Z)
  /\ stopped (streaming decimal s 0 [0; 1]) = Finished
  /\ (2 <= Z.of_nat (length [0; 1]))%Z
  /\ __iter__ decimal (fun _ => BalancedScenario.keep) s
     = mkRun [] s (Raised IndexError).
Proof.
  cbv zeta.
  set (nums := [(BalancedScenario.half, 10%Z)]).
  set (info := BalancedScenario.infos [BalancedScenario.tall]).
  set (s := BalancedScenario.built
              (__init__ decimal [0; 1] info 2 BalancedScenario.table2 false
                 (Some nums))).
  assert (H1 : __init__ decimal [0; 1] info 2 BalancedScenario.table2 false
                 (Some nums) = Ok s) by (vm_compute; reflexivity).
  assert (H2 : forall k v, In (k, v) nums -> (v < 3000)%Z).
  { intros k v [H|[]]. injection H as _ <-. lia. }
  assert (H3 : stopped (streaming decimal s 0 [0; 1]) = Finished)
    by (vm_compute; reflexivity).
  assert (H4 : (2 <= Z.of_nat (length [0; 1]))%Z) by (cbn; lia).
  split; [exact H1|]. split; [exact H2|]. split; [exact H3|].
  split; [exact H4|].
  exact (balanced_no_qualifying_key_raises_IndexError decimal
           (fun _ => BalancedScenario.keep) [0; 1] info 2%Z
           BalancedScenario.table2 false nums s H1 H2 H3 H4).
Defined.

Lemma list_remove_perm (k : pyfloat) (l : list pyfloat) :
  contains flt_eq k l = true -> Permutation (k :: list_remove flt_eq k l) l.
Proof.
  induction l as [|x l IH]; cbn; [discriminate|].
  destruct (flt_eq k x) eqn:E; cbn.
  - intros _. apply flt_eq_iff in E. subst x. apply Permutation_refl.
  - intro H. etransitivity; [apply perm_swap|]. apply perm_skip.
    apply IH. exact H.
Qed.

Lemma step_rounds (float : string -> pyfloat) (u : t) (idx : nat)
    (A : list pyfloat) :
  Permutation (current_available_bucket_keys u ++ exhausted_bucket_keys u) A ->
  Permutation
    (current_available_bucket_keys (next (step float u idx))
     ++ exhausted_bucket_keys (next (step float u idx))) A.
Proof.
  intro H. unfold step. destruct (resolve float u idx) as [k|e]; fields;
    [|exact H].
  destruct (contains flt_eq k (all_available_keys u)); fields; [|exact H].
  destruct (capture_frame u k idx) as (_ & Hc & He).
  destruct (capture u k idx) as [u1 [e|]]; fields; cbn [fst] in Hc, He.
  - rewrite Hc, He. exact H.
  - assert (H1 : Permutation
                   (current_available_bucket_keys (swap_rounds u1)
                    ++ exhausted_bucket_keys (swap_rounds u1)) A).
    { rewrite <- Hc, <- He in H. unfold swap_rounds.
      destruct (current_available_bucket_keys u1) eqn:Ecur; fields.
      - rewrite app_nil_r. exact H.
      - rewrite Ecur. exact H. }
    revert H1. generalize (swap_rounds u1). intros v Hv.
    unfold emit.
    destruct (contains flt_eq k (current_available_bucket_keys v)) eqn:Ek;
      fields; [|exact Hv].
    destruct (dict_get flt_eq k (_aspect_ratio_buckets v)); fields; [|exact Hv].
    destruct (length l =? batch_size v); fields; [|exact Hv].
    etransitivity; [|exact Hv].
    rewrite app_assoc.
    etransitivity; [apply Permutation_sym, Permutation_cons_append|].
    rewrite app_comm_cons. apply Permutation_app_tail.
    apply list_remove_perm. exact Ek.
Qed.

Lemma streaming_rounds (float : string -> pyfloat) (A : list pyfloat)
    (idxs : list nat) :
  forall u i,
    Permutation (current_available_bucket_keys u ++ exhausted_bucket_keys u) A ->
    Permutation
      (current_available_bucket_keys (fst (final (streaming float u i idxs)))
       ++ exhausted_bucket_keys (fst (final (streaming float u i idxs)))) A.
Proof.
  induction idxs as [|idx rest IH]; intros u i H; cbn [streaming]; [exact H|].
  pose proof (step_rounds float u idx A H) as R.
  destruct (err (step float u idx)); cbn [final fst]; [exact R|].
  apply IH. exact R.
Qed.

Lemma trailing_rounds (rnd : nat -> Draw) (n : nat) :
  forall it u,
    current_available_bucket_keys (final (trailing rnd n it u))
    = current_available_bucket_keys u
    /\ exhausted_bucket_keys (final (trailing rnd n it u))
       = exhausted_bucket_keys u.
Proof.
  induction n as [|n IH]; intros it u; cbn [trailing]; [split; reflexivity|].
  destruct (trailing_step_frame u (rnd it)) as (_ & _ & _ & Hc & He).
  destruct (err (trailing_step u (rnd it))); cbn [final]; [auto|].
  destruct (IH (S it) (next (trailing_step u (rnd it)))) as (I1 & I2).
  split; congruence.
Qed.

Lemma NoDup_keys_filter {K V : Type} (f : K * V -> bool) (l : list (K * V)) :
  NoDup (map fst l) -> NoDup (map fst (filter f l)).
Proof.
  induction l as [|x l IH]; intro H; [constructor|].
  inversion H as [|? ? Hnot Hnd]; subst. cbn.
  destruct (f x); [|auto]. cbn. constructor; [|auto].
  intro Hin. apply Hnot. apply in_map_iff in Hin.
  destruct Hin as (y & Hy & Hf). apply filter_In in Hf.
  apply in_map_iff. exists y. tauto.
Qed.

(** X15. On a constructed balanced sampler the available list and the
    exhausted list, taken together, are at all times a rearrangement of the
    qualifying keys: after every index of the first loop and when the pass is
    over. When the keys of [ratio_nums] are distinct no key is in both
    lists. *)
Theorem balanced_rounds_partition_the_qualifying_keys :
  forall (float : string -> pyfloat) rnd smp info bs table dl nums s,
    __init__ float smp info bs table dl (Some nums) = Ok s ->
    (forall idxs,
        Permutation
          (current_available_bucket_keys (state_after float s idxs)
           ++ exhausted_bucket_keys (state_after float s idxs))
          (all_available_keys s))
    /\ Permutation
         (current_available_bucket_keys (final (__iter__ float rnd s))
          ++ exhausted_bucket_keys (final (__iter__ float rnd s)))
         (all_available_keys s)
    /\ (NoDup (dict_keys nums) ->
        forall idxs k,
          In k (current_available_bucket_keys (state_after float s idxs)) ->
          ~ In k (exhausted_bucket_keys (state_after float s idxs))).
Proof.
  intros float rnd smp info bs table dl nums s Hinit.
  destruct (init_fields float _ _ _ _ _ _ _ Hinit) as (q & E & _ & _ & Hs).
  injection E as <-.
  assert (H0 : Permutation
                 (current_available_bucket_keys s ++ exhausted_bucket_keys s)
                 (all_available_keys s)).
  { rewrite Hs. fields. rewrite app_nil_r. apply Permutation_refl. }
  assert (Hall : forall idxs,
             Permutation
               (current_available_bucket_keys (state_after float s idxs)
                ++ exhausted_bucket_keys (state_after float s idxs))
               (all_available_keys s)).
  { intro idxs. apply streaming_rounds. exact H0. }
  split; [exact Hall|]. split.
  - unfold __iter__.
    pose proof (Hall (sampler s)) as H1. unfold state_after in H1.
    destruct (stopped (streaming float s 0 (sampler s))); cbn [final];
      try exact H1.
    destruct (trailing_rounds rnd
                (total_batches s - snd (final (streaming float s 0 (sampler s))))
                0 (fst (final (streaming float s 0 (sampler s)))))
      as (T1 & T2).
    rewrite T1, T2. exact H1.
  - intros Hnd idxs k Hin Hex.
    assert (Hn : NoDup (all_available_keys s)).
    { rewrite Hs. fields. apply NoDup_keys_filter. exact Hnd. }
    apply (Permutation_NoDup (Permutation_sym (Hall idxs))) in Hn.
    apply in_split in Hin. destruct Hin as (l1 & l2 & El).
    rewrite El in Hn. rewrite <- app_assoc in Hn.
    apply NoDup_remove_2 in Hn. apply Hn.
    apply in_or_app. right. apply in_or_app. right. exact Hex.
Qed.

Lemma balanced_rounds_partition_the_qualifying_keys_witness :
  __init__ decimal [0; 1; 2]
    (BalancedScenario.infos
       [BalancedScenario.tall; BalancedScenario.tall; BalancedScenario.tall])
    1 BalancedScenario.table2 false (Some BalancedScenario.nums_both)
  = Ok (BalancedScenario.built BalancedScenario.growing)
  /\ NoDup (dict_keys BalancedScenario.nums_both)
  /\ forall k,
       In k (current_available_bucket_keys
               (state_after decimal
                  (BalancedScenario.built BalancedScenario.growing) [0; 1])) ->
       ~ In k (exhausted_bucket_keys
                 (state_after decimal
                    (BalancedScenario.built BalancedScenario.growing) [0; 1])).
Proof.
  assert (Hinit : __init__ decimal [0; 1; 2]
                    (BalancedScenario.infos
                       [BalancedScenario.tall; BalancedScenario.tall;
                        BalancedScenario.tall])
                    1 BalancedScenario.table2 false
                    (Some BalancedScenario.nums_both)
                  = Ok (BalancedScenario.built BalancedScenario.growing))
    by (vm_compute; reflexivity).
  split; [exact Hinit|]. split; [exact nums_both_nodup|].
  exact (proj2 (proj2 (balanced_rounds_partition_the_qualifying_keys decimal
                         (fun _ => BalancedScenario.keep) _ _ _ _ _ _ _ Hinit))
           nums_both_nodup [0; 1]).
Defined.

(** ** [BalancedAspectRatioBatchSampler]: which exceptions a pass can raise *)

Lemma dict_get_keys (k : pyfloat) {V : Type} (v : V) (d : list (pyfloat * V)) :
  dict_get flt_eq k d = Some v -> In k (dict_keys d).
Proof.
  intro H. eapply BasicFacts.key_of_entry.
  eapply dict_get_In; [exact flt_eq_iff|exact H].
Qed.

Lemma set_known_key (k : pyfloat) {V : Type} (v v' : V) (d : list (pyfloat * V)) :
  dict_get flt_eq k d = Some v ->
  dict_keys (dict_set flt_eq k v' d) = dict_keys d.
Proof.
  intro H. apply (dict_set_keys flt_eq flt_eq_iff). eapply dict_get_keys; eauto.
Qed.

Lemma same_keys_refl (u : t) : same_keys u u.
Proof. repeat split. Qed.

Lemma same_keys_trans (u1 u2 u3 : t) :
  same_keys u1 u2 -> same_keys u2 u3 -> same_keys u1 u3.
Proof.
  intros (A1 & A2 & A3) (B1 & B2 & B3). repeat split; congruence.
Qed.

Lemma capture_keys (u : t) (k : pyfloat) (idx : nat) :
  same_keys u (fst (capture u k idx)).
Proof.
  unfold capture, same_keys.
  destruct (dict_get flt_eq k (_aspect_ratio_count u)) as [c|] eqn:Ec; fields;
    [|auto].
  destruct (dict_get flt_eq k (ratio_nums_gt u)) as [q|]; fields; [|auto].
  destruct (c <? q)%Z; fields; [|auto].
  pose proof (set_known_key k c (c + 1)%Z _ Ec) as Kc.
  destruct (dict_get flt_eq k (_aspect_ratio_buckets u)) as [b|] eqn:Eb; fields;
    [|auto].
  pose proof (set_known_key k b (b ++ [idx]) _ Eb) as Kb.
  destruct (dict_get flt_eq k (original_buckets u)) as [o|] eqn:Eo; fields;
    [|auto].
  pose proof (set_known_key k o (o ++ [idx]) _ Eo) as Ko.
  auto.
Qed.

Lemma emit_keys (u : t) (k : pyfloat) : same_keys u (next (emit u k)).
Proof.
  unfold emit, same_keys.
  destruct (contains flt_eq k (current_available_bucket_keys u)); fields;
    [|auto].
  destruct (dict_get flt_eq k (_aspect_ratio_buckets u)) as [b|] eqn:Eb; fields;
    [|auto].
  destruct (length b =? batch_size u); fields; [|auto].
  pose proof (set_known_key k b (skipn (batch_size u) b) _ Eb) as Kb. auto.
Qed.

Lemma swap_rounds_keys (u : t) : same_keys u (swap_rounds u).
Proof.
  unfold swap_rounds, same_keys.
  destruct (current_available_bucket_keys u); fields; auto.
Qed.

Lemma step_keys (float : string -> pyfloat) (u : t) (idx : nat) :
  same_keys u (next (step float u idx)).
Proof.
  unfold step. destruct (resolve float u idx) as [k|e]; fields;
    [|apply same_keys_refl].
  destruct (contains flt_eq k (all_available_keys u)); fields;
    [|apply same_keys_refl].
  pose proof (capture_keys u k idx) as C.
  destruct (capture u k idx) as [u1 [e|]]; fields; cbn [fst] in C; [exact C|].
  eapply same_keys_trans; [exact C|].
  eapply same_keys_trans; [apply swap_rounds_keys|apply emit_keys].
Qed.

Lemma streaming_same_keys (float : string -> pyfloat) (idxs : list nat) :
  forall u i, same_keys u (fst (final (streaming float u i idxs))).
Proof.
  induction idxs as [|idx rest IH]; intros u i; cbn [streaming].
  - apply same_keys_refl.
  - pose proof (step_keys float u idx) as K.
    destruct (err (step float u idx)); cbn [final fst]; [exact K|].
    eapply same_keys_trans; [exact K|apply IH].
Qed.

Lemma trailing_step_keys (u : t) (d : Draw) :
  dict_keys (_aspect_ratio_buckets (next (trailing_step u d)))
  = dict_keys (_aspect_ratio_buckets u).
Proof.
  unfold trailing_step.
  destruct (choice d (all_available_keys u)) as [key|e]; fields; [|reflexivity].
  destruct (dict_get flt_eq key (_aspect_ratio_buckets u)) as [b|] eqn:Eb;
    fields; [|reflexivity].
  assert (K : forall v, dict_keys (dict_set flt_eq key v (_aspect_ratio_buckets u))
                        = dict_keys (_aspect_ratio_buckets u))
    by (intro v; eapply set_known_key; exact Eb).
  assert (K2 : forall v v',
             dict_keys (dict_set flt_eq key v
                          (dict_set flt_eq key v' (_aspect_ratio_buckets u)))
             = dict_keys (_aspect_ratio_buckets u)).
  { intros v v'. rewrite (dict_set_set flt_eq flt_eq_iff). apply K. }
  unfold refill. fields.
  destruct (batch_size u <=? length b).
  - destruct (skipn (batch_size u) b); fields; [|apply K].
    destruct (dict_get flt_eq key (original_buckets u)); fields;
      [apply K2|apply K].
  - destruct (dict_get flt_eq key (original_buckets u)); fields;
      [apply K|reflexivity].
Qed.

Lemma resolve_error (float : string -> pyfloat) (u : t) (idx : nat) (e : exn) :
  resolve float u idx = Raise e ->
  (e = ZeroDivisionError /\ width (get_data_info u idx) = Q2Qc 0)
  \/ (e = ValueError /\ aspect_ratios u = []
      /\ width (get_data_info u idx) <> Q2Qc 0).
Proof.
  unfold resolve.
  destruct (flt_eq (width (get_data_info u idx)) (Q2Qc 0)) eqn:E.
  - intro H. injection H as <-. left. split; [reflexivity|].
    apply flt_eq_iff. exact E.
  - assert (Hw : width (get_data_info u idx) <> Q2Qc 0).
    { intro H. apply flt_eq_iff in H. congruence. }
    unfold closest_ratio.
    destruct (aspect_ratios u) as [|kv table]; cbn.
    + intro H. injection H as <-. right. auto.
    + discriminate.
Qed.

Lemma resolve_ok_key (float : string -> pyfloat) (u : t) (idx : nat) (k : pyfloat) :
  resolve float u idx = Ok k ->
  In k (map float (dict_keys (aspect_ratios u))).
Proof.
  unfold resolve.
  destruct (flt_eq (width (get_data_info u idx)) (Q2Qc 0)); [discriminate|].
  destruct (closest_ratio float (dict_keys (aspect_ratios u)) _) as [r|e] eqn:E;
    [|discriminate].
  intro H. injection H as <-. apply in_map.
  eapply py_min_ok_In. exact E.
Qed.

Section NoKeyError.
Variable float : string -> pyfloat.

Lemma known_keys_preserved (u u' : t) :
  known_keys float u -> same_keys u u' -> same_frame u u' ->
  known_keys float u'.
Proof.
  intros (K1 & K2) (S1 & S2 & S3) (_ & _ & _ & Ha & Hn & Hall & _).
  split.
  - intros k Hk. rewrite Hall in Hk. rewrite S1, Hn, S3. apply K1. exact Hk.
  - intros r Hr. rewrite Ha in Hr. rewrite S2. apply K2. exact Hr.
Qed.

Lemma capture_no_error (u : t) (k : pyfloat) (idx : nat) :
  known_keys float u ->
  In k (all_available_keys u) ->
  In k (dict_keys (_aspect_ratio_buckets u)) ->
  snd (capture u k idx) = None.
Proof.
  intros (K1 & _) Hk Hb. destruct (K1 k Hk) as (Hc & Hn & Ho).
  destruct (dict_get_In_keys flt_eq flt_eq_iff _ _ Hc) as (c & Ec).
  destruct (dict_get_In_keys flt_eq flt_eq_iff _ _ Hn) as (q & Eq).
  destruct (dict_get_In_keys flt_eq flt_eq_iff _ _ Hb) as (b & Eb).
  destruct (dict_get_In_keys flt_eq flt_eq_iff _ _ Ho) as (o & Eo).
  unfold capture. rewrite Ec, Eq.
  destruct (c <? q)%Z; fields; [|reflexivity].
  rewrite Eb. fields. rewrite Eo. reflexivity.
Qed.

Lemma emit_no_error (u : t) (k : pyfloat) :
  In k (dict_keys (_aspect_ratio_buckets u)) -> err (emit u k) = None.
Proof.
  intro Hb. destruct (dict_get_In_keys flt_eq flt_eq_iff _ _ Hb) as (b & Eb).
  unfold emit. rewrite Eb.
  destruct (contains flt_eq k (current_available_bucket_keys u)); fields;
    [|reflexivity].
  destruct (length b =? batch_size u); reflexivity.
Qed.

Lemma step_raises_what_resolve_raises (u : t) (idx : nat) (e : exn) :
  known_keys float u ->
  err (step float u idx) = Some e -> resolve float u idx = Raise e.
Proof.
  intros K. unfold step.
  pose proof (resolve_ok_key float u idx) as Hkey.
  destruct (resolve float u idx) as [k|e']; fields.
  - destruct (contains flt_eq k (all_available_keys u)) eqn:Ec; fields;
      [|discriminate].
    apply (contains_In flt_eq flt_eq_iff) in Ec.
    assert (Hb : In k (dict_keys (_aspect_ratio_buckets u))).
    { specialize (Hkey k eq_refl). apply in_map_iff in Hkey.
      destruct Hkey as (r & <- & Hr). apply (proj2 K). exact Hr. }
    pose proof (capture_no_error u k idx K Ec Hb) as C.
    destruct (capture_keys u k idx) as (_ & Kb & _).
    destruct (capture u k idx) as [u1 e1]. cbn [fst snd] in *. subst e1.
    rewrite emit_no_error; [discriminate|].
    destruct (swap_rounds_keys u1) as (_ & Kb' & _).
    rewrite Kb', Kb. exact Hb.
  - intro H. injection H as ->. reflexivity.
Qed.

Lemma streaming_raises (idxs : list nat) :
  forall u i,
    known_keys float u ->
    (forall e, stopped (streaming float u i idxs) = Raised e ->
               e = ZeroDivisionError \/ e = ValueError)
    /\ stopped (streaming float u i idxs) <> Diverged
    /\ (aspect_ratios u <> [] ->
        (forall idx, In idx idxs -> width (get_data_info u idx) <> Q2Qc 0) ->
        stopped (streaming float u i idxs) = Finished).
Proof.
  induction idxs as [|idx rest IH]; intros u i K; cbn [streaming].
  - cbn. split; [discriminate|]. split; [discriminate|]. reflexivity.
  - pose proof (step_raises_what_resolve_raises u idx) as R.
    pose proof (known_keys_preserved u _ K (step_keys float u idx)
                  (step_frame float u idx)) as K'.
    destruct (step_frame float u idx) as (_ & Hg & _ & Ha & _).
    destruct (err (step float u idx)) as [e|]; cbn [stopped].
    + specialize (R e K eq_refl). apply resolve_error in R.
      split; [|split; [discriminate|]].
      * intros e' H. injection H as <-. destruct R as [[-> _]|[-> _]]; auto.
      * intros Hne Hw. exfalso. destruct R as [[_ Hz]|[_ [Ht _]]].
        -- apply (Hw idx); [left; reflexivity|exact Hz].
        -- contradiction.
    + destruct (IH (next (step float u idx))
                  (match out (step float u idx) with
                   | Some _ => S i
                   | None => i
                   end) K') as (I1 & I2 & I3).
      split; [exact I1|]. split; [exact I2|].
      intros Hne Hw. apply I3; [congruence|].
      intros j Hj. rewrite Hg. apply Hw. right. exact Hj.
Qed.

Lemma trailing_never_fails (rnd : nat -> Draw) (n : nat) :
  forall it u,
    all_available_keys u <> [] ->
    (forall k, In k (all_available_keys u) ->
               In k (dict_keys (_aspect_ratio_buckets u))
               /\ In k (dict_keys (original_buckets u))) ->
    stopped (trailing rnd n it u) = Finished.
Proof.
  induction n as [|n IH]; intros it u Hne K; cbn [trailing]; [reflexivity|].
  assert (E : err (trailing_step u (rnd it)) = None).
  { unfold trailing_step.
    pose proof (@choice_In pyfloat (rnd it) (all_available_keys u)) as Hin.
    destruct (choice (rnd it) (all_available_keys u)) as [key|e] eqn:Ech.
    - destruct (K key (Hin key eq_refl)) as (Hb & Ho).
      destruct (dict_get_In_keys flt_eq flt_eq_iff _ _ Hb) as (b & Eb).
      destruct (dict_get_In_keys flt_eq flt_eq_iff _ _ Ho) as (o & Eo).
      rewrite Eb. unfold refill. fields. rewrite Eo.
      destruct (batch_size u <=? length b); [|reflexivity].
      destruct (skipn (batch_size u) b); reflexivity.
    - exfalso. unfold choice in Ech.
      destruct (all_available_keys u) as [|a l] eqn:El; [congruence|].
      destruct (nth_error (a :: l) (pick (rnd it) mod length (a :: l))) eqn:En;
        [discriminate|].
      apply nth_error_None in En.
      pose proof (Nat.mod_upper_bound (pick (rnd it)) (length (a :: l))) as B.
      cbn [length] in *. lia. }
  rewrite E.
  destruct (trailing_step_frame u (rnd it))
    as ((_ & _ & _ & _ & _ & Hall & _) & Ho & _).
  pose proof (trailing_step_keys u (rnd it)) as Kb.
  cbn [stopped]. apply IH.
  - rewrite Hall. exact Hne.
  - intros k Hk. rewrite Hall in Hk. rewrite Kb, Ho. apply K. exact Hk.
Qed.
End NoKeyError.

Lemma init_known_keys (float : string -> pyfloat) smp info bs table dl nums s :
  __init__ float smp info bs table dl (Some nums) = Ok s ->
  known_keys float s
  /\ (forall k, In k (dict_keys (_aspect_ratio_buckets s))
                <-> In k (map float (dict_keys table)))
  /\ (forall k, In k (all_available_keys s)
                <-> exists v, In (k, v) nums /\ (3000 <= v)%Z).
Proof.
  intro Hinit.
  destruct (init_fields float _ _ _ _ _ _ _ Hinit) as (q & E & _ & _ & Hs).
  injection E as <-.
  set (keys := map fst (filter (fun kv => (3000 <=? snd kv)%Z) nums)) in Hs.
  destruct (dict_fromkeys_spec flt_eq flt_eq_iff 0%Z keys) as (_ & C2 & _).
  destruct (dict_fromkeys_spec flt_eq flt_eq_iff ([] : list nat) keys)
    as (_ & O2 & _).
  destruct (dict_fromkeys_spec flt_eq flt_eq_iff ([] : list nat)
              (map float (dict_keys table))) as (_ & B2 & _).
  assert (Hq : forall k, In k keys <-> exists v, In (k, v) nums /\ (3000 <= v)%Z).
  { intro k. unfold keys. rewrite in_map_iff. split.
    - intros ([k' v] & Hk & Hf). cbn in Hk. subst k'.
      apply filter_In in Hf. destruct Hf as (Hin & Hv). cbn in Hv.
      exists v. split; [exact Hin|]. apply Z.leb_le. exact Hv.
    - intros (v & Hin & Hv). exists (k, v). split; [reflexivity|].
      apply filter_In. split; [exact Hin|]. cbn. apply Z.leb_le. exact Hv. }
  rewrite Hs. unfold known_keys. fields.
  split; [|split; [exact B2|exact Hq]].
  split.
  - intros k Hk. split; [apply C2; exact Hk|]. split; [|apply O2; exact Hk].
    apply Hq in Hk. destruct Hk as (v & Hv & _).
    eapply BasicFacts.key_of_entry. exact Hv.
  - intros r Hr. apply B2. apply in_map. exact Hr.
Qed.

Lemma dict_get_unknown (k : pyfloat) {V : Type} (d : list (pyfloat * V)) :
  ~ In k (dict_keys d) -> dict_get flt_eq k d = None.
Proof.
  intro H. destruct (dict_get flt_eq k d) as [v|] eqn:E; [|reflexivity].
  exfalso. apply H. eapply dict_get_keys. exact E.
Qed.

(** X16. On a constructed balanced sampler the first loop of a pass raises
    nothing but the ZeroDivisionError of an index of width zero and the
    ValueError of an empty table, and it does not diverge. With a non-empty
    table and no index of width zero it ends normally; if moreover some key
    qualifies and every qualifying key is the float of a key of the table,
    the whole pass ends normally, whatever is drawn. *)
Theorem balanced_pass_raises_no_KeyError :
  forall (float : string -> pyfloat) rnd smp info bs table dl nums s,
    __init__ float smp info bs table dl (Some nums) = Ok s ->
    (forall e, stopped (streaming float s 0 smp) = Raised e ->
               e = ZeroDivisionError \/ e = ValueError)
    /\ (table <> [] ->
        (forall idx, In idx smp -> width (info idx) <> Q2Qc 0) ->
        stopped (streaming float s 0 smp) = Finished
        /\ ((exists k v, In (k, v) nums /\ (3000 <= v)%Z) ->
            (forall k v, In (k, v) nums -> (3000 <= v)%Z ->
                         In k (map float (dict_keys table))) ->
            stopped (__iter__ float rnd s) = Finished)).
Proof.
  intros float rnd smp info bs table dl nums s Hinit.
  destruct (init_known_keys float _ _ _ _ _ _ _ Hinit) as (K & Hb & Hq).
  destruct (init_fields float _ _ _ _ _ _ _ Hinit) as (q & _ & _ & _ & Hs).
  assert (Hsmp : sampler s = smp) by (rewrite Hs; reflexivity).
  assert (Htab : aspect_ratios s = table) by (rewrite Hs; reflexivity).
  assert (Hinfo : get_data_info s = info) by (rewrite Hs; reflexivity).
  clear Hs.
  destruct (streaming_raises float smp s 0 K) as (R1 & _ & R3).
  split; [exact R1|].
  intros Hne Hw.
  assert (Hfin : stopped (streaming float s 0 smp) = Finished).
  { apply R3; [congruence|]. intros idx Hidx. rewrite Hinfo. apply Hw.
    exact Hidx. }
  split; [exact Hfin|].
  intros (k0 & v0 & Hk0 & Hv0) Hin.
  unfold __iter__. rewrite Hsmp, Hfin. cbn [stopped].
  destruct (streaming_frame float smp s 0) as (_ & _ & _ & _ & _ & Hall & _).
  destruct (streaming_same_keys float smp s 0) as (_ & Kb & Ko).
  apply trailing_never_fails.
  - rewrite Hall. intro E.
    assert (In k0 (all_available_keys s)) by (apply Hq; eauto).
    rewrite E in H. destruct H.
  - intros k Hk. rewrite Hall in Hk. rewrite Kb, Ko. split.
    + apply Hb. apply Hq in Hk. destruct Hk as (v & Hv & Hge). eauto.
    + apply (proj1 K). exact Hk.
Qed.

Lemma balanced_pass_raises_no_KeyError_witness :
  __init__ decimal [0; 1; 2]
    (BalancedScenario.infos
       [BalancedScenario.tall; BalancedScenario.tall; BalancedScenario.tall])
    1 BalancedScenario.table2 false (Some BalancedScenario.nums_both)
  = Ok (BalancedScenario.built BalancedScenario.growing)
  /\ BalancedScenario.table2 <> []
  /\ (forall idx, In idx [0; 1; 2] ->
        width (BalancedScenario.infos
                 [BalancedScenario.tall; BalancedScenario.tall;
                  BalancedScenario.tall] idx) <> Q2Qc 0)
  /\ stopped (__iter__ decimal (fun _ => BalancedScenario.keep)
                (BalancedScenario.built BalancedScenario.growing)) = Finished.
Proof.
  assert (Hinit : __init__ decimal [0; 1; 2]
                    (BalancedScenario.infos
                       [BalancedScenario.tall; BalancedScenario.tall;
                        BalancedScenario.tall])
                    1 BalancedScenario.table2 false
                    (Some BalancedScenario.nums_both)
                  = Ok (BalancedScenario.built BalancedScenario.growing))
    by (vm_compute; reflexivity).
  assert (Hne : BalancedScenario.table2 <> []) by discriminate.
  assert (Hw : forall idx, In idx [0; 1; 2] ->
                 width (BalancedScenario.infos
                          [BalancedScenario.tall; BalancedScenario.tall;
                           BalancedScenario.tall] idx) <> Q2Qc 0).
  { intros idx [<-|[<-|[<-|[]]]] H; apply flt_eq_iff in H; vm_compute in H;
      discriminate. }
  assert (Hq : exists k v, In (k, v) BalancedScenario.nums_both /\ (3000 <= v)%Z).
  { exists BalancedScenario.half, 3000%Z. split; [left; reflexivity|lia]. }
  assert (Hin : forall k v, In (k, v) BalancedScenario.nums_both ->
                  (3000 <= v)%Z ->
                  In k (map decimal (dict_keys BalancedScenario.table2))).
  { intros k v [H|[H|[]]] _; injection H as <- _.
    - left. apply flt_eq_iff. vm_compute. reflexivity.
    - right. left. apply flt_eq_iff. vm_compute. reflexivity. }
  split; [exact Hinit|]. split; [exact Hne|]. split; [exact Hw|].
  exact (proj2 (proj2 (balanced_pass_raises_no_KeyError decimal
                         (fun _ => BalancedScenario.keep) _ _ _ _ _ _ _ Hinit)
                  Hne Hw) Hq Hin).
Defined.

(** X17. When the trailing loop of a pass over a constructed balanced
    sampler has an iteration to make and its first draw is a qualifying key
    that is not the float of any key of the table, the pass stops there with
    KeyError: it has yielded the batches of the first loop only and leaves the
    instance as the first loop left it. *)
Theorem balanced_unknown_qualifying_key_raises_KeyError :
  forall (float : string -> pyfloat) rnd smp info bs table dl nums s key,
    __init__ float smp info bs table dl (Some nums) = Ok s ->
    stopped (streaming float s 0 smp) = Finished ->
    snd (final (streaming float s 0 smp)) < total_batches s ->
    choice (rnd 0) (all_available_keys s) = Ok key ->
    ~ In key (map float (dict_keys table)) ->
    __iter__ float rnd s
    = mkRun (emitted (streaming float s 0 smp))
        (fst (final (streaming float s 0 smp))) (Raised KeyError).
Proof.
  intros float rnd smp info bs table dl nums s key Hinit Hfin Hlt Hch Hkey.
  destruct (init_known_keys float _ _ _ _ _ _ _ Hinit) as (_ & Hb & _).
  destruct (init_fields float _ _ _ _ _ _ _ Hinit) as (q & _ & _ & _ & Hs).
  assert (Hsmp : sampler s = smp) by (rewrite Hs; reflexivity).
  clear Hs.
  unfold __iter__. rewrite Hsmp, Hfin.
  destruct (streaming_frame float smp s 0) as (_ & _ & _ & _ & _ & Hall & _).
  destruct (streaming_same_keys float smp s 0) as (_ & Kb & _).
  destruct (total_batches s - snd (final (streaming float s 0 smp)))
    as [|n] eqn:En; [lia|].
  cbn [trailing]. unfold trailing_step. rewrite Hall, Hch.
  rewrite dict_get_unknown.
  - cbn. rewrite app_nil_r. reflexivity.
  - rewrite Kb. intro H. apply Hkey. apply Hb. exact H.
Qed.

Lemma balanced_unknown_qualifying_key_raises_KeyError_witness :
  let nums := [(fl 3, 3000%Z)] in
  let info := BalancedScenario.infos [BalancedScenario.tall] in
  let s := BalancedScenario.built
             (__init__ decimal [0; 1] info 1 BalancedScenario.table2 false
                (Some nums)) in
  let rnd := fun _ : nat => BalancedScenario.keep in
  __init__ decimal [0; 1] info 1 BalancedScenario.table2 false (Some nums) = Ok s
  /\ stopped (streaming decimal s 0 [0; 1]) = Finished
  /\ snd (final (streaming decimal s 0 [0; 1])) < total_batches s
  /\ choice (rnd 0) (all_available_keys s) = Ok (fl 3)
  /\ ~ In (fl 3) (map decimal (dict_keys BalancedScenario.table2))
  /\ __iter__ decimal rnd s
     = mkRun (emitted (streaming decimal s 0 [0; 1]))
         (fst (final (streaming decimal s 0 [0; 1]))) (Raised KeyError).
Proof.
  cbv zeta.
  set (nums := [(fl 3, 3000%Z)]).
  set (info := BalancedScenario.infos [BalancedScenario.tall]).
  set (s := BalancedScenario.built
              (__init__ decimal [0; 1] info 1 BalancedScenario.table2 false
                 (Some nums))).
  set (rnd := fun _ : nat => BalancedScenario.keep).
  assert (H1 : __init__ decimal [0; 1] info 1 BalancedScenario.table2 false
                 (Some nums) = Ok s) by (vm_compute; reflexivity).
  assert (H2 : stopped (streaming decimal s 0 [0; 1]) = Finished)
    by (vm_compute; reflexivity).
  assert (H3 : snd (final (streaming decimal s 0 [0; 1])) < total_batches s)
    by (vm_compute; lia).
  assert (H4 : choice (rnd 0) (all_available_keys s) = Ok (fl 3))
    by (vm_compute; reflexivity).
  assert (H5 : ~ In (fl 3) (map decimal (dict_keys BalancedScenario.table2))).
  { intros [H|[H|[]]]; apply flt_eq_iff in H; vm_compute in H; discriminate. }
  split; [exact H1|]. split; [exact H2|]. split; [exact H3|].
  split; [exact H4|]. split; [exact H5|].
  exact (balanced_unknown_qualifying_key_raises_KeyError decimal rnd [0; 1]
           info 1%Z BalancedScenario.table2 false nums s (fl 3)
           H1 H2 H3 H4 H5).
Defined.

(** ** [BalancedAspectRatioBatchSampler]: one key per batch *)

Lemma set_held {V : Type} (R : V -> pyfloat -> Prop) (k : pyfloat)
    (v : list V) (d : list (pyfloat * list V)) :
  (forall k' b' i, In (k', b') d -> In i b' -> R i k') ->
  (forall i, In i v -> R i k) ->
  forall k' b' i, In (k', b') (dict_set flt_eq k v d) -> In i b' -> R i k'.
Proof.
  intros Hd Hv k' b' i H Hi.
  apply (dict_set_In flt_eq flt_eq_iff) in H.
  destruct H as [[-> ->]|H]; [apply Hv; exact Hi|eapply Hd; eauto].
Qed.

Lemma In_firstn {A : Type} (n : nat) (l : list A) (x : A) :
  In x (firstn n l) -> In x l.
Proof.
  intro H. rewrite <- (firstn_skipn n l). apply in_or_app. left. exact H.
Qed.

Lemma In_skipn {A : Type} (n : nat) (l : list A) (x : A) :
  In x (skipn n l) -> In x l.
Proof.
  intro H. rewrite <- (firstn_skipn n l). apply in_or_app. right. exact H.
Qed.

Section OneKey.
Variable float : string -> pyfloat.

Lemma capture_held (s u : t) (k : pyfloat) (idx : nat) :
  held_by_key float s u ->
  resolve float s idx = Ok k ->
  held_by_key float s (fst (capture u k idx)).
Proof.
  intros (F & Hb & Ho) Hres.
  assert (F' : same_frame s (fst (capture u k idx))).
  { eapply same_frame_trans; [exact F|apply capture_frame]. }
  split; [exact F'|]. clear F'. unfold capture.
  destruct (dict_get flt_eq k (_aspect_ratio_count u)) as [c|]; fields; [|auto].
  destruct (dict_get flt_eq k (ratio_nums_gt u)) as [q|]; fields; [|auto].
  destruct (c <? q)%Z; fields; [|auto].
  destruct (dict_get flt_eq k (_aspect_ratio_buckets u)) as [b|] eqn:Eb; fields;
    [|auto].
  assert (Hb' : forall k' b' i,
             In (k', b') (dict_set flt_eq k (b ++ [idx]) (_aspect_ratio_buckets u)) ->
             In i b' -> resolve float s i = Ok k').
  { apply set_held; [exact Hb|]. intros i Hi. apply in_app_or in Hi.
    destruct Hi as [Hi|[<-|[]]]; [|exact Hres].
    eapply Hb; [|exact Hi]. eapply dict_get_In; [exact flt_eq_iff|exact Eb]. }
  destruct (dict_get flt_eq k (original_buckets u)) as [o|] eqn:Eo; fields;
    [|auto].
  split; [exact Hb'|].
  apply set_held; [exact Ho|]. intros i Hi. apply in_app_or in Hi.
  destruct Hi as [Hi|[<-|[]]]; [|exact Hres].
  eapply Ho; [|exact Hi]. eapply dict_get_In; [exact flt_eq_iff|exact Eo].
Qed.

Lemma emit_held (s u : t) (k : pyfloat) :
  held_by_key float s u ->
  held_by_key float s (next (emit u k))
  /\ forall batch, out (emit u k) = Some batch ->
                   forall i, In i batch -> resolve float s i = Ok k.
Proof.
  intros (F & Hb & Ho).
  assert (F' : same_frame s (next (emit u k))).
  { eapply same_frame_trans; [exact F|apply emit_frame]. }
  unfold emit in *.
  destruct (contains flt_eq k (current_available_bucket_keys u)); fields;
    [|split; [split; auto|discriminate]].
  destruct (dict_get flt_eq k (_aspect_ratio_buckets u)) as [b|] eqn:Eb; fields;
    [|split; [split; auto|discriminate]].
  pose proof (dict_get_In flt_eq flt_eq_iff _ _ _ Eb) as Hin.
  destruct (length b =? batch_size u); fields;
    [|split; [split; auto|discriminate]].
  split.
  - split; [exact F'|]. split; [|exact Ho].
    apply set_held; [exact Hb|]. intros i Hi. apply In_skipn in Hi.
    eapply Hb; eauto.
  - intros batch H i Hi. injection H as <-. apply In_firstn in Hi.
    eapply Hb; eauto.
Qed.

Lemma step_held (s u : t) (idx : nat) :
  held_by_key float s u ->
  held_by_key float s (next (step float u idx))
  /\ forall batch,
       out (step float u idx) = Some batch ->
       exists k,
         In k (all_available_keys s)
         /\ forall i, In i batch -> resolve float s i = Ok k.
Proof.
  intro H. pose proof H as (F & _).
  pose proof (resolve_frame float s u idx F) as Hr.
  unfold step. destruct (resolve float u idx) as [k|e]; fields;
    [|split; [exact H|discriminate]].
  destruct (contains flt_eq k (all_available_keys u)) eqn:Ec; fields;
    [|split; [exact H|discriminate]].
  apply (contains_In flt_eq flt_eq_iff) in Ec.
  pose proof (capture_held s u k idx H (eq_sym Hr)) as C.
  destruct (capture u k idx) as [u1 [e|]]; fields; cbn [fst] in C;
    [split; [exact C|discriminate]|].
  assert (C' : held_by_key float s (swap_rounds u1)).
  { destruct C as (F1 & B1 & O1).
    destruct (swap_rounds_frame u1) as (F2 & Eb & Eo & _).
    split; [eapply same_frame_trans; eauto|]. rewrite Eb, Eo. auto. }
  destruct (emit_held s (swap_rounds u1) k C') as (E1 & E2).
  split; [exact E1|]. intros batch Hout. exists k. split.
  - destruct F as (_ & _ & _ & _ & _ & Hall & _). rewrite <- Hall. exact Ec.
  - apply E2. exact Hout.
Qed.

Lemma streaming_held (s : t) (idxs : list nat) :
  forall u i,
    held_by_key float s u ->
    held_by_key float s (fst (final (streaming float u i idxs)))
    /\ forall batch,
         In batch (emitted (streaming float u i idxs)) ->
         exists k,
           In k (all_available_keys s)
           /\ forall j, In j batch -> resolve float s j = Ok k.
Proof.
  induction idxs as [|idx rest IH]; intros u i H; cbn [streaming].
  - split; [exact H|]. intros batch [].
  - destruct (step_held s u idx H) as (H' & Hout).
    destruct (step float u idx) as [o u' e]. cbn [out next err] in *.
    assert (Hy : forall batch, In batch (yielded o) ->
                   exists k, In k (all_available_keys s)
                             /\ forall j, In j batch -> resolve float s j = Ok k).
    { intros batch Hb. destruct o as [b|]; [|destruct Hb].
      destruct Hb as [<-|[]]. apply Hout. reflexivity. }
    destruct e as [e|]; cbn [emitted final fst]; [split; [exact H'|exact Hy]|].
    destruct (IH u' (match o with Some _ => S i | None => i end) H')
      as (I1 & I2).
    split; [exact I1|]. intros batch Hb. apply in_app_or in Hb.
    destruct Hb; auto.
Qed.
End OneKey.

Section OneKeyTrailing.
Variable float : string -> pyfloat.

Lemma refill_held (s u : t) (key : pyfloat) (d : Draw) :
  (forall l x, In x (shuffle d l) -> In x l) ->
  held_by_key float s u ->
  held_by_key float s (fst (refill u key d)).
Proof.
  intros Hsh (F & Hb & Ho). unfold refill.
  destruct (dict_get flt_eq key (original_buckets u)) as [o|] eqn:Eo; fields;
    [|split; auto].
  split; [exact F|]. split; [|exact Ho].
  apply set_held; [exact Hb|]. intros i Hi. apply Hsh in Hi.
  eapply Ho; [|exact Hi]. eapply dict_get_In; [exact flt_eq_iff|exact Eo].
Qed.

Lemma trailing_step_held (s u : t) (d : Draw) :
  (forall l x, In x (shuffle d l) -> In x l) ->
  held_by_key float s u ->
  held_by_key float s (next (trailing_step u d))
  /\ forall batch,
       out (trailing_step u d) = Some batch ->
       exists k,
         In k (all_available_keys s)
         /\ forall i, In i batch -> resolve float s i = Ok k.
Proof.
  intros Hsh H. pose proof H as (F & Hb & Ho).
  unfold trailing_step.
  pose proof (@choice_In pyfloat d (all_available_keys u)) as Hin.
  destruct (choice d (all_available_keys u)) as [key|e]; fields;
    [|split; [exact H|discriminate]].
  specialize (Hin key eq_refl).
  assert (Hkey : In key (all_available_keys s)).
  { destruct F as (_ & _ & _ & _ & _ & Hall & _). rewrite <- Hall. exact Hin. }
  destruct (dict_get flt_eq key (_aspect_ratio_buckets u)) as [b|] eqn:Eb;
    fields; [|split; [exact H|discriminate]].
  pose proof (dict_get_In flt_eq flt_eq_iff _ _ _ Eb) as Hinb.
  assert (Hfirst : forall i, In i (firstn (batch_size u) b) ->
                             resolve float s i = Ok key).
  { intros i Hi. apply In_firstn in Hi. eapply Hb; eauto. }
  assert (H1 : forall rest,
             (forall i, In i rest -> In i b) ->
             held_by_key float s
               (with_buckets u (dict_set flt_eq key rest (_aspect_ratio_buckets u)))).
  { intros rest Hrest. split; [exact F|]. split; [|exact Ho]. fields.
    apply set_held; [exact Hb|]. intros i Hi. eapply Hb; eauto. }
  destruct (batch_size u <=? length b).
  - destruct (skipn (batch_size u) b) as [|x rest] eqn:Esk.
    + pose proof (refill_held s _ key d Hsh (H1 [] (fun i (Hi : In i []) =>
                                                     match Hi with end))) as R.
      destruct (refill _ key d) as [u2 e]. fields. cbn [fst] in R.
      split; [exact R|]. intros batch Hout. injection Hout as <-.
      exists key. auto.
    + fields. split.
      * apply H1. intros i Hi. rewrite <- Esk in Hi. eapply In_skipn. exact Hi.
      * intros batch Hout. injection Hout as <-. exists key. auto.
  - pose proof (refill_held s u key d Hsh H) as R.
    destruct (refill u key d) as [u2 e]. fields. cbn [fst] in R.
    split; [exact R|discriminate].
Qed.

Lemma trailing_held (s : t) (rnd : nat -> Draw) (n : nat) :
  (forall it l x, In x (shuffle (rnd it) l) -> In x l) ->
  forall it u,
    held_by_key float s u ->
    forall batch,
      In batch (emitted (trailing rnd n it u)) ->
      exists k,
        In k (all_available_keys s)
        /\ forall j, In j batch -> resolve float s j = Ok k.
Proof.
  intro Hsh. induction n as [|n IH]; intros it u H batch; cbn [trailing].
  - intros [].
  - destruct (trailing_step_held s u (rnd it) (Hsh it) H) as (H' & Hout).
    destruct (trailing_step u (rnd it)) as [o u' e]. cbn [out next err] in *.
    assert (Hy : In batch (yielded o) ->
                 exists k, In k (all_available_keys s)
                           /\ forall j, In j batch -> resolve float s j = Ok k).
    { intros Hb. destruct o as [b|]; [|destruct Hb].
      destruct Hb as [<-|[]]. apply Hout. reflexivity. }
    destruct e as [e|]; cbn [emitted]; [exact Hy|].
    intro Hb. apply in_app_or in Hb. destruct Hb as [Hb|Hb]; [auto|].
    eapply IH; eauto.
Qed.
End OneKeyTrailing.

(** X18. Every batch of a pass over a freshly constructed balanced sampler,
    from the first loop or from the trailing loop, holds indices that all
    resolve to one key, and that key qualifies; in the trailing loop this
    needs the shuffle to return nothing but elements of its argument. *)
Theorem balanced_batches_hold_one_qualifying_key :
  forall (float : string -> pyfloat) rnd smp info bs table dl nums s,
    __init__ float smp info bs table dl nums = Ok s ->
    (forall it l x, In x (shuffle (rnd it) l) -> In x l) ->
    forall batch,
      In batch (emitted (__iter__ float rnd s)) ->
      exists k,
        In k (all_available_keys s)
        /\ forall i, In i batch -> resolve float s i = Ok k.
Proof.
  intros float rnd smp info bs table dl nums s Hinit Hsh batch.
  assert (H0 : held_by_key float s s).
  { destruct (init_fields float _ _ _ _ _ _ _ Hinit) as (q & _ & _ & _ & Hs).
    split; [apply same_frame_refl|]. rewrite Hs. fields.
    destruct (dict_fromkeys_spec flt_eq flt_eq_iff ([] : list nat)
                (map float (dict_keys table))) as (B1 & _).
    destruct (dict_fromkeys_spec flt_eq flt_eq_iff ([] : list nat)
                (map fst (filter (fun kv => (3000 <=? snd kv)%Z) q)))
      as (O1 & _).
    split; intros k b i Hb Hi.
    - rewrite (B1 _ _ Hb) in Hi. destruct Hi.
    - rewrite (O1 _ _ Hb) in Hi. destruct Hi. }
  destruct (streaming_held float s (sampler s) s 0 H0) as (H1 & Hout).
  unfold __iter__.
  destruct (stopped (streaming float s 0 (sampler s))); cbn [emitted];
    try exact (Hout batch).
  intro Hb. apply in_app_or in Hb. destruct Hb as [Hb|Hb]; [auto|].
  eapply (trailing_held float s rnd); eauto.
Qed.

Lemma balanced_batches_hold_one_qualifying_key_witness :
  __init__ decimal [0; 1; 2]
    (BalancedScenario.infos
       [BalancedScenario.tall; BalancedScenario.tall; BalancedScenario.tall])
    1 BalancedScenario.table2 false (Some BalancedScenario.nums_both)
  = Ok (BalancedScenario.built BalancedScenario.growing)
  /\ (forall (it : nat) l x, In x (shuffle BalancedScenario.reversing l) -> In x l)
  /\ forall batch,
       In batch (emitted (__iter__ decimal (fun _ => BalancedScenario.reversing)
                            (BalancedScenario.built BalancedScenario.growing))) ->
       exists k,
         In k (all_available_keys
                 (BalancedScenario.built BalancedScenario.growing))
         /\ forall i, In i batch ->
                      resolve decimal
                        (BalancedScenario.built BalancedScenario.growing) i
                      = Ok k.
Proof.
  assert (Hinit : __init__ decimal [0; 1; 2]
                    (BalancedScenario.infos
                       [BalancedScenario.tall; BalancedScenario.tall;
                        BalancedScenario.tall])
                    1 BalancedScenario.table2 false
                    (Some BalancedScenario.nums_both)
                  = Ok (BalancedScenario.built BalancedScenario.growing))
    by (vm_compute; reflexivity).
  assert (Hsh : forall (it : nat) l x,
             In x (shuffle BalancedScenario.reversing l) -> In x l).
  { intros _ l x H. apply in_rev. exact H. }
  split; [exact Hinit|]. split; [exact Hsh|].
  exact (balanced_batches_hold_one_qualifying_key decimal
           (fun _ => BalancedScenario.reversing) _ _ _ _ _ _ _ Hinit Hsh).
Defined.

(** ** [BalancedAspectRatioBatchSampler]: the claims on the quota, the rounds,
    the overfull buckets, the refill and the number of batches *)

(** What the capture block does: either it leaves the instance as it is, the
    count of the key being missing or not below the quota, or the count was
    strictly below the quota and is raised by one, the index being appended to
    the live bucket and to the snapshot of the key. *)
Lemma capture_cases (u : t) (k : pyfloat) (idx : nat) :
  (fst (capture u k idx) = u
   /\ forall c q,
        dict_get flt_eq k (_aspect_ratio_count u) = Some c ->
        dict_get flt_eq k (ratio_nums_gt u) = Some q ->
        (q <= c)%Z)
  \/ exists c q,
       dict_get flt_eq k (_aspect_ratio_count u) = Some c
       /\ dict_get flt_eq k (ratio_nums_gt u) = Some q
       /\ (c < q)%Z
       /\ dict_get flt_eq k (_aspect_ratio_count (fst (capture u k idx)))
          = Some (c + 1)%Z
       /\ (snd (capture u k idx) = None ->
           exists b o,
             dict_get flt_eq k (_aspect_ratio_buckets u) = Some b
             /\ dict_get flt_eq k (original_buckets u) = Some o
             /\ dict_get flt_eq k
                  (_aspect_ratio_buckets (fst (capture u k idx)))
                = Some (b ++ [idx])
             /\ dict_get flt_eq k (original_buckets (fst (capture u k idx)))
                = Some (o ++ [idx])).
Proof.
  unfold capture.
  destruct (dict_get flt_eq k (_aspect_ratio_count u)) as [c|] eqn:Ec;
    [|left; split; [reflexivity|discriminate]].
  destruct (dict_get flt_eq k (ratio_nums_gt u)) as [q|] eqn:Eq;
    [|left; split; [reflexivity|discriminate]].
  destruct (c <? q)%Z eqn:Elt.
  - right. exists c, q. apply Z.ltb_lt in Elt.
    split; [reflexivity|]. split; [reflexivity|]. split; [exact Elt|].
    fields.
    destruct (dict_get flt_eq k (_aspect_ratio_buckets u)) as [b|] eqn:Eb;
      fields.
    + destruct (dict_get flt_eq k (original_buckets u)) as [o|] eqn:Eo;
        fields.
      * split; [apply (dict_get_set_same flt_eq flt_eq_iff)|].
        intros _. exists b, o. split; [reflexivity|]. split; [reflexivity|].
        split; apply (dict_get_set_same flt_eq flt_eq_iff).
      * split; [apply (dict_get_set_same flt_eq flt_eq_iff)|discriminate].
    + split; [apply (dict_get_set_same flt_eq flt_eq_iff)|discriminate].
  - left. split; [reflexivity|].
    intros c' q' H1 H2. injection H1 as <-. injection H2 as <-.
    apply Z.ltb_ge. exact Elt.
Qed.

(** C6. On a constructed balanced sampler every running count is at most the
    quota of its key: when the constructor returns, after every index the
    first loop processes, and when a pass is over; every iteration of the
    first loop and every pass keep it so, from whatever state they start. The
    capture block appends an index to the live bucket and to the snapshot of
    its key, and raises the count by one, only when it finds the count
    strictly below the quota; otherwise it leaves the instance as it is. *)
Theorem C6_capture_count_never_exceeds_quota :
  (forall (float : string -> pyfloat) smp info bs table dl nums s,
      __init__ float smp info bs table dl (Some nums) = Ok s ->
      NoDup (dict_keys nums) ->
      within_quota s
      /\ (forall idxs, within_quota (state_after float s idxs))
      /\ (forall rnd, within_quota (final (__iter__ float rnd s))))
  /\ (forall (float : string -> pyfloat) u,
        within_quota u ->
        (forall idx, within_quota (next (step float u idx)))
        /\ (forall rnd, within_quota (final (__iter__ float rnd u))))
  /\ (forall u k idx,
        (fst (capture u k idx) = u
         /\ forall c q,
              dict_get flt_eq k (_aspect_ratio_count u) = Some c ->
              dict_get flt_eq k (ratio_nums_gt u) = Some q ->
              (q <= c)%Z)
        \/ exists c q,
             dict_get flt_eq k (_aspect_ratio_count u) = Some c
             /\ dict_get flt_eq k (ratio_nums_gt u) = Some q
             /\ (c < q)%Z
             /\ dict_get flt_eq k (_aspect_ratio_count (fst (capture u k idx)))
                = Some (c + 1)%Z
             /\ (snd (capture u k idx) = None ->
                 exists b o,
                   dict_get flt_eq k (_aspect_ratio_buckets u) = Some b
                   /\ dict_get flt_eq k (original_buckets u) = Some o
                   /\ dict_get flt_eq k
                        (_aspect_ratio_buckets (fst (capture u k idx)))
                      = Some (b ++ [idx])
                   /\ dict_get flt_eq k
                        (original_buckets (fst (capture u k idx)))
                      = Some (o ++ [idx]))).
Proof.
  assert (Pass : forall (float : string -> pyfloat) rnd u,
             within_quota u -> within_quota (final (__iter__ float rnd u))).
  { intros float rnd u H0. unfold __iter__.
    pose proof (streaming_quota float (sampler u) u 0 H0) as H1.
    destruct (stopped (streaming float u 0 (sampler u))); cbn [final];
      try exact H1.
    apply trailing_quota. exact H1. }
  split; [|split].
  - intros float smp info bs table dl nums s Hinit Hnd.
    pose proof (init_quota float _ _ _ _ _ _ _ Hinit Hnd) as H0.
    split; [exact H0|]. split.
    + intro idxs. apply streaming_quota. exact H0.
    + intro rnd. apply Pass. exact H0.
  - intros float u H0. split.
    + intro idx. apply step_quota. exact H0.
    + intro rnd. apply Pass. exact H0.
  - apply capture_cases.
Qed.

Lemma C6_capture_count_never_exceeds_quota_witness :
  __init__ decimal [0; 1; 2]
    (BalancedScenario.infos
       [BalancedScenario.tall; BalancedScenario.tall; BalancedScenario.tall])
    1 BalancedScenario.table2 false (Some BalancedScenario.nums_both)
  = Ok (BalancedScenario.built BalancedScenario.growing)
  /\ NoDup (dict_keys BalancedScenario.nums_both)
  /\ within_quota (BalancedScenario.built BalancedScenario.growing)
  /\ (forall idxs,
        within_quota
          (state_after decimal (BalancedScenario.built BalancedScenario.growing)
             idxs))
  /\ (forall rnd,
        within_quota
          (final (__iter__ decimal rnd
                    (BalancedScenario.built BalancedScenario.growing)))).
Proof.
  assert (Hinit : __init__ decimal [0; 1; 2]
                    (BalancedScenario.infos
                       [BalancedScenario.tall; BalancedScenario.tall;
                        BalancedScenario.tall])
                    1 BalancedScenario.table2 false
                    (Some BalancedScenario.nums_both)
                  = Ok (BalancedScenario.built BalancedScenario.growing))
    by (vm_compute; reflexivity).
  split; [exact Hinit|]. split; [exact nums_both_nodup|].
  exact (proj1 C6_capture_count_never_exceeds_quota decimal _ _ _ _ _ _ _
           Hinit nums_both_nodup).
Defined.

(** C7, amended. In the first loop of the balanced sampler an index whose
    resolved key does not qualify is skipped before the swap and leaves the
    instance as it is. For an index whose resolved key qualifies, the swap is
    made after the capture block and before the emission test, whether or not
    the count of the key has reached its quota: an empty available list is
    replaced by the exhausted list, which is emptied, and a non-empty one is
    left alone. A key whose count has reached its quota is not captured, and
    the swap is made all the same. On a constructed instance the capture
    block does not raise. *)
Theorem C7_swap_for_every_qualifying_index :
  (forall (float : string -> pyfloat) u idx k,
      resolve float u idx = Ok k ->
      (contains flt_eq k (all_available_keys u) = false ->
       step float u idx = mkStep None u None)
      /\ (contains flt_eq k (all_available_keys u) = true ->
          forall u1,
            capture u k idx = (u1, None) ->
            step float u idx = emit (swap_rounds u1) k
            /\ (current_available_bucket_keys u = [] ->
                current_available_bucket_keys (swap_rounds u1)
                = exhausted_bucket_keys u
                /\ exhausted_bucket_keys (swap_rounds u1) = [])
            /\ (current_available_bucket_keys u <> [] ->
                swap_rounds u1 = u1))
      /\ (forall c q,
            dict_get flt_eq k (_aspect_ratio_count u) = Some c ->
            dict_get flt_eq k (ratio_nums_gt u) = Some q ->
            (q <= c)%Z ->
            capture u k idx = (u, None)))
  /\ (forall (float : string -> pyfloat) smp info bs table dl nums s idxs idx k,
        __init__ float smp info bs table dl (Some nums) = Ok s ->
        resolve float (state_after float s idxs) idx = Ok k ->
        contains flt_eq k (all_available_keys (state_after float s idxs))
        = true ->
        snd (capture (state_after float s idxs) k idx) = None).
Proof.
  split.
  - intros float u idx k Hres. split; [|split].
    + intro Hc. unfold step. rewrite Hres, Hc. reflexivity.
    + intros Hc u1 Hcap. unfold step. rewrite Hres, Hc, Hcap. fields.
      split; [reflexivity|].
      destruct (capture_frame u k idx) as (_ & Hcur & Hex).
      rewrite Hcap in Hcur, Hex. cbn [fst] in Hcur, Hex.
      unfold swap_rounds. rewrite Hcur. split.
      * intros ->. fields. auto.
      * intro Hne. destruct (current_available_bucket_keys u);
          [congruence|reflexivity].
    + intros c q Hcnt Hq Hle. unfold capture. rewrite Hcnt, Hq.
      apply Z.ltb_ge in Hle. rewrite Hle. reflexivity.
  - intros float smp info bs table dl nums s idxs idx k Hinit Hres Hc.
    destruct (init_known_keys float _ _ _ _ _ _ _ Hinit) as (K & _).
    pose proof (known_keys_preserved float s _ K
                  (streaming_same_keys float idxs s 0)
                  (streaming_frame float idxs s 0)) as K'.
    fold (state_after float s idxs) in K'.
    apply (capture_no_error float); [exact K'| |].
    + apply (contains_In flt_eq flt_eq_iff). exact Hc.
    + pose proof (resolve_ok_key float _ idx k Hres) as Hkey.
      apply in_map_iff in Hkey. destruct Hkey as (r & <- & Hr).
      apply (proj2 K'). exact Hr.
Qed.

Lemma C7_swap_for_every_qualifying_index_witness :
  resolve decimal
    (state_after decimal (BalancedScenario.built BalancedScenario.skipping) [0])
    0 = Ok (decimal "0.5")
  /\ contains flt_eq (decimal "0.5")
       (all_available_keys
          (state_after decimal
             (BalancedScenario.built BalancedScenario.skipping) [0])) = true
  /\ forall u1,
       capture
         (state_after decimal
            (BalancedScenario.built BalancedScenario.skipping) [0])
         (decimal "0.5") 0 = (u1, None) ->
       step decimal
         (state_after decimal
            (BalancedScenario.built BalancedScenario.skipping) [0]) 0
       = emit (swap_rounds u1) (decimal "0.5")
       /\ (current_available_bucket_keys
             (state_after decimal
                (BalancedScenario.built BalancedScenario.skipping) [0]) = [] ->
           current_available_bucket_keys (swap_rounds u1)
           = exhausted_bucket_keys
               (state_after decimal
                  (BalancedScenario.built BalancedScenario.skipping) [0])
           /\ exhausted_bucket_keys (swap_rounds u1) = [])
       /\ (current_available_bucket_keys
             (state_after decimal
                (BalancedScenario.built BalancedScenario.skipping) [0]) <> [] ->
           swap_rounds u1 = u1).
Proof.
  assert (H1 : resolve decimal
                 (state_after decimal
                    (BalancedScenario.built BalancedScenario.skipping) [0]) 0
               = Ok (decimal "0.5")) by (vm_compute; reflexivity).
  assert (H2 : contains flt_eq (decimal "0.5")
                 (all_available_keys
                    (state_after decimal
                       (BalancedScenario.built BalancedScenario.skipping) [0]))
               = true) by (vm_compute; reflexivity).
  split; [exact H1|]. split; [exact H2|].
  exact (proj1 (proj2 (proj1 C7_swap_for_every_qualifying_index decimal _ 0 _
                         H1)) H2).
Defined.

(** C9. In the first loop of the balanced sampler a yield is the whole bucket
    of the resolved key at the moment it holds exactly [batch_size] indices.
    While a qualifying key is not in the non-empty available list and its
    count is below its quota, an index that resolves to it is appended to its
    bucket and nothing is yielded, so the bucket can outgrow [batch_size]: in
    the example, with [batch_size = 1], the bucket of 0.5 holds two indices
    when the loop ends. A bucket longer than [batch_size] stays so for the rest
    of the loop and no index that resolves to its key makes the loop yield;
    the trailing loop yields a [batch_size] prefix of it when its key is
    drawn. *)
Theorem C9_overfull_bucket_yields_only_in_trailing :
  (forall (float : string -> pyfloat) (u : t),
      (forall idx b,
          out (step float u idx) = Some b ->
          length b = batch_size u
          /\ exists k u1,
               resolve float u idx = Ok k
               /\ capture u k idx = (u1, None)
               /\ dict_get flt_eq k (_aspect_ratio_buckets u1) = Some b)
      /\ (forall idx k c q b o,
            resolve float u idx = Ok k ->
            contains flt_eq k (all_available_keys u) = true ->
            current_available_bucket_keys u <> [] ->
            contains flt_eq k (current_available_bucket_keys u) = false ->
            dict_get flt_eq k (_aspect_ratio_count u) = Some c ->
            dict_get flt_eq k (ratio_nums_gt u) = Some q ->
            (c < q)%Z ->
            dict_get flt_eq k (_aspect_ratio_buckets u) = Some b ->
            dict_get flt_eq k (original_buckets u) = Some o ->
            out (step float u idx) = None
            /\ err (step float u idx) = None
            /\ dict_get flt_eq k
                 (_aspect_ratio_buckets (next (step float u idx)))
               = Some (b ++ [idx]))
      /\ (forall k b,
            dict_get flt_eq k (_aspect_ratio_buckets u) = Some b ->
            batch_size u < length b ->
            forall idxs,
              (exists b',
                  dict_get flt_eq k
                    (_aspect_ratio_buckets (state_after float u idxs))
                  = Some b'
                  /\ batch_size u < length b')
              /\ forall pre idx post,
                   idxs = pre ++ idx :: post ->
                   resolve float u idx = Ok k ->
                   out (step float (state_after float u pre) idx) = None)
      /\ (forall d k b,
            choice d (all_available_keys u) = Ok k ->
            dict_get flt_eq k (_aspect_ratio_buckets u) = Some b ->
            batch_size u <= length b ->
            out (trailing_step u d) = Some (firstn (batch_size u) b)))
  /\ BalancedScenario.growing
     = Ok (BalancedScenario.built BalancedScenario.growing)
  /\ emitted (streaming decimal (BalancedScenario.built BalancedScenario.growing)
                0 [0; 1; 2]) = [[0]]
  /\ dict_get flt_eq BalancedScenario.half
       (_aspect_ratio_buckets
          (state_after decimal (BalancedScenario.built BalancedScenario.growing)
             [0; 1; 2])) = Some [1; 2]
  /\ batch_size (BalancedScenario.built BalancedScenario.growing) = 1.
Proof.
  split; [|repeat split; vm_compute; reflexivity].
  intros float u. split; [|split; [|split]].
  - intros idx b. apply step_out_exact.
  - intros idx k c q b o. apply step_grows.
  - intros k b Hb Hlong idxs. split.
    + apply (streaming_long float k idxs u 0 b Hb Hlong).
    + intros pre idx post _ Hres.
      destruct (streaming_long float k pre u 0 b Hb Hlong) as (b' & Hb' & Hl').
      pose proof (streaming_frame float pre u 0) as F.
      fold (state_after float u pre) in Hb', F.
      destruct (step_long float (state_after float u pre) idx k b' Hb')
        as (_ & Hout).
      * destruct F as (_ & _ & Hbs & _). rewrite Hbs. exact Hl'.
      * apply Hout. rewrite (resolve_frame float u _ idx F). exact Hres.
  - intros d k b Hch Hb Hlen. unfold trailing_step. rewrite Hch, Hb.
    apply Nat.leb_le in Hlen. rewrite Hlen.
    destruct (skipn (batch_size u) b); [|reflexivity].
    destruct (refill _ k d). reflexivity.
Qed.

Lemma C9_overfull_bucket_yields_only_in_trailing_witness :
  dict_get flt_eq BalancedScenario.half
    (_aspect_ratio_buckets
       (state_after decimal (BalancedScenario.built BalancedScenario.growing)
          [0; 1; 2])) = Some [1; 2]
  /\ batch_size
       (state_after decimal (BalancedScenario.built BalancedScenario.growing)
          [0; 1; 2]) < length [1; 2]
  /\ exists b',
       dict_get flt_eq BalancedScenario.half
         (_aspect_ratio_buckets
            (state_after decimal
               (state_after decimal
                  (BalancedScenario.built BalancedScenario.growing) [0; 1; 2])
               [0; 1]))
       = Some b'
       /\ batch_size
            (state_after decimal
               (BalancedScenario.built BalancedScenario.growing) [0; 1; 2])
          < length b'.
Proof.
  assert (Hb : dict_get flt_eq BalancedScenario.half
                 (_aspect_ratio_buckets
                    (state_after decimal
                       (BalancedScenario.built BalancedScenario.growing)
                       [0; 1; 2])) = Some [1; 2]) by (vm_compute; reflexivity).
  assert (Hlen : batch_size
                   (state_after decimal
                      (BalancedScenario.built BalancedScenario.growing)
                      [0; 1; 2]) < length [1; 2]) by (vm_compute; lia).
  split; [exact Hb|]. split; [exact Hlen|].
  exact (proj1 (proj1 (proj2 (proj2
           (proj1 C9_overfull_bucket_yields_only_in_trailing decimal
              (state_after decimal
                 (BalancedScenario.built BalancedScenario.growing) [0; 1; 2]))))
           BalancedScenario.half [1; 2] Hb Hlen [0; 1])).
Defined.

(** C10. In the trailing loop, when the bucket of the drawn key holds fewer
    than [batch_size] indices, at least one index included, nothing is
    yielded and the bucket is replaced by the shuffled copy of the snapshot of
    the key. What the bucket held is not kept: the new bucket is the same
    whatever short content the bucket had, and when the shuffle permutes its
    argument the new bucket is a rearrangement of the snapshot, so that an
    index is in it as many times as in the snapshot. Nothing but that bucket
    is written. In the example the bucket of 0.5 holds [2] after the first
    loop and the snapshot holds [0; 1; 2]; the draw of 0.5 yields nothing and
    leaves [0; 1; 2] in the bucket. *)
Theorem C10_refill_replaces_partial_bucket :
  (forall (u : t) (d : Draw) (key : pyfloat) (bucket orig : list nat),
      choice d (all_available_keys u) = Ok key ->
      dict_get flt_eq key (_aspect_ratio_buckets u) = Some bucket ->
      length bucket < batch_size u ->
      dict_get flt_eq key (original_buckets u) = Some orig ->
      trailing_step u d
      = mkStep None
          (with_buckets u
             (dict_set flt_eq key (shuffle d orig) (_aspect_ratio_buckets u)))
          None
      /\ dict_get flt_eq key (_aspect_ratio_buckets (next (trailing_step u d)))
         = Some (shuffle d orig)
      /\ original_buckets (next (trailing_step u d)) = original_buckets u
      /\ (forall other,
            length other < batch_size u ->
            trailing_step
              (with_buckets u
                 (dict_set flt_eq key other (_aspect_ratio_buckets u)))
              d
            = trailing_step u d)
      /\ ((forall l, Permutation l (shuffle d l)) ->
          Permutation orig (shuffle d orig)
          /\ forall x, count_occ Nat.eq_dec (shuffle d orig) x
                       = count_occ Nat.eq_dec orig x))
  /\ BalancedScenario.partial
     = Ok (BalancedScenario.built BalancedScenario.partial)
  /\ (let u := state_after decimal
                 (BalancedScenario.built BalancedScenario.partial)
                 [0; 1; 2; 3; 4; 5; 6; 7] in
      batch_size u = 2
      /\ dict_get flt_eq BalancedScenario.half (_aspect_ratio_buckets u)
         = Some [2]
      /\ dict_get flt_eq BalancedScenario.half (original_buckets u)
         = Some [0; 1; 2]
      /\ out (trailing_step u BalancedScenario.keep) = None
      /\ dict_get flt_eq BalancedScenario.half
           (_aspect_ratio_buckets (next (trailing_step u BalancedScenario.keep)))
         = Some [0; 1; 2]).
Proof.
  split; [|split; [vm_compute; reflexivity|]].
  - intros u d key bucket orig Hch Hb Hlen Ho.
    assert (Hleb : forall l : list nat, length l < batch_size u ->
                             (batch_size u <=? length l) = false)
      by (intros l Hl; apply Nat.leb_gt; exact Hl).
    assert (E : trailing_step u d
                = mkStep None
                    (with_buckets u
                       (dict_set flt_eq key (shuffle d orig)
                          (_aspect_ratio_buckets u))) None).
    { unfold trailing_step. rewrite Hch, Hb, (Hleb _ Hlen).
      unfold refill. rewrite Ho. reflexivity. }
    split; [exact E|]. split; [|split; [|split]].
    + rewrite E. fields. apply (dict_get_set_same flt_eq flt_eq_iff).
    + rewrite E. reflexivity.
    + intros other Hother. rewrite E. unfold trailing_step. fields.
      rewrite Hch, (dict_get_set_same flt_eq flt_eq_iff), (Hleb _ Hother).
      unfold refill. fields. rewrite Ho.
      rewrite (dict_set_set flt_eq flt_eq_iff). reflexivity.
    + intros Hperm. split; [apply Hperm|].
      intro x. symmetry. apply Permutation_count_occ. apply Hperm.
  - cbv zeta. repeat split; vm_compute; reflexivity.
Qed.

Lemma C10_refill_replaces_partial_bucket_witness :
  choice BalancedScenario.keep
    (all_available_keys
       (state_after decimal (BalancedScenario.built BalancedScenario.partial)
          [0; 1; 2; 3; 4; 5; 6; 7])) = Ok BalancedScenario.half
  /\ dict_get flt_eq BalancedScenario.half
       (_aspect_ratio_buckets
          (state_after decimal (BalancedScenario.built BalancedScenario.partial)
             [0; 1; 2; 3; 4; 5; 6; 7])) = Some [2]
  /\ length [2]
     < batch_size
         (state_after decimal (BalancedScenario.built BalancedScenario.partial)
            [0; 1; 2; 3; 4; 5; 6; 7])
  /\ dict_get flt_eq BalancedScenario.half
       (original_buckets
          (state_after decimal (BalancedScenario.built BalancedScenario.partial)
             [0; 1; 2; 3; 4; 5; 6; 7])) = Some [0; 1; 2]
  /\ dict_get flt_eq BalancedScenario.half
       (_aspect_ratio_buckets
          (next
             (trailing_step
                (state_after decimal
                   (BalancedScenario.built BalancedScenario.partial)
                   [0; 1; 2; 3; 4; 5; 6; 7])
                BalancedScenario.keep)))
     = Some (shuffle BalancedScenario.keep [0; 1; 2]).
Proof.
  set (u := state_after decimal (BalancedScenario.built BalancedScenario.partial)
              [0; 1; 2; 3; 4; 5; 6; 7]).
  assert (H1 : choice BalancedScenario.keep (all_available_keys u)
               = Ok BalancedScenario.half).
  { assert (E : option_map this
                  (match choice BalancedScenario.keep (all_available_keys u)
                   with Ok k => Some k | Raise _ => None end)
                = Some (1 # 2)%Q) by (vm_compute; reflexivity).
    destruct (choice BalancedScenario.keep (all_available_keys u)) as [k|e];
      [|discriminate].
    f_equal. apply flt_eq_iff. cbn in E. injection E as E.
    unfold flt_eq. rewrite E. reflexivity. }
  assert (H2 : dict_get flt_eq BalancedScenario.half (_aspect_ratio_buckets u)
               = Some [2]) by (vm_compute; reflexivity).
  assert (H3 : length [2] < batch_size u) by (vm_compute; lia).
  assert (H4 : dict_get flt_eq BalancedScenario.half (original_buckets u)
               = Some [0; 1; 2]) by (vm_compute; reflexivity).
  split; [exact H1|]. split; [exact H2|]. split; [exact H3|].
  split; [exact H4|].
  exact (proj1 (proj2 (proj1 C10_refill_replaces_partial_bucket u
                         BalancedScenario.keep BalancedScenario.half [2]
                         [0; 1; 2] H1 H2 H3 H4))).
Defined.




